(** * Billing and payment reconciliation core of the property-management
      application: a shallow embedding of the Django models and views
      ([properties/models.py], [tenants_mgmt/models.py], [invoicing/models.py],
      [invoicing/views.py], [payments/models.py], [payments/views.py]) and the
      properties of the specification checked against it. *)

From Stdlib Require Import QArith Qminmax Lqa ZArith String Ascii DecimalString.
From stdpp Require Import gmap strings list fin_maps sorting.

Open Scope Z_scope.

(** ** Values

    A Python [Decimal] is an exact decimal number; the sums, differences and
    the one product the code computes stay far below the 28 significant digits
    of the default context, so they are exact and [Decimal] is embedded in the
    rationals.  [Decimal(str(x))] is the identity on a value that already is a
    number, and [x or 0] returns a value equal to [x].  A [date] is a day
    number, a [datetime] a number of seconds. *)

Abbreviation Decimal := Q.
Abbreviation date := Z.
Abbreviation datetime := Z.

Definition Qlt_bool (a b : Decimal) : bool := negb (Qle_bool b a).

(** ** Rows of the database tables *)

Inductive water_billing := fixed | metered | included.
Inductive lease_state := active | expired | terminated.
Inductive invoice_state := pending | partial | paid | overdue.
Inductive payment_state := awaiting | confirmed | failed.

Global Instance water_billing_eq_dec : EqDecision water_billing.
Proof. solve_decision. Defined.
Global Instance lease_state_eq_dec : EqDecision lease_state.
Proof. solve_decision. Defined.
Global Instance invoice_state_eq_dec : EqDecision invoice_state.
Proof. solve_decision. Defined.
Global Instance payment_state_eq_dec : EqDecision payment_state.
Proof. solve_decision. Defined.

(** [properties.Property]: the foreign key to the owning landlord profile. *)
Record PropertyRow := { prop_landlord : Z }.

(** [properties.Unit]. *)
Record UnitRow := {
  unit_property : Z;
  monthly_rent : Decimal;
  garbage_fee : Decimal;
  water_billing_type : water_billing;
  water_fixed_amount : Decimal;
  water_rate_per_unit : Decimal;
  last_water_reading : Decimal
}.

(** [tenants_mgmt.Lease]. *)
Record LeaseRow := {
  lease_unit : Z;
  lease_tenant : Z;
  start_date : date;
  lease_status : lease_state;
  lease_rent_amount : Decimal
}.

(** [invoicing.Invoice]. *)
Record InvoiceRow := {
  lease : Z;
  invoice_number : string;
  billing_month : date;
  due_date : date;
  rent_amount : Decimal;
  water_amount : Decimal;
  garbage_amount : Decimal;
  other_charges : Decimal;
  total_amount : Decimal;
  amount_paid : Decimal;
  status : invoice_state
}.

(** [payments.Payment].  [payment_status] is the column [status]; the state
    ['pending'] is written [awaiting] here, [pending] being taken by the
    invoice state of the same name. *)
Record PaymentRow := {
  invoice : Z;
  amount : Decimal;
  payment_method : string;
  mpesa_receipt_number : string;
  phone_number : string;
  transaction_id : string;
  is_manual : bool;
  notes : string;
  payment_status : payment_state;
  confirmed_at : option datetime;
  created_at : datetime
}.

Record DB := {
  properties : gmap Z PropertyRow;
  units : gmap Z UnitRow;
  leases : gmap Z LeaseRow;
  invoices : gmap Z InvoiceRow;
  payments : gmap Z PaymentRow
}.

Definition with_invoices (t : gmap Z InvoiceRow) (db : DB) : DB :=
  {| properties := properties db; units := units db; leases := leases db;
     invoices := t; payments := payments db |}.

Definition with_payments (t : gmap Z PaymentRow) (db : DB) : DB :=
  {| properties := properties db; units := units db; leases := leases db;
     invoices := invoices db; payments := t |}.

(** A model instance in memory: its primary key ([None] until the first
    save) and its field values. *)
Record instance (R : Type) := Instance { pk : option Z; fields : R }.
Arguments Instance {R} _ _.
Arguments pk {R} _.
Arguments fields {R} _.

(** ** Exceptions and the database as state

    A computation runs on the database and either returns or raises; what it
    wrote before raising stays written (autocommit) unless it runs under
    [atomic], the embedding of [@transaction.atomic]. *)

Inductive exn := DoesNotExist | IntegrityError | ValueError.

Inductive outcome (A : Type) := Return (a : A) | Raise (e : exn).
Arguments Return {A} _.
Arguments Raise {A} _.

Definition M (A : Type) : Type := DB -> outcome A * DB.

Definition ret {A} (a : A) : M A := fun db => (Return a, db).
Definition raise {A} (e : exn) : M A := fun db => (Raise e, db).
Definition bind {A B} (m : M A) (k : A -> M B) : M B :=
  fun db => match m db with
            | (Return a, db') => k a db'
            | (Raise e, db') => (Raise e, db')
            end.
Definition get_db : M DB := fun db => (Return db, db).
Definition put_db (db' : DB) : M unit := fun _ => (Return tt, db').

Definition atomic {A} (m : M A) : M A :=
  fun db => match m db with
            | (Return a, db') => (Return a, db')
            | (Raise e, _) => (Raise e, db)
            end.

Notation "x <- m ;; k" := (bind m (fun x => k))
  (at level 100, m at next level, right associativity).
Notation "m ;;; k" := (bind m (fun _ => k))
  (at level 100, k at level 200, right associativity).

(** What a request sees of the outside world: the instant of
    [timezone.now()], its date, its ['%Y%m'] and ['%Y%m%d%H%M%S'] renderings,
    and the eight characters drawn from [uuid.uuid4()] at the n-th invoice
    creation of the request. *)
Record Env := {
  now : datetime;
  today : date;
  month_str : string;
  stamp : string;
  uuid4 : nat -> string
}.

(** ** [properties/models.py] *)

Module Unit.

Definition get_water_charge (self : UnitRow) (current_reading : option Decimal)
  : Decimal :=
  match water_billing_type self with
  | included => 0
  | fixed => water_fixed_amount self
  | metered =>
      match current_reading with
      | Some reading =>
          let consumption := reading - last_water_reading self in
          let consumption := if Qlt_bool consumption 0 then 0 else consumption in
          consumption * water_rate_per_unit self
      | None => 0
      end
  end%Q.

End Unit.

(** ** [invoicing/models.py] *)

Module Invoice.

Definition set_status (s : invoice_state) (self : InvoiceRow) : InvoiceRow :=
  {| lease := lease self; invoice_number := invoice_number self;
     billing_month := billing_month self; due_date := due_date self;
     rent_amount := rent_amount self; water_amount := water_amount self;
     garbage_amount := garbage_amount self; other_charges := other_charges self;
     total_amount := total_amount self; amount_paid := amount_paid self;
     status := s |}.

Definition set_total_amount (t : Decimal) (self : InvoiceRow) : InvoiceRow :=
  {| lease := lease self; invoice_number := invoice_number self;
     billing_month := billing_month self; due_date := due_date self;
     rent_amount := rent_amount self; water_amount := water_amount self;
     garbage_amount := garbage_amount self; other_charges := other_charges self;
     total_amount := t; amount_paid := amount_paid self;
     status := status self |}.

Definition set_amount_paid (p : Decimal) (self : InvoiceRow) : InvoiceRow :=
  {| lease := lease self; invoice_number := invoice_number self;
     billing_month := billing_month self; due_date := due_date self;
     rent_amount := rent_amount self; water_amount := water_amount self;
     garbage_amount := garbage_amount self; other_charges := other_charges self;
     total_amount := total_amount self; amount_paid := p;
     status := status self |}.

Definition set_invoice_number (n : string) (self : InvoiceRow) : InvoiceRow :=
  {| lease := lease self; invoice_number := n;
     billing_month := billing_month self; due_date := due_date self;
     rent_amount := rent_amount self; water_amount := water_amount self;
     garbage_amount := garbage_amount self; other_charges := other_charges self;
     total_amount := total_amount self; amount_paid := amount_paid self;
     status := status self |}.

(** The derivation of [update_status], as a function of the four values it
    reads. *)
Definition derive_status (paid_so_far total : Decimal) (due today : date)
  : invoice_state :=
  if Qle_bool total paid_so_far then paid
  else if Qlt_bool 0 paid_so_far then partial
  else if due <? today then overdue
  else pending.

Definition update_status (today : date) (self : InvoiceRow) : InvoiceRow :=
  set_status
    (derive_status (amount_paid self) (total_amount self) (due_date self) today)
    self.

Definition balance (self : InvoiceRow) : Decimal :=
  (total_amount self - amount_paid self)%Q.

Definition generate_invoice_number (env : Env) (unique_id : string) : string :=
  ("INV-" ++ month_str env ++ "-" ++ unique_id)%string.

(** The two uniqueness constraints of the table: [invoice_number] is
    [unique], and [unique_together] is [('lease', 'billing_month')].  The
    row being written is compared with every other row. *)
Definition unique_ok (key : option Z) (self : InvoiceRow)
    (t : gmap Z InvoiceRow) : Prop :=
  map_Forall (fun k r =>
    key = Some k \/
    (invoice_number r <> invoice_number self /\
     ~ (lease r = lease self /\ billing_month r = billing_month self))) t.

Global Instance unique_ok_dec key self t : Decision (unique_ok key self t).
Proof. unfold unique_ok. apply _. Defined.

(** [Model.save]: an insert under a key the database chooses when the
    instance has none, an update of its row otherwise. *)
Definition super_save (self : instance InvoiceRow) : M (instance InvoiceRow) :=
  db <- get_db ;;
  if decide (unique_ok (pk self) (fields self) (invoices db)) then
    let k := match pk self with
             | Some k => k
             | None => fresh (dom (invoices db))
             end in
    put_db (with_invoices (<[k := fields self]> (invoices db)) db) ;;;
    ret (Instance (Some k) (fields self))
  else raise IntegrityError.

(** The fields [save] leaves on the instance before it writes the row.
    [unique_id] is the draw of [uuid.uuid4()], used when the instance has
    no number yet.  The conversion of a [due_date] given as a string is
    made where the string enters (see the views): nothing is written
    between the assignment and this point. *)
Definition pre_save (env : Env) (unique_id : string) (self : InvoiceRow)
  : InvoiceRow :=
  let self :=
    if decide (invoice_number self = ""%string)
    then set_invoice_number (generate_invoice_number env unique_id) self
    else self in
  let self :=
    set_total_amount
      (rent_amount self + water_amount self + garbage_amount self
       + other_charges self)%Q self in
  update_status (today env) self.

Definition save (env : Env) (unique_id : string) (self : instance InvoiceRow)
  : M (instance InvoiceRow) :=
  super_save (Instance (pk self) (pre_save env unique_id (fields self))).

(** [Invoice.objects.get(pk=k)]. *)
Definition get (k : Z) : M (instance InvoiceRow) :=
  db <- get_db ;;
  match invoices db !! k with
  | Some r => ret (Instance (Some k) r)
  | None => raise DoesNotExist
  end.

End Invoice.

(** ** [payments/models.py] *)

(** A [Payment] instance in memory: primary key, field values, and the
    related [Invoice] instance its attribute [invoice] holds once it was
    assigned or first read.  Every later read of [self.invoice] is that one
    object, so what [Payment.save] writes on it is seen by whoever holds it. *)
Record PaymentObj := {
  pay_pk : option Z;
  pay_fields : PaymentRow;
  invoice_obj : option (instance InvoiceRow)
}.

Module Payment.

Definition set_status (s : payment_state) (r : PaymentRow) : PaymentRow :=
  {| invoice := invoice r; amount := amount r;
     payment_method := payment_method r;
     mpesa_receipt_number := mpesa_receipt_number r;
     phone_number := phone_number r; transaction_id := transaction_id r;
     is_manual := is_manual r; notes := notes r; payment_status := s;
     confirmed_at := confirmed_at r; created_at := created_at r |}.

Definition set_confirmed_at (t : option datetime) (r : PaymentRow) : PaymentRow :=
  {| invoice := invoice r; amount := amount r;
     payment_method := payment_method r;
     mpesa_receipt_number := mpesa_receipt_number r;
     phone_number := phone_number r; transaction_id := transaction_id r;
     is_manual := is_manual r; notes := notes r;
     payment_status := payment_status r;
     confirmed_at := t; created_at := created_at r |}.

Definition set_created_at (t : datetime) (r : PaymentRow) : PaymentRow :=
  {| invoice := invoice r; amount := amount r;
     payment_method := payment_method r;
     mpesa_receipt_number := mpesa_receipt_number r;
     phone_number := phone_number r; transaction_id := transaction_id r;
     is_manual := is_manual r; notes := notes r;
     payment_status := payment_status r;
     confirmed_at := confirmed_at r; created_at := t |}.

Definition set_receipt (receipt txn : string) (r : PaymentRow)
  : PaymentRow :=
  {| invoice := invoice r; amount := amount r;
     payment_method := payment_method r;
     mpesa_receipt_number := receipt;
     phone_number := phone_number r; transaction_id := txn;
     is_manual := is_manual r; notes := notes r;
     payment_status := payment_status r;
     confirmed_at := confirmed_at r; created_at := created_at r |}.

Definition set_notes (n : string) (r : PaymentRow) : PaymentRow :=
  {| invoice := invoice r; amount := amount r;
     payment_method := payment_method r;
     mpesa_receipt_number := mpesa_receipt_number r;
     phone_number := phone_number r; transaction_id := transaction_id r;
     is_manual := is_manual r; notes := n;
     payment_status := payment_status r;
     confirmed_at := confirmed_at r; created_at := created_at r |}.

Definition with_fields (r : PaymentRow) (self : PaymentObj) : PaymentObj :=
  {| pay_pk := pay_pk self; pay_fields := r; invoice_obj := invoice_obj self |}.

Definition with_invoice (i : instance InvoiceRow) (self : PaymentObj)
  : PaymentObj :=
  {| pay_pk := pay_pk self; pay_fields := pay_fields self;
     invoice_obj := Some i |}.

(** Reading [self.invoice]: the object already held, or the row fetched by
    the foreign key and held from then on. *)
Definition the_invoice (self : PaymentObj)
  : M (instance InvoiceRow * PaymentObj) :=
  match invoice_obj self with
  | Some i => ret (i, self)
  | None =>
      i <- Invoice.get (invoice (pay_fields self)) ;;
      ret (i, with_invoice i self)
  end.

(** [Model.save]: an update of the row of the instance, or an insert under
    a key the database chooses; [created_at] is [auto_now_add], set when the
    row is inserted. *)
Definition super_save (env : Env) (self : PaymentObj) : M PaymentObj :=
  let r := pay_fields self in
  db <- get_db ;;
  match pay_pk self with
  | Some k =>
      put_db (with_payments (<[k := r]> (payments db)) db) ;;;
      ret self
  | None =>
      let k := fresh (dom (payments db)) in
      let r := set_created_at (now env) r in
      put_db (with_payments (<[k := r]> (payments db)) db) ;;;
      ret {| pay_pk := Some k; pay_fields := r;
             invoice_obj := invoice_obj self |}
  end.

Definition save (env : Env) (self : PaymentObj) : M PaymentObj :=
  old_status <-
    match pay_pk self with
    | None => ret None
    | Some k =>
        db <- get_db ;;
        match payments db !! k with
        | Some old_payment => ret (Some (payment_status old_payment))
        | None => raise DoesNotExist
        end
    end ;;
  self <- super_save env self ;;
  if decide (payment_status (pay_fields self) = confirmed
             /\ old_status <> Some confirmed) then
    held <- the_invoice self ;;
    let '(inv, self) := held in
    let current_paid := amount_paid (fields inv) in
    let payment_amount := amount (pay_fields self) in
    let inv := Instance (pk inv)
                 (Invoice.set_amount_paid (current_paid + payment_amount)%Q
                    (fields inv)) in
    inv <- Invoice.save env (uuid4 env 0%nat) inv ;;
    ret (with_invoice inv self)
  else ret self.

Definition confirm_payment (env : Env) (self : PaymentObj) : M PaymentObj :=
  if decide (payment_status (pay_fields self) <> confirmed) then
    save env
      (with_fields
         (set_confirmed_at (Some (now env))
            (set_status confirmed (pay_fields self))) self)
  else ret self.

Definition fail_payment (env : Env) (self : PaymentObj) : M PaymentObj :=
  if decide (payment_status (pay_fields self) <> failed) then
    save env (with_fields (set_status failed (pay_fields self)) self)
  else ret self.

(** [Payment.objects.create(invoice=inv, ...)]: the new instance holds
    [inv] itself. *)
Definition create (env : Env) (inv : instance InvoiceRow) (r : PaymentRow)
  : M PaymentObj :=
  save env {| pay_pk := None; pay_fields := r; invoice_obj := Some inv |}.

(** An instance fetched from its row: the related invoice is not read yet. *)
Definition fetched (k : Z) (r : PaymentRow) : PaymentObj :=
  {| pay_pk := Some k; pay_fields := r; invoice_obj := None |}.

End Payment.

(** ** The ownership chain and the request *)

Definition lease_landlord (db : DB) (l : Z) : option Z :=
  lr ← leases db !! l;
  u ← units db !! lease_unit lr;
  p ← properties db !! unit_property u;
  Some (prop_landlord p).

Definition invoice_landlord (db : DB) (i : Z) : option Z :=
  r ← invoices db !! i; lease_landlord db (lease r).

Definition payment_landlord (db : DB) (p : Z) : option Z :=
  r ← payments db !! p; invoice_landlord db (invoice r).

(** What [TenantMiddleware] and the login mixin leave on the request:
    [landlord] is [request.landlord], [None] unless the user is a landlord
    outside the staff.  (A request the middleware answers itself, for an
    expired subscription, does not reach a view.) *)
Record Request := {
  is_authenticated : bool;
  is_landlord : bool;
  landlord : option Z
}.

(** The lookup [lease__unit__unit_property__landlord=request.landlord]. *)
Definition owned_by (req : Request) (owner : option Z) : Prop :=
  is_Some owner /\ owner = landlord req.

Global Instance owned_by_dec req owner : Decision (owned_by req owner).
Proof. unfold owned_by. apply _. Defined.

(** The answers of the views.  [AccessDenied] is the ['Access denied.']
    message with the redirect home, [NotFound] the 404 of
    [get_object_or_404], [ServerError] the 500 of an exception no handler
    caught. *)
Inductive response :=
| LoginRequired
| AccessDenied
| NotFound
| ServerError
| MissingFields
| InvalidAmount
| InvalidBillingMonth
| DuplicateInvoice
| PaidInvoiceLocked
| InvoiceHasPayments
| AlreadyConfirmed
| ConfirmedPaymentLocked
| InvoicePage (i : InvoiceRow)
| InvoiceCreated (k : Z)
| InvoiceUpdated
| InvoiceDeleted
| BatchGenerated (created_count skipped_count : nat)
| PaymentRecorded (k : Z) (recorded : Decimal) (warning : bool)
| PaymentConfirmed
| PaymentDeleted
| MpesaInitiated (k : Z)
| MpesaBadRequest
| MpesaError
| CallbackOK
| CallbackERROR
| ActionDone.

(** A view under [@transaction.atomic] whose exception reaches Django: the
    writes are undone and the answer is a 500. *)
Definition atomic_view (m : M response) : M response :=
  fun db => match m db with
            | (Return r, db') => (Return r, db')
            | (Raise _, _) => (Return ServerError, db)
            end.

(** [try: ... except Exception: return r] around a view body. *)
Definition except (r : response) (m : M response) : M response :=
  fun db => match m db with
            | (Return a, db') => (Return a, db')
            | (Raise _, db') => (Return r, db')
            end.

(** A posted decimal field: missing or empty, a text [Decimal] rejects (or
    reads as a NaN, whose comparison raises), or a number. *)
Inductive posted_decimal := Blank | NotANumber | Number (d : Decimal).

Definition is_blank (d : posted_decimal) : bool :=
  match d with
  | Blank => true
  | _ => false
  end.

(** ** Text and JSON values *)

Fixpoint remove_char (c : ascii) (s : string) : string :=
  match s with
  | EmptyString => EmptyString
  | String a r => if Ascii.eqb a c then remove_char c r
                  else String a (remove_char c r)
  end.

(** [s[-n:]]. *)
Definition last_chars (n : nat) (s : string) : string :=
  String.substring (String.length s - n) n s.

Definition lower_char (c : ascii) : ascii :=
  let n := nat_of_ascii c in
  if (65 <=? n)%nat && (n <=? 90)%nat then ascii_of_nat (n + 32) else c.

Fixpoint lower (s : string) : string :=
  match s with
  | EmptyString => EmptyString
  | String a r => String (lower_char a) (lower r)
  end.

Fixpoint contains (needle hay : string) : bool :=
  String.prefix needle hay ||
  match hay with
  | EmptyString => false
  | String _ r => contains needle r
  end.

(** The lookup [__icontains]. *)
Definition icontains (needle hay : string) : bool :=
  contains (lower needle) (lower hay).

(** The values of a parsed callback body: [null], an integer, a text. *)
Inductive json := JNull | JInt (z : Z) | JStr (s : string).

Global Instance json_eq_dec : EqDecision json.
Proof. solve_decision. Defined.

Definition truthy (v : json) : bool :=
  match v with
  | JNull => false
  | JInt z => negb (z =? 0)
  | JStr s => negb (String.eqb s "")
  end.

Definition str (v : json) : string :=
  match v with
  | JNull => "None"
  | JInt z => NilZero.string_of_int (Z.to_int z)
  | JStr s => s
  end.

(** What a character column takes from an assigned value: [None] for
    Python's [None], which a [NOT NULL] column refuses. *)
Definition char_value (v : json) : option string :=
  match v with
  | JNull => None
  | _ => Some (str v)
  end.

(** ** [invoicing/views.py] *)

(** [Invoice.objects.create(...)].  [due] is the posted due date read as
    ['%Y-%m-%d'], [None] when the field is missing or is not such a date:
    [save] then raises before it writes. *)
Definition Invoice_create (env : Env) (unique_id : string) (lease_id : Z)
    (month : date) (due : option date) (rent water garbage other : Decimal)
  : M (instance InvoiceRow) :=
  match due with
  | None => raise ValueError
  | Some d =>
      Invoice.save env unique_id
        (Instance None
           {| lease := lease_id; invoice_number := ""; billing_month := month;
              due_date := d; rent_amount := rent; water_amount := water;
              garbage_amount := garbage; other_charges := other;
              total_amount := 0; amount_paid := 0; status := pending |})
  end.

(** [Invoice.objects.filter(lease=..., billing_month=...).exists()]. *)
Definition invoice_exists (db : DB) (lease_id : Z) (month : date) : Prop :=
  map_Exists (fun _ r => lease r = lease_id /\ billing_month r = month)
    (invoices db).

Global Instance invoice_exists_dec db l m : Decision (invoice_exists db l m).
Proof. unfold invoice_exists. apply _. Defined.

(** The posted fields of the invoice form.  A date is given as read by
    [strptime], [None] when that raises; an amount as read by
    [Decimal(str(...))], [None] when that raises. *)
Record InvoiceForm := {
  f_lease : Z;
  f_billing_month : option date;
  f_due_date : option date;
  f_rent_amount : option Decimal;
  f_water_amount : option Decimal;
  f_garbage_amount : option Decimal;
  f_other_charges : option Decimal
}.

Definition decimal_arg (d : option Decimal) : M Decimal :=
  match d with
  | Some d => ret d
  | None => raise ValueError
  end.

Module InvoiceDetailView.

Definition get (req : Request) (k : Z) : M response :=
  if negb (is_authenticated req) then ret LoginRequired
  else if negb (is_landlord req) then ret AccessDenied
  else
    db <- get_db ;;
    match invoices db !! k with
    | Some r =>
        if decide (owned_by req (lease_landlord db (lease r)))
        then ret (InvoicePage r)
        else ret NotFound
    | None => ret NotFound
    end.

End InvoiceDetailView.

Module InvoiceCreateView.

Definition post (env : Env) (req : Request) (form : InvoiceForm) : M response :=
  if negb (is_authenticated req) then ret LoginRequired
  else atomic_view (
    if negb (is_landlord req) then ret AccessDenied
    else
      db <- get_db ;;
      if decide (owned_by req (lease_landlord db (f_lease form))) then
        match f_billing_month form with
        | None => ret InvalidBillingMonth
        | Some billing_month_date =>
            if decide (invoice_exists db (f_lease form) billing_month_date)
            then ret DuplicateInvoice
            else
              rent <- decimal_arg (f_rent_amount form) ;;
              water <- decimal_arg (f_water_amount form) ;;
              garbage <- decimal_arg (f_garbage_amount form) ;;
              other <- decimal_arg (f_other_charges form) ;;
              inv <- Invoice_create env (uuid4 env 0%nat) (f_lease form)
                       billing_month_date (f_due_date form)
                       rent water garbage other ;;
              match pk inv with
              | Some k => ret (InvoiceCreated k)
              | None => raise DoesNotExist
              end
        end
      else ret NotFound).

End InvoiceCreateView.

Module InvoiceUpdateView.

Definition edited (month due : date) (rent water garbage other : Decimal)
    (r : InvoiceRow) : InvoiceRow :=
  {| lease := lease r; invoice_number := invoice_number r;
     billing_month := month; due_date := due;
     rent_amount := rent; water_amount := water;
     garbage_amount := garbage; other_charges := other;
     total_amount := total_amount r; amount_paid := amount_paid r;
     status := status r |}.

Definition post (env : Env) (req : Request) (k : Z) (form : InvoiceForm)
  : M response :=
  if negb (is_authenticated req) then ret LoginRequired
  else atomic_view (
    if negb (is_landlord req) then ret AccessDenied
    else
      db <- get_db ;;
      match invoices db !! k with
      | Some r =>
          if decide (owned_by req (lease_landlord db (lease r))) then
            if decide (status r = paid) then ret PaidInvoiceLocked
            else
              match f_billing_month form with
              | None => ret InvalidBillingMonth
              | Some month =>
                  rent <- decimal_arg (f_rent_amount form) ;;
                  water <- decimal_arg (f_water_amount form) ;;
                  garbage <- decimal_arg (f_garbage_amount form) ;;
                  other <- decimal_arg (f_other_charges form) ;;
                  match f_due_date form with
                  | None =>
                      (* [invoice.save()] raises on the due date *)
                      raise ValueError
                  | Some due =>
                      Invoice.save env (uuid4 env 0%nat)
                        (Instance (Some k)
                           (edited month due rent water garbage other r)) ;;;
                      ret InvoiceUpdated
                  end
              end
          else ret NotFound
      | None => ret NotFound
      end).

End InvoiceUpdateView.

Module InvoiceDeleteView.

(** [invoice.payments.exists()]. *)
Definition has_payments (db : DB) (k : Z) : Prop :=
  map_Exists (fun _ p => invoice p = k) (payments db).

Global Instance has_payments_dec db k : Decision (has_payments db k).
Proof. unfold has_payments. apply _. Defined.

Definition post (req : Request) (k : Z) : M response :=
  if negb (is_authenticated req) then ret LoginRequired
  else atomic_view (
    if negb (is_landlord req) then ret AccessDenied
    else
      db <- get_db ;;
      match invoices db !! k with
      | Some r =>
          if decide (owned_by req (lease_landlord db (lease r))) then
            if decide (status r = paid) then ret PaidInvoiceLocked
            else if decide (has_payments db k) then ret InvoiceHasPayments
            else
              put_db (with_invoices (delete k (invoices db)) db) ;;;
              ret InvoiceDeleted
          else ret NotFound
      | None => ret NotFound
      end).

End InvoiceDeleteView.

Module GenerateMonthlyInvoicesView.

(** The queryset of the landlord's active leases, in the order of
    [Lease.Meta.ordering], latest [start_date] first. *)
Definition later_start (a b : Z * LeaseRow) : Prop :=
  start_date (snd b) <= start_date (snd a).

Global Instance later_start_dec a b : Decision (later_start a b).
Proof. unfold later_start. apply _. Defined.

Definition is_active_lease_of (db : DB) (req : Request) (kl : Z * LeaseRow)
  : Prop :=
  owned_by req (lease_landlord db (fst kl)) /\ lease_status (snd kl) = active.

Global Instance is_active_lease_of_dec db req kl
  : Decision (is_active_lease_of db req kl).
Proof. unfold is_active_lease_of. apply _. Defined.

Definition active_leases (db : DB) (req : Request) : list (Z * LeaseRow) :=
  merge_sort later_start
    (filter (is_active_lease_of db req) (map_to_list (leases db))).

(** The body of the [for] loop, with the two counters. *)
Fixpoint loop (env : Env) (month : date) (due : option date)
    (ls : list (Z * LeaseRow)) (created_count skipped_count : nat)
  : M (nat * nat) :=
  match ls with
  | [] => ret (created_count, skipped_count)
  | (k, l) :: rest =>
      db <- get_db ;;
      if decide (invoice_exists db k month) then
        loop env month due rest created_count (S skipped_count)
      else
        match units db !! lease_unit l with
        | None => raise DoesNotExist
        | Some u =>
            Invoice_create env (uuid4 env created_count) k month due
              (lease_rent_amount l) (Unit.get_water_charge u None)
              (garbage_fee u) 0 ;;;
            loop env month due rest (S created_count) skipped_count
        end
  end.

Definition post (env : Env) (req : Request)
    (billing_month_posted due_posted : option date) : M response :=
  if negb (is_authenticated req) then ret LoginRequired
  else atomic_view (
    if negb (is_landlord req) then ret AccessDenied
    else
      match billing_month_posted with
      | None => ret InvalidBillingMonth
      | Some billing_month_date =>
          db <- get_db ;;
          counts <- loop env billing_month_date due_posted
                      (active_leases db req) 0%nat 0%nat ;;
          ret (BatchGenerated (fst counts) (snd counts))
      end).

End GenerateMonthlyInvoicesView.

(** ** [payments/views.py] *)

Record ManualPaymentForm := {
  mp_invoice : option Z;
  mp_amount : posted_decimal;
  mp_payment_method : string;
  mp_notes : string;
  mp_reference_number : string
}.

Module RecordManualPaymentView.

Definition new_payment (env : Env) (invoice_id : Z) (amount : Decimal)
    (form : ManualPaymentForm) : PaymentRow :=
  {| invoice := invoice_id; amount := amount;
     payment_method := mp_payment_method form;
     mpesa_receipt_number := "";
     phone_number := "";
     transaction_id :=
       (if decide (mp_reference_number form = ""%string)
        then ("MANUAL-" ++ stamp env)%string
        else mp_reference_number form);
     is_manual := true; notes := mp_notes form;
     payment_status := confirmed;
     confirmed_at := Some (now env); created_at := now env |}.

Definition post (env : Env) (req : Request) (form : ManualPaymentForm)
  : M response :=
  if negb (is_authenticated req) then ret LoginRequired
  else atomic_view (
    if negb (is_landlord req) then ret AccessDenied
    else
      match mp_invoice form with
      | None => ret MissingFields
      | Some invoice_id =>
          if is_blank (mp_amount form)
             || bool_decide (mp_payment_method form = ""%string)
          then ret MissingFields
          else
            db <- get_db ;;
            match invoices db !! invoice_id with
            | None => ret NotFound
            | Some r =>
                if decide (owned_by req (lease_landlord db (lease r))) then
                  let invoice := Instance (Some invoice_id) r in
                  match mp_amount form with
                  | Number amount =>
                      if Qle_bool amount 0 then ret InvalidAmount
                      else
                        let invoice_balance := Invoice.balance (fields invoice) in
                        let warning := Qlt_bool invoice_balance amount in
                        let amount :=
                          if warning then invoice_balance else amount in
                        payment <- Payment.create env invoice
                                     (new_payment env invoice_id amount form) ;;
                        (* [invoice] is the object the payment holds *)
                        held <- Payment.the_invoice payment ;;
                        let invoice := fst held in
                        let current_paid := amount_paid (fields invoice) in
                        Invoice.save env (uuid4 env 0%nat)
                          (Instance (pk invoice)
                             (Invoice.set_amount_paid
                                (current_paid + amount)%Q (fields invoice))) ;;;
                        match pay_pk payment with
                        | Some k => ret (PaymentRecorded k amount warning)
                        | None => raise DoesNotExist
                        end
                  | _ => ret InvalidAmount
                  end
                else ret NotFound
            end
      end).

End RecordManualPaymentView.

Record MpesaForm := {
  ms_invoice_id : option Z;
  ms_phone_number : string;
  ms_amount : posted_decimal
}.

Module InitiateMpesaPaymentView.

Definition sanitize (phone_number : string) : string :=
  let phone_number := remove_char "+" (remove_char " " phone_number) in
  if String.prefix "0" phone_number then
    ("254" ++ match phone_number with
              | String _ rest => rest
              | EmptyString => EmptyString
              end)%string
  else if negb (String.prefix "254" phone_number) then
    ("254" ++ phone_number)%string
  else phone_number.

Definition new_payment (env : Env) (invoice_id : Z) (amount : Decimal)
    (phone : string) : PaymentRow :=
  {| invoice := invoice_id; amount := amount; payment_method := "mpesa";
     mpesa_receipt_number := ""; phone_number := phone;
     transaction_id := ("PENDING-" ++ stamp env)%string;
     is_manual := false; notes := ""; payment_status := awaiting;
     confirmed_at := None; created_at := now env |}.

(** The view is a plain [View]: no login mixin, no landlord on the lookup
    of the invoice.  The 404 of [get_object_or_404] is raised inside the
    [try] and answered by its handler. *)
Definition post (env : Env) (req : Request) (form : MpesaForm) : M response :=
  atomic_view (except MpesaError (
    match ms_invoice_id form with
    | None => ret MpesaBadRequest
    | Some invoice_id =>
        if bool_decide (ms_phone_number form = ""%string)
           || is_blank (ms_amount form)
        then ret MpesaBadRequest
        else
          invoice <- Invoice.get invoice_id ;;
          match ms_amount form with
          | Number amount =>
              if Qle_bool amount 0 then ret MpesaBadRequest
              else
                payment <- Payment.create env invoice
                             (new_payment env invoice_id amount
                                (sanitize (ms_phone_number form))) ;;
                match pay_pk payment with
                | Some k => ret (MpesaInitiated k)
                | None => raise DoesNotExist
                end
          | _ => ret MpesaBadRequest
          end
    end)).

End InitiateMpesaPaymentView.

(** The callback body after [json.loads] and the chain of [.get]: the result
    code and description, and the [(Name, Value)] pairs of the metadata. *)
Record Callback := {
  ResultCode : json;
  ResultDesc : json;
  Item : list (json * json)
}.

Module MpesaCallbackView.

Section Post.

(** Whether [Decimal] reads a text as a number (it raises otherwise). *)
Variable Decimal_accepts : string -> bool.

(** The [for item in callback_metadata] loop: the last receipt and phone
    number seen; the amount is converted and not used again. *)
Fixpoint metadata (items : list (json * json)) (mpesa_receipt phone : json)
  : outcome (json * json) :=
  match items with
  | [] => Return (mpesa_receipt, phone)
  | (name, value) :: rest =>
      if decide (name = JStr "MpesaReceiptNumber") then
        metadata rest value phone
      else if decide (name = JStr "PhoneNumber") then
        metadata rest mpesa_receipt value
      else if decide (name = JStr "TransactionDate") then
        metadata rest mpesa_receipt phone
      else if decide (name = JStr "Amount") then
        match value with
        | JStr s =>
            if truthy value && negb (Decimal_accepts s)
            then Raise ValueError
            else metadata rest mpesa_receipt phone
        | _ => metadata rest mpesa_receipt phone
        end
      else metadata rest mpesa_receipt phone
  end.

Definition phone_suffix (phone : json) : string :=
  if truthy phone then last_chars 9 (str phone) else "".

Definition matches (suffix : string) (kp : Z * PaymentRow) : Prop :=
  icontains suffix (phone_number (snd kp)) = true
  /\ payment_status (snd kp) = awaiting.

Global Instance matches_dec suffix kp : Decision (matches suffix kp).
Proof. unfold matches. apply _. Defined.

(** [.order_by('-created_at').first()] over a list of rows. *)
Fixpoint most_recent (l : list (Z * PaymentRow)) : option (Z * PaymentRow) :=
  match l with
  | [] => None
  | x :: rest =>
      match most_recent rest with
      | Some y => if created_at (snd x) <? created_at (snd y)
                  then Some y else Some x
      | None => Some x
      end
  end.

Definition find_payment (db : DB) (suffix : string)
  : option (Z * PaymentRow) :=
  most_recent (filter (matches suffix) (map_to_list (payments db))).

Definition post (env : Env) (body : option Callback) : M response :=
  except CallbackERROR (
    match body with
    | None => raise ValueError
    | Some callback_data =>
        match metadata (Item callback_data) JNull JNull with
        | Raise e => raise e
        | Return (mpesa_receipt, phone_number) =>
            db <- get_db ;;
            match find_payment db (phone_suffix phone_number) with
            | None => ret CallbackOK
            | Some (k, r) =>
                let payment := Payment.fetched k r in
                if decide (ResultCode callback_data = JInt 0) then
                  match char_value mpesa_receipt with
                  | None =>
                      (* [payment.save()] is refused by the two columns
                         assigned [None]; nothing was written yet *)
                      raise IntegrityError
                  | Some receipt =>
                      payment <-
                        Payment.save env
                          (Payment.with_fields
                             (Payment.set_confirmed_at (Some (now env))
                                (Payment.set_receipt receipt receipt
                                   (Payment.set_status confirmed r)))
                             payment) ;;
                      held <- Payment.the_invoice payment ;;
                      let inv := fst held in
                      let current_paid := amount_paid (fields inv) in
                      let payment_amount := amount (pay_fields payment) in
                      Invoice.save env (uuid4 env 0%nat)
                        (Instance (pk inv)
                           (Invoice.set_amount_paid
                              (current_paid + payment_amount)%Q
                              (fields inv))) ;;;
                      ret CallbackOK
                  end
                else
                  Payment.save env
                    (Payment.with_fields
                       (Payment.set_notes
                          ("M-Pesa payment failed: " ++
                           str (ResultDesc callback_data))%string
                          (Payment.set_status failed r))
                       payment) ;;;
                  ret CallbackOK
            end
        end
    end).

End Post.

End MpesaCallbackView.

Module ConfirmPaymentView.

Definition post (env : Env) (req : Request) (k : Z) : M response :=
  if negb (is_authenticated req) then ret LoginRequired
  else atomic_view (
    if negb (is_landlord req) then ret AccessDenied
    else
      db <- get_db ;;
      match payments db !! k with
      | Some r =>
          if decide (owned_by req (invoice_landlord db (invoice r))) then
            if decide (payment_status r = confirmed) then ret AlreadyConfirmed
            else
              Payment.confirm_payment env (Payment.fetched k r) ;;;
              ret PaymentConfirmed
          else ret NotFound
      | None => ret NotFound
      end).

End ConfirmPaymentView.

Module DeletePaymentView.

Definition post (req : Request) (k : Z) : M response :=
  if negb (is_authenticated req) then ret LoginRequired
  else atomic_view (
    if negb (is_landlord req) then ret AccessDenied
    else
      db <- get_db ;;
      match payments db !! k with
      | Some r =>
          if decide (owned_by req (invoice_landlord db (invoice r))) then
            if decide (payment_status r = confirmed)
            then ret ConfirmedPaymentLocked
            else
              put_db (with_payments (delete k (payments db)) db) ;;;
              ret PaymentDeleted
          else ret NotFound
      | None => ret NotFound
      end).

End DeletePaymentView.

(** ** [invoicing/admin.py] and [payments/admin.py]: the bulk actions, run
    over the selected rows *)

Module InvoiceAdmin.

Fixpoint mark_as_paid_loop (env : Env) (queryset : list Z) : M unit :=
  match queryset with
  | [] => ret tt
  | k :: rest =>
      db <- get_db ;;
      match invoices db !! k with
      | Some r =>
          Invoice.save env (uuid4 env 0%nat)
            (Instance (Some k) (Invoice.set_amount_paid (total_amount r) r)) ;;;
          mark_as_paid_loop env rest
      | None => mark_as_paid_loop env rest
      end
  end.

Definition mark_as_paid (env : Env) (queryset : list Z) : M response :=
  except ServerError (mark_as_paid_loop env queryset ;;; ret ActionDone).

(** [queryset.update(status='overdue')]: the column is written on the
    selected rows, [save] is not called. *)
Definition mark_as_overdue (queryset : list Z) : M response :=
  db <- get_db ;;
  put_db (with_invoices
            (foldr (fun k t => alter (Invoice.set_status overdue) k t)
               (invoices db) queryset) db) ;;;
  ret ActionDone.

End InvoiceAdmin.

Module PaymentAdmin.

Fixpoint confirm_payments_loop (env : Env) (queryset : list Z) : M unit :=
  match queryset with
  | [] => ret tt
  | k :: rest =>
      db <- get_db ;;
      match payments db !! k with
      | Some r =>
          (if decide (payment_status r <> confirmed)
           then Payment.confirm_payment env (Payment.fetched k r) ;;; ret tt
           else ret tt) ;;;
          confirm_payments_loop env rest
      | None => confirm_payments_loop env rest
      end
  end.

Definition confirm_payments (env : Env) (queryset : list Z) : M response :=
  except ServerError (confirm_payments_loop env queryset ;;; ret ActionDone).

Fixpoint fail_payments_loop (env : Env) (queryset : list Z) : M unit :=
  match queryset with
  | [] => ret tt
  | k :: rest =>
      db <- get_db ;;
      match payments db !! k with
      | Some r =>
          (if decide (payment_status r <> failed)
           then Payment.fail_payment env (Payment.fetched k r) ;;; ret tt
           else ret tt) ;;;
          fail_payments_loop env rest
      | None => fail_payments_loop env rest
      end
  end.

Definition fail_payments (env : Env) (queryset : list Z) : M response :=
  except ServerError (fail_payments_loop env queryset ;;; ret ActionDone).

End PaymentAdmin.

(** ** Requests

    The operations that write invoices or payments, and a history of them. *)

Inductive request :=
| CreateInvoice (req : Request) (form : InvoiceForm)
| UpdateInvoice (req : Request) (k : Z) (form : InvoiceForm)
| DeleteInvoice (req : Request) (k : Z)
| GenerateMonthly (req : Request) (month due : option date)
| RecordManualPayment (req : Request) (form : ManualPaymentForm)
| InitiateMpesa (req : Request) (form : MpesaForm)
| MpesaCallback (accepts : string -> bool) (body : option Callback)
| ConfirmPayment (req : Request) (k : Z)
| DeletePayment (req : Request) (k : Z)
| AdminMarkPaid (queryset : list Z)
| AdminMarkOverdue (queryset : list Z)
| AdminConfirmPayments (queryset : list Z)
| AdminFailPayments (queryset : list Z).

Definition handle (env : Env) (rq : request) : M response :=
  match rq with
  | CreateInvoice req form => InvoiceCreateView.post env req form
  | UpdateInvoice req k form => InvoiceUpdateView.post env req k form
  | DeleteInvoice req k => InvoiceDeleteView.post req k
  | GenerateMonthly req month due =>
      GenerateMonthlyInvoicesView.post env req month due
  | RecordManualPayment req form => RecordManualPaymentView.post env req form
  | InitiateMpesa req form => InitiateMpesaPaymentView.post env req form
  | MpesaCallback accepts body => MpesaCallbackView.post accepts env body
  | ConfirmPayment req k => ConfirmPaymentView.post env req k
  | DeletePayment req k => DeletePaymentView.post req k
  | AdminMarkPaid queryset => InvoiceAdmin.mark_as_paid env queryset
  | AdminMarkOverdue queryset => InvoiceAdmin.mark_as_overdue queryset
  | AdminConfirmPayments queryset => PaymentAdmin.confirm_payments env queryset
  | AdminFailPayments queryset => PaymentAdmin.fail_payments env queryset
  end.

(** The database after a history of requests, each with its own instant. *)
Fixpoint run (history : list (Env * request)) (db : DB) : DB :=
  match history with
  | [] => db
  | (env, rq) :: rest => run rest (snd (handle env rq db))
  end.

(** ** Predicates of the statements *)

(** The total of a row is the sum of its four components. *)
Definition total_is_sum (r : InvoiceRow) : Prop :=
  (total_amount r ==
   rent_amount r + water_amount r + garbage_amount r + other_charges r)%Q.


(** The number of invoices stored for a lease and a billing month. *)
Definition invoices_for (db : DB) (lease_id : Z) (month : date) : nat :=
  length (filter (fun kr : Z * InvoiceRow =>
                    lease (snd kr) = lease_id /\ billing_month (snd kr) = month)
            (map_to_list (invoices db))).

(** The amount paid stored for an invoice. *)
Definition paid_of (db : DB) (k : Z) : option Decimal :=
  amount_paid <$> invoices db !! k.

Definition status_of (db : DB) (k : Z) : option payment_state :=
  payment_status <$> payments db !! k.

(** The key under which [Invoice.save] writes an instance. *)
Definition saved_key (self : instance InvoiceRow) (db : DB) : Z :=
  match pk self with
  | Some k => k
  | None => fresh (dom (invoices db))
  end.

(** The answers by which a view turns a request away before it reads or
    writes the invoice or payment asked for. *)
Definition refusal (x : outcome response) : Prop :=
  x = Return LoginRequired \/ x = Return AccessDenied
  \/ x = Return NotFound \/ x = Return MissingFields.

(** Every payment refers to a stored invoice (the foreign key). *)
Definition payments_linked (db : DB) : Prop :=
  map_Forall (fun _ r => is_Some (invoices db !! invoice r)) (payments db).

Global Instance payments_linked_dec db : Decision (payments_linked db).
Proof. unfold payments_linked. apply _. Defined.

(** The monthly batch.  A lease lacks an invoice for the month; the numbers
    the batch gives to the invoices it creates, from the [c]-th draw on; those
    numbers are distinct and free in the table; the invoice created for a
    lease. *)
Definition lacking (month : date) (db : DB) (kl : Z * LeaseRow) : Prop :=
  ~ invoice_exists db (fst kl) month.

Definition invoiced (month : date) (db : DB) (kl : Z * LeaseRow) : Prop :=
  invoice_exists db (fst kl) month.

Definition draws (env : Env) (c n : nat) : list string :=
  (fun i => Invoice.generate_invoice_number env (uuid4 env i)) <$> seq c n.

Definition numbers_free (env : Env) (db : DB) (c n : nat) : Prop :=
  NoDup (draws env c n)
  /\ Forall (fun x => map_Forall (fun _ r => invoice_number r <> x)
                        (invoices db)) (draws env c n).

Global Instance numbers_free_dec env db c n : Decision (numbers_free env db c n).
Proof. unfold numbers_free. apply _. Defined.

Definition created_for (month due : date) (db db' : DB) (k : Z) (l : LeaseRow)
  : Prop :=
  exists j r u,
    units db !! lease_unit l = Some u
    /\ invoices db !! j = None /\ invoices db' !! j = Some r
    /\ lease r = k /\ billing_month r = month /\ due_date r = due
    /\ rent_amount r = lease_rent_amount l
    /\ water_amount r = Unit.get_water_charge u None
    /\ garbage_amount r = garbage_fee u
    /\ other_charges r = 0%Q /\ amount_paid r = 0%Q.

(** No two invoices share their lease and their billing month. *)
Definition unique_pairs (t : gmap Z InvoiceRow) : Prop :=
  forall k1 k2 r1 r2,
    t !! k1 = Some r1 -> t !! k2 = Some r2 ->
    lease r1 = lease r2 -> billing_month r1 = billing_month r2 -> k1 = k2.

(** The constraints of the invoice table hold of its rows, each of which has
    a number. *)
Definition invoice_table_ok (t : gmap Z InvoiceRow) : Prop :=
  map_Forall (fun k r => invoice_number r <> ""%string
                         /\ Invoice.unique_ok (Some k) r t) t.

Global Instance invoice_table_ok_dec t : Decision (invoice_table_ok t).
Proof. unfold invoice_table_ok. apply _. Defined.

(** ** Sample data of the examples *)

Definition metered_unit (last rate : Decimal) : UnitRow :=
  {| unit_property := 0; monthly_rent := 0; garbage_fee := 0;
     water_billing_type := metered; water_fixed_amount := 0;
     water_rate_per_unit := rate; last_water_reading := last |}.

Definition overdue_example (p : Decimal) : InvoiceRow :=
  {| lease := 1; invoice_number := "INV-202611-0A1B2C3D"; billing_month := 0;
     due_date := 19; rent_amount := 15000; water_amount := 2500;
     garbage_amount := 500; other_charges := 0; total_amount := 18000;
     amount_paid := p; status := pending |}.


Definition env_nov : Env :=
  {| now := 1000; today := 20; month_str := "202611";
     stamp := "20261103120000";
     uuid4 := fun n => match n with
                       | O => "0A1B2C3D"
                       | S O => "4E5F6A7B"
                       | _ => "8C9D0E1F"
                       end |}.

Definition unit_a : UnitRow :=
  {| unit_property := 10; monthly_rent := 15000; garbage_fee := 500;
     water_billing_type := fixed; water_fixed_amount := 2500;
     water_rate_per_unit := 0; last_water_reading := 0 |}.

Definition unit_b : UnitRow :=
  {| unit_property := 20; monthly_rent := 9000; garbage_fee := 300;
     water_billing_type := metered; water_fixed_amount := 0;
     water_rate_per_unit := 50; last_water_reading := 100 |}.

Definition lease_of (u : Z) (started : date) (rent : Decimal) : LeaseRow :=
  {| lease_unit := u; lease_tenant := u; start_date := started;
     lease_status := active; lease_rent_amount := rent |}.

Definition invoice_of (l : Z) (number : string) (month : date) (p : Decimal)
    (s : invoice_state) : InvoiceRow :=
  {| lease := l; invoice_number := number; billing_month := month;
     due_date := 19; rent_amount := 15000; water_amount := 2500;
     garbage_amount := 500; other_charges := 0; total_amount := 18000;
     amount_paid := p; status := s |}.

(** Two landlords, 1 and 2, each with a property, a unit and an active
    lease, and an unpaid invoice of 18000, due on day 19. *)
Definition sample_db : DB :=
  {| properties := <[10 := {| prop_landlord := 1 |}]>
                     (<[20 := {| prop_landlord := 2 |}]> ∅);
     units := <[100 := unit_a]> (<[200 := unit_b]> ∅);
     leases := <[1000 := lease_of 100 5 15000]>
                 (<[2000 := lease_of 200 7 9000]> ∅);
     invoices := <[1 := invoice_of 1000 "INV-202610-AAAA0001" 0 0 overdue]>
                   (<[2 := invoice_of 2000 "INV-202610-BBBB0002" 0 0 overdue]> ∅);
     payments := ∅ |}.

Definition landlord_a : Request :=
  {| is_authenticated := true; is_landlord := true; landlord := Some 1 |}.

Definition landlord_b : Request :=
  {| is_authenticated := true; is_landlord := true; landlord := Some 2 |}.

Definition november_form (l : Z) : InvoiceForm :=
  {| f_lease := l; f_billing_month := Some 30; f_due_date := Some 49;
     f_rent_amount := Some 15000%Q; f_water_amount := Some 2500%Q;
     f_garbage_amount := Some 500%Q; f_other_charges := Some 0%Q |}.

Definition cash_form (i : Z) (a : Decimal) : ManualPaymentForm :=
  {| mp_invoice := Some i; mp_amount := Number a; mp_payment_method := "cash";
     mp_notes := ""; mp_reference_number := "" |}.

Definition mpesa_form (i : Z) (phone : string) (a : Decimal) : MpesaForm :=
  {| ms_invoice_id := Some i; ms_phone_number := phone; ms_amount := Number a |}.

(** [sample_db] after a payment of 5000 by M-Pesa was initiated for invoice
    1: payment 0, pending. *)
Definition pending_db : DB :=
  run [(env_nov, InitiateMpesa landlord_a (mpesa_form 1 "0712345678" 5000))]
    sample_db.

(** [pending_db] after the landlord confirmed payment 0. *)
Definition confirmed_db : DB :=
  run [(env_nov, ConfirmPayment landlord_a 0)] pending_db.

(** A callback of the gateway for the phone of [pending_db]. *)
Definition callback_for (code : Z) (items : list (json * json)) : Callback :=
  {| ResultCode := JInt code; ResultDesc := JStr "The service request is processed.";
     Item := items |}.

Definition receipt_item : json * json :=
  (JStr "MpesaReceiptNumber", JStr "QBR7A1B2C3").

Definition phone_item : json * json :=
  (JStr "PhoneNumber", JInt 254712345678).

(** A recogniser of the texts [Decimal] reads, for the examples: digits
    with at most one point. *)
Fixpoint plain_digits (s : string) : bool :=
  match s with
  | EmptyString => true
  | String c r =>
      ((48 <=? nat_of_ascii c)%nat && (nat_of_ascii c <=? 57)%nat
       || Ascii.eqb c ".") && plain_digits r
  end.

Definition env_later : Env :=
  {| now := 2000; today := 20; month_str := "202611";
     stamp := "20261103121640"; uuid4 := uuid4 env_nov |}.

(** [pending_db] after a second payment was initiated, later, for invoice 2
    of the other landlord: payment 1, pending, of 700. *)
Definition two_pending_db : DB :=
  run [(env_later, InitiateMpesa landlord_b (mpesa_form 2 "0798765432" 700))]
    pending_db.

Definition unit_of_property (p : Z) : UnitRow :=
  {| unit_property := p; monthly_rent := 15000; garbage_fee := 500;
     water_billing_type := fixed; water_fixed_amount := 2500;
     water_rate_per_unit := 0; last_water_reading := 0 |}.

Definition november_invoice (l : Z) (number : string) : InvoiceRow :=
  {| lease := l; invoice_number := number; billing_month := 30;
     due_date := 49; rent_amount := 15000; water_amount := 2500;
     garbage_amount := 500; other_charges := 0; total_amount := 18000;
     amount_paid := 0; status := pending |}.

(** Landlord 1 with five units and five active leases, 1001 to 1005, of
    which 1001 and 1002 have their invoice for the month 30; landlord 2 with
    one active lease. *)
Definition batch_db : DB :=
  {| properties := <[10 := {| prop_landlord := 1 |}]>
                     (<[20 := {| prop_landlord := 2 |}]> ∅);
     units := <[101 := unit_of_property 10]>
                (<[102 := unit_of_property 10]>
                   (<[103 := unit_of_property 10]>
                      (<[104 := unit_of_property 10]>
                         (<[105 := unit_of_property 10]>
                            (<[200 := unit_b]> ∅)))));
     leases := <[1001 := lease_of 101 1 15000]>
                 (<[1002 := lease_of 102 2 15000]>
                    (<[1003 := lease_of 103 3 15500]>
                       (<[1004 := lease_of 104 4 16000]>
                          (<[1005 := lease_of 105 5 16500]>
                             (<[2000 := lease_of 200 7 9000]> ∅)))));
     invoices := <[1 := november_invoice 1001 "INV-202611-AAAA0001"]>
                   (<[2 := november_invoice 1002 "INV-202611-AAAA0002"]> ∅);
     payments := ∅ |}.

(** An instant at which [uuid4] draws the same eight characters twice. *)
Definition env_collide : Env :=
  {| now := 1000; today := 20; month_str := "202611";
     stamp := "20261103120000"; uuid4 := fun _ => "0A1B2C3D" |}.

(** * Properties *)

(** ** Comparisons of decimals *)

Lemma Qlt_bool_iff (a b : Decimal) : Qlt_bool a b = true <-> (a < b)%Q.
Proof.
  unfold Qlt_bool. rewrite negb_true_iff. split.
  - intros H. apply Qnot_le_lt. intros Hle.
    apply Qle_bool_iff in Hle. congruence.
  - intros H. destruct (Qle_bool b a) eqn:E; [|reflexivity].
    apply Qle_bool_iff in E. exfalso. apply (Qlt_not_le _ _ H E).
Qed.

Lemma Qlt_bool_false (a b : Decimal) : Qlt_bool a b = false <-> (b <= a)%Q.
Proof.
  unfold Qlt_bool. rewrite negb_false_iff. apply Qle_bool_iff.
Qed.

Lemma Qle_bool_false (a b : Decimal) : Qle_bool a b = false <-> (b < a)%Q.
Proof.
  split.
  - intros H. apply Qnot_le_lt. intros Hle.
    apply Qle_bool_iff in Hle. congruence.
  - intros H. destruct (Qle_bool a b) eqn:E; [|reflexivity].
    apply Qle_bool_iff in E. exfalso. apply (Qlt_not_le _ _ H E).
Qed.

(** ** The water charge of a unit *)

Lemma metered_charge (u : UnitRow) (reading : Decimal) :
  water_billing_type u = metered ->
  (Unit.get_water_charge u (Some reading) ==
   Qmax 0 (reading - last_water_reading u) * water_rate_per_unit u)%Q.
Proof.
  intros Hm. unfold Unit.get_water_charge. rewrite Hm.
  destruct (Qlt_bool (reading - last_water_reading u) 0) eqn:E.
  - apply Qlt_bool_iff in E. rewrite Q.max_l; [reflexivity | lra].
  - apply Qlt_bool_false in E. rewrite Q.max_r; [reflexivity | exact E].
Qed.

(** C8.  [get_water_charge] returns 0 for an included unit and the fixed
    amount for a fixed unit, whatever the reading; for a metered unit it
    returns 0 without a reading and, with one, the consumption (the reading
    minus the stored last reading, a negative difference counted as 0) times
    the rate, which is not negative for a rate that is not negative.  With a
    stored reading of 100, a rate of 50 and a new reading of 90 the charge
    is 0. *)
Theorem get_water_charge_by_mode (u : UnitRow) (reading : option Decimal) :
  match water_billing_type u with
  | included => Unit.get_water_charge u reading = 0%Q
  | fixed => Unit.get_water_charge u reading = water_fixed_amount u
  | metered =>
      match reading with
      | None => Unit.get_water_charge u reading = 0%Q
      | Some r =>
          (Unit.get_water_charge u reading ==
           Qmax 0 (r - last_water_reading u) * water_rate_per_unit u)%Q
          /\ (0 <= Qmax 0 (r - last_water_reading u))%Q
          /\ ((0 <= water_rate_per_unit u)%Q ->
              (0 <= Unit.get_water_charge u reading)%Q)
      end
  end
  /\ (Unit.get_water_charge (metered_unit 100 50) (Some 90%Q) == 0)%Q.
Proof.
  split.
  - destruct (water_billing_type u) eqn:Hm.
    + unfold Unit.get_water_charge. now rewrite Hm.
    + destruct reading as [r|].
      * pose proof (metered_charge u r Hm) as Hc.
        assert (Hmax : (0 <= Qmax 0 (r - last_water_reading u))%Q)
          by apply Q.le_max_l.
        split; [exact Hc|]. split; [exact Hmax|].
        intros Hrate. rewrite Hc. now apply Qmult_le_0_compat.
      * unfold Unit.get_water_charge. now rewrite Hm.
    + unfold Unit.get_water_charge. now rewrite Hm.
  - reflexivity.
Qed.

Lemma get_water_charge_by_mode_witness :
  (0 <= Unit.get_water_charge (metered_unit 100 50) (Some 130%Q))%Q.
Proof.
  pose proof (get_water_charge_by_mode (metered_unit 100 50) (Some 130%Q)) as H.
  simpl in H. destruct H as [[_ [_ H]] _]. apply H. discriminate.
Defined.

(** ** The status of an invoice *)

Lemma derive_status_cases (p total : Decimal) (due today : date) :
  ((total <= p)%Q -> Invoice.derive_status p total due today = paid)
  /\ ((p < total)%Q -> (0 < p)%Q ->
      Invoice.derive_status p total due today = partial)
  /\ ((p < total)%Q -> (p <= 0)%Q -> due < today ->
      Invoice.derive_status p total due today = overdue)
  /\ ((p < total)%Q -> (p <= 0)%Q -> today <= due ->
      Invoice.derive_status p total due today = pending).
Proof.
  unfold Invoice.derive_status. repeat split.
  - intros H. apply Qle_bool_iff in H. now rewrite H.
  - intros H1 H2. apply Qle_bool_false in H1. apply Qlt_bool_iff in H2.
    now rewrite H1, H2.
  - intros H1 H2 H3. apply Qle_bool_false in H1. apply Qlt_bool_false in H2.
    apply Z.ltb_lt in H3. now rewrite H1, H2, H3.
  - intros H1 H2 H3. apply Qle_bool_false in H1. apply Qlt_bool_false in H2.
    apply Z.ltb_ge in H3. now rewrite H1, H2, H3.
Qed.

(** What [Invoice.save] does on a database, in one equation. *)
Lemma invoice_save_eq (env : Env) (uid : string) (self : instance InvoiceRow)
    (db : DB) :
  Invoice.save env uid self db =
  if decide (Invoice.unique_ok (pk self)
               (Invoice.pre_save env uid (fields self)) (invoices db)) then
    (Return (Instance (Some (saved_key self db))
               (Invoice.pre_save env uid (fields self))),
     with_invoices
       (<[saved_key self db := Invoice.pre_save env uid (fields self)]>
          (invoices db)) db)
  else (Raise IntegrityError, db).
Proof.
  unfold Invoice.save, Invoice.super_save, bind, get_db, put_db, ret, raise.
  cbn [pk fields]. destruct (decide _); reflexivity.
Qed.


Lemma invoice_save_raises (env : Env) (uid : string)
    (self : instance InvoiceRow) (db db' : DB) (e : exn) :
  Invoice.save env uid self db = (Raise e, db') -> db' = db.
Proof.
  rewrite invoice_save_eq. destruct (decide _); [discriminate|].
  now intros [= _ <-].
Qed.

Lemma pre_save_status (env : Env) (uid : string) (r : InvoiceRow) :
  status (Invoice.pre_save env uid r) =
  Invoice.derive_status (amount_paid r)
    (rent_amount r + water_amount r + garbage_amount r + other_charges r)%Q
    (due_date r) (today env).
Proof.
  unfold Invoice.pre_save. destruct (decide _); reflexivity.
Qed.

Lemma pre_save_total (env : Env) (uid : string) (r : InvoiceRow) :
  total_amount (Invoice.pre_save env uid r) =
  (rent_amount r + water_amount r + garbage_amount r + other_charges r)%Q
  /\ rent_amount (Invoice.pre_save env uid r) = rent_amount r
  /\ water_amount (Invoice.pre_save env uid r) = water_amount r
  /\ garbage_amount (Invoice.pre_save env uid r) = garbage_amount r
  /\ other_charges (Invoice.pre_save env uid r) = other_charges r
  /\ amount_paid (Invoice.pre_save env uid r) = amount_paid r
  /\ due_date (Invoice.pre_save env uid r) = due_date r
  /\ lease (Invoice.pre_save env uid r) = lease r
  /\ billing_month (Invoice.pre_save env uid r) = billing_month r.
Proof.
  unfold Invoice.pre_save. destruct (decide _); repeat split.
Qed.



(** ** Invariants of the invoice table

    A property of the invoice table that survives the three ways the code
    writes it (a row written by [Invoice.save] under the uniqueness checks,
    a row deleted, a status overwritten by the bulk update) survives every
    request. *)

Section TableInvariant.

Variable P : gmap Z InvoiceRow -> Prop.

Hypothesis P_save :
  forall (t : gmap Z InvoiceRow) (key : option Z) (k : Z) (env : Env)
         (uid : string) (r : InvoiceRow),
    P t ->
    Invoice.unique_ok key (Invoice.pre_save env uid r) t ->
    key = Some k \/ (key = None /\ t !! k = None) ->
    P (<[k := Invoice.pre_save env uid r]> t).
Hypothesis P_delete :
  forall (t : gmap Z InvoiceRow) (k : Z), P t -> P (delete k t).
Hypothesis P_status :
  forall (t : gmap Z InvoiceRow) (k : Z) (s : invoice_state),
    P t -> P (alter (Invoice.set_status s) k t).

Definition preserves {A} (m : M A) : Prop :=
  forall db, P (invoices db) -> P (invoices (snd (m db))).

Lemma preserves_ret {A} (a : A) : preserves (ret a).
Proof. intros db H. exact H. Qed.

Lemma preserves_raise {A} (e : exn) : preserves (@raise A e).
Proof. intros db H. exact H. Qed.

Lemma preserves_bind {A B} (m : M A) (k : A -> M B) :
  preserves m -> (forall a, preserves (k a)) -> preserves (bind m k).
Proof.
  intros Hm Hk db H. unfold bind. specialize (Hm db H).
  destruct (m db) as [[a|e] db']; simpl in *; [now apply Hk | exact Hm].
Qed.

Lemma preserves_get_bind {B} (k : DB -> M B) :
  (forall d, P (invoices d) -> preserves (k d)) -> preserves (bind get_db k).
Proof. intros Hk db H. unfold bind, get_db. now apply Hk. Qed.

Lemma preserves_put (d : DB) : P (invoices d) -> preserves (put_db d).
Proof. intros Hd db _. exact Hd. Qed.

Lemma preserves_atomic_view (m : M response) :
  preserves m -> preserves (atomic_view m).
Proof.
  intros Hm db H. unfold atomic_view. specialize (Hm db H).
  destruct (m db) as [[a|e] db']; simpl in *; assumption.
Qed.

Lemma preserves_except (r : response) (m : M response) :
  preserves m -> preserves (except r m).
Proof.
  intros Hm db H. unfold except. specialize (Hm db H).
  destruct (m db) as [[a|e] db']; simpl in *; assumption.
Qed.

Lemma preserves_invoice_save (env : Env) (uid : string)
    (self : instance InvoiceRow) : preserves (Invoice.save env uid self).
Proof.
  intros db H. rewrite invoice_save_eq.
  destruct (decide _) as [Hu|]; [|exact H].
  cbn [snd invoices with_invoices]. apply (P_save _ (pk self)); auto.
  unfold saved_key. destruct (pk self) as [k|]; [now left|right].
  split; [reflexivity|]. apply not_elem_of_dom, is_fresh.
Qed.

Ltac preserve :=
  repeat match goal with
    | |- preserves (ret _) => apply preserves_ret
    | |- preserves (raise _) => apply preserves_raise
    | |- preserves (put_db (with_payments _ _)) => now apply preserves_put
    | |- preserves (Invoice.save _ _ _) => apply preserves_invoice_save
    | |- preserves (bind get_db _) => apply preserves_get_bind; intros ? ?
    | |- preserves (bind _ _) => apply preserves_bind; [|intros ?]
    | |- preserves (atomic_view _) => apply preserves_atomic_view
    | |- preserves (except _ _) => apply preserves_except
    | |- preserves (match ?x with _ => _ end) => destruct x
    end.

Lemma preserves_invoice_get (k : Z) : preserves (Invoice.get k).
Proof. unfold Invoice.get. preserve. Qed.

Lemma preserves_invoice_create env uid l month due rent water garbage other :
  preserves (Invoice_create env uid l month due rent water garbage other).
Proof. unfold Invoice_create. preserve. Qed.

Lemma preserves_the_invoice (self : PaymentObj) :
  preserves (Payment.the_invoice self).
Proof.
  unfold Payment.the_invoice. preserve. apply preserves_invoice_get.
Qed.

Lemma preserves_payment_super_save env self :
  preserves (Payment.super_save env self).
Proof. unfold Payment.super_save. preserve. Qed.

Lemma preserves_payment_save env self : preserves (Payment.save env self).
Proof.
  unfold Payment.save. preserve;
    auto using preserves_payment_super_save, preserves_the_invoice.
Qed.

Lemma preserves_confirm_payment env self :
  preserves (Payment.confirm_payment env self).
Proof.
  unfold Payment.confirm_payment. preserve. apply preserves_payment_save.
Qed.

Lemma preserves_fail_payment env self :
  preserves (Payment.fail_payment env self).
Proof.
  unfold Payment.fail_payment. preserve. apply preserves_payment_save.
Qed.

Lemma preserves_decimal_arg d : preserves (decimal_arg d).
Proof. unfold decimal_arg. preserve. Qed.

Lemma preserves_loop env month due ls created skipped :
  preserves (GenerateMonthlyInvoicesView.loop env month due ls created skipped).
Proof.
  revert created skipped.
  induction ls as [|[k l] rest IH]; intros created skipped;
    cbn [GenerateMonthlyInvoicesView.loop]; preserve;
    auto using preserves_invoice_create.
Qed.

Lemma preserves_mark_as_paid_loop env queryset :
  preserves (InvoiceAdmin.mark_as_paid_loop env queryset).
Proof.
  induction queryset as [|k rest IH];
    cbn [InvoiceAdmin.mark_as_paid_loop]; preserve; exact IH.
Qed.

Lemma preserves_confirm_payments_loop env queryset :
  preserves (PaymentAdmin.confirm_payments_loop env queryset).
Proof.
  induction queryset as [|k rest IH];
    cbn [PaymentAdmin.confirm_payments_loop]; preserve;
    auto using preserves_confirm_payment.
Qed.

Lemma preserves_fail_payments_loop env queryset :
  preserves (PaymentAdmin.fail_payments_loop env queryset).
Proof.
  induction queryset as [|k rest IH];
    cbn [PaymentAdmin.fail_payments_loop]; preserve;
    auto using preserves_fail_payment.
Qed.

Lemma preserves_mark_as_overdue queryset :
  preserves (InvoiceAdmin.mark_as_overdue queryset).
Proof.
  unfold InvoiceAdmin.mark_as_overdue. preserve.
  apply preserves_put. cbn [invoices with_invoices].
  induction queryset as [|k rest IH]; cbn [foldr]; auto.
Qed.

Lemma preserves_handle (env : Env) (rq : request) : preserves (handle env rq).
Proof.
  destruct rq; cbn [handle].
  - unfold InvoiceCreateView.post. preserve;
      auto using preserves_decimal_arg, preserves_invoice_create.
  - unfold InvoiceUpdateView.post. preserve;
      auto using preserves_decimal_arg.
  - unfold InvoiceDeleteView.post. preserve.
    apply preserves_put. cbn [invoices with_invoices]. auto.
  - unfold GenerateMonthlyInvoicesView.post. preserve.
    apply preserves_loop.
  - unfold RecordManualPaymentView.post. preserve;
      auto using preserves_the_invoice.
    unfold Payment.create. apply preserves_payment_save.
  - unfold InitiateMpesaPaymentView.post. preserve;
      auto using preserves_invoice_get.
    unfold Payment.create. apply preserves_payment_save.
  - unfold MpesaCallbackView.post. preserve;
      auto using preserves_the_invoice, preserves_payment_save.
  - unfold ConfirmPaymentView.post. preserve.
    apply preserves_confirm_payment.
  - unfold DeletePaymentView.post. preserve.
  - unfold InvoiceAdmin.mark_as_paid. preserve.
    apply preserves_mark_as_paid_loop.
  - apply preserves_mark_as_overdue.
  - unfold PaymentAdmin.confirm_payments. preserve.
    apply preserves_confirm_payments_loop.
  - unfold PaymentAdmin.fail_payments. preserve.
    apply preserves_fail_payments_loop.
Qed.

Lemma preserves_run (history : list (Env * request)) (db : DB) :
  P (invoices db) -> P (invoices (run history db)).
Proof.
  revert db. induction history as [|[env rq] rest IH]; intros db H.
  - exact H.
  - cbn [run]. apply IH. now apply preserves_handle.
Qed.

End TableInvariant.

(** ** The total of an invoice *)






(** ** One invoice per lease and month *)

Lemma unique_pairs_save (t : gmap Z InvoiceRow) (key : option Z) (k : Z)
    (env : Env) (uid : string) (r : InvoiceRow) :
  unique_pairs t ->
  Invoice.unique_ok key (Invoice.pre_save env uid r) t ->
  key = Some k \/ (key = None /\ t !! k = None) ->
  unique_pairs (<[k := Invoice.pre_save env uid r]> t).
Proof.
  intros Ht Hu Hk k1 k2 r1 r2 H1 H2 Hl Hm.
  assert (Hother : forall j rj, j <> k -> t !! j = Some rj ->
            ~ (lease rj = lease (Invoice.pre_save env uid r)
               /\ billing_month rj = billing_month (Invoice.pre_save env uid r))).
  { intros j rj Hj Hlook. destruct (Hu j rj Hlook) as [Hkey|[_ Hne]]; [|exact Hne].
    destruct Hk as [->|[-> _]]; congruence. }
  destruct (decide (k1 = k)) as [->|N1], (decide (k2 = k)) as [->|N2].
  - reflexivity.
  - rewrite lookup_insert_eq in H1. rewrite lookup_insert_ne in H2 by congruence.
    injection H1 as <-. exfalso. apply (Hother k2 r2 N2 H2). split; congruence.
  - rewrite lookup_insert_eq in H2. rewrite lookup_insert_ne in H1 by congruence.
    injection H2 as <-. exfalso. apply (Hother k1 r1 N1 H1). split; congruence.
  - rewrite lookup_insert_ne in H1 by congruence.
    rewrite lookup_insert_ne in H2 by congruence. eauto.
Qed.

Lemma unique_pairs_delete (t : gmap Z InvoiceRow) (k : Z) :
  unique_pairs t -> unique_pairs (delete k t).
Proof.
  intros Ht k1 k2 r1 r2 H1 H2. apply lookup_delete_Some in H1 as [_ H1].
  apply lookup_delete_Some in H2 as [_ H2]. eauto.
Qed.

Lemma unique_pairs_status (t : gmap Z InvoiceRow) (k : Z) (s : invoice_state) :
  unique_pairs t -> unique_pairs (alter (Invoice.set_status s) k t).
Proof.
  assert (Hsame : forall i r, alter (Invoice.set_status s) k t !! i = Some r ->
            exists r0, t !! i = Some r0 /\ lease r0 = lease r
                       /\ billing_month r0 = billing_month r).
  { intros i r Hi. destruct (decide (k = i)) as [->|Hne].
    - rewrite lookup_alter_eq in Hi.
      destruct (t !! i) as [r0|]; [|discriminate]. injection Hi as <-. eauto.
    - rewrite lookup_alter_ne in Hi by exact Hne. eauto. }
  intros Ht k1 k2 r1 r2 H1 H2 Hl Hm.
  apply Hsame in H1 as (a & Ha & La & Ma). apply Hsame in H2 as (b & Hb & Lb & Mb).
  apply (Ht k1 k2 a b); congruence.
Qed.

Lemma lease_landlord_with_invoices (db : DB) (t : gmap Z InvoiceRow) (l : Z) :
  lease_landlord (with_invoices t db) l = lease_landlord db l.
Proof. reflexivity. Qed.

(** The successful run of the creation view, read backwards. *)
Lemma create_view_created (env : Env) (req : Request) (form : InvoiceForm)
    (db db1 : DB) (k : Z) :
  InvoiceCreateView.post env req form db = (Return (InvoiceCreated k), db1) ->
  exists month r,
    is_authenticated req = true /\ is_landlord req = true
    /\ owned_by req (lease_landlord db (f_lease form))
    /\ f_billing_month form = Some month
    /\ ~ invoice_exists db (f_lease form) month
    /\ invoices db !! k = None
    /\ lease r = f_lease form /\ billing_month r = month
    /\ db1 = with_invoices (<[k := r]> (invoices db)) db.
Proof.
  unfold InvoiceCreateView.post.
  destruct (is_authenticated req); [|discriminate]. cbn [negb].
  unfold atomic_view. destruct (is_landlord req); [|discriminate]. cbn [negb].
  unfold bind at 1. unfold get_db at 1. cbn iota beta.
  destruct (decide (owned_by req _)) as [Hown|]; [|discriminate].
  destruct (f_billing_month form) as [month|] eqn:Hmonth; [|discriminate].
  destruct (decide (invoice_exists db _ _)) as [|Hnone]; [discriminate|].
  destruct (f_rent_amount form) as [rent|]; [|discriminate].
  destruct (f_water_amount form) as [water|]; [|discriminate].
  destruct (f_garbage_amount form) as [garbage|]; [|discriminate].
  destruct (f_other_charges form) as [other|]; [|discriminate].
  unfold decimal_arg, bind, ret. cbn iota beta.
  unfold Invoice_create. destruct (f_due_date form) as [due|]; [|discriminate].
  rewrite invoice_save_eq. destruct (decide _) as [Hu|]; [|discriminate].
  cbn [pk fields saved_key]. intros [= <- <-].
  eexists month, _. repeat (split; [first [reflexivity | assumption]|]).
  split; [apply not_elem_of_dom, is_fresh|].
  destruct (pre_save_total env (uuid4 env 0%nat)
    {| lease := f_lease form; invoice_number := ""; billing_month := month;
       due_date := due; rent_amount := rent; water_amount := water;
       garbage_amount := garbage; other_charges := other; total_amount := 0;
       amount_paid := 0; status := pending |})
    as (_ & _ & _ & _ & _ & _ & _ & Hl & Hm).
  split; [exact Hl|]. split; [exact Hm|]. reflexivity.
Qed.

Lemma filter_none {A} (Q : A -> Prop) `{forall x, Decision (Q x)} (l : list A) :
  (forall x, x ∈ l -> ~ Q x) -> filter Q l = [].
Proof.
  induction l as [|a l IH]; intros Hl; [reflexivity|].
  rewrite filter_cons_False by (apply Hl; left).
  apply IH. intros x Hx. apply Hl. now right.
Qed.

Lemma invoices_for_insert (db : DB) (k : Z) (r : InvoiceRow) :
  invoices db !! k = None ->
  ~ invoice_exists db (lease r) (billing_month r) ->
  invoices_for (with_invoices (<[k := r]> (invoices db)) db)
    (lease r) (billing_month r) = 1%nat.
Proof.
  intros Hfresh Hnone. unfold invoices_for. cbn [invoices with_invoices].
  rewrite (map_to_list_insert _ _ _ Hfresh).
  rewrite filter_cons_True by (split; reflexivity). cbn [length]. f_equal.
  rewrite filter_none; [reflexivity|].
  intros [j rj] Hin [Hl Hm]. apply Hnone.
  apply map_Exists_lookup. exists j, rj.
  split; [now apply elem_of_map_to_list | split; assumption].
Qed.

(** C6.  After the creation view has created the invoice of a lease and a
    billing month, a second creation for the same lease and month answers
    [DuplicateInvoice] and leaves the database as it was: the invoice
    created first is still stored, and it is the one invoice stored for that
    lease and month.  Besides, a database where no two invoices share their
    lease and month stays so through every history of requests. *)
Theorem duplicate_invoice_rejected (env env' : Env) (req : Request)
    (form form' : InvoiceForm) (db db1 : DB) (k : Z) (month : date)
    (history : list (Env * request)) :
  InvoiceCreateView.post env req form db = (Return (InvoiceCreated k), db1) ->
  f_billing_month form = Some month ->
  f_lease form' = f_lease form ->
  f_billing_month form' = Some month ->
  InvoiceCreateView.post env' req form' db1 = (Return DuplicateInvoice, db1)
  /\ invoices_for db1 (f_lease form) month = 1%nat
  /\ (exists r, invoices db1 !! k = Some r
                /\ lease r = f_lease form /\ billing_month r = month)
  /\ (unique_pairs (invoices db) ->
      unique_pairs (invoices (run history db))).
Proof.
  intros Hfirst Hmonth Hlease' Hmonth'.
  apply create_view_created in Hfirst
    as (m & r & Hauth & Hland & Hown & Hm & Hnone & Hfresh & Hl & Hb & ->).
  assert (m = month) as -> by congruence.
  split; [|split; [|split]].
  - unfold InvoiceCreateView.post. rewrite Hauth. cbn [negb].
    unfold atomic_view. rewrite Hland. cbn [negb].
    unfold bind at 1. unfold get_db at 1. cbn iota beta.
    rewrite Hlease', lease_landlord_with_invoices.
    destruct (decide (owned_by req _)) as [_|N]; [|contradiction].
    rewrite Hmonth'.
    destruct (decide (invoice_exists _ _ _)) as [_|N]; [reflexivity|].
    exfalso. apply N. apply (map_Exists_lookup_2 _ _ k r).
    + cbn [invoices with_invoices]. apply lookup_insert_eq.
    + split; assumption.
  - rewrite <- Hl, <- Hb. apply invoices_for_insert; [exact Hfresh|].
    now rewrite Hl, Hb.
  - exists r. cbn [invoices with_invoices].
    split; [apply lookup_insert_eq | split; assumption].
  - apply (preserves_run unique_pairs).
    + apply unique_pairs_save.
    + apply unique_pairs_delete.
    + apply unique_pairs_status.
Qed.

Lemma duplicate_invoice_rejected_witness :
  InvoiceCreateView.post env_nov landlord_a (november_form 1000)
    (snd (InvoiceCreateView.post env_nov landlord_a (november_form 1000)
            sample_db))
  = (Return DuplicateInvoice,
     snd (InvoiceCreateView.post env_nov landlord_a (november_form 1000)
            sample_db)).
Proof.
  refine (proj1 (duplicate_invoice_rejected env_nov env_nov landlord_a
                   (november_form 1000) (november_form 1000) sample_db _ 3 30
                   [] _ _ _ _)).
  - vm_compute. reflexivity.
  - reflexivity.
  - reflexivity.
  - reflexivity.
Defined.

(** ** What [Payment.save] does *)

Lemma pre_save_number (env : Env) (uid : string) (r : InvoiceRow) :
  invoice_number r <> ""%string ->
  invoice_number (Invoice.pre_save env uid r) = invoice_number r.
Proof.
  intros Hn. unfold Invoice.pre_save.
  destruct (decide _) as [E|_]; [contradiction|reflexivity].
Qed.

Lemma unique_ok_same_keys (key : option Z) (r r' : InvoiceRow)
    (t : gmap Z InvoiceRow) :
  invoice_number r' = invoice_number r -> lease r' = lease r ->
  billing_month r' = billing_month r ->
  Invoice.unique_ok key r t -> Invoice.unique_ok key r' t.
Proof.
  intros Hn Hl Hm Hu k x Hk. rewrite Hn, Hl, Hm. exact (Hu k x Hk).
Qed.

Lemma repaid_row_unique (env : Env) (uid : string) (t : gmap Z InvoiceRow)
    (k : Z) (r : InvoiceRow) (p : Decimal) :
  invoice_table_ok t -> t !! k = Some r ->
  Invoice.unique_ok (Some k)
    (Invoice.pre_save env uid (Invoice.set_amount_paid p r)) t.
Proof.
  intros Ht Hk. destruct (Ht k r Hk) as [Hn Hu].
  destruct (pre_save_total env uid (Invoice.set_amount_paid p r))
    as (_ & _ & _ & _ & _ & _ & _ & Hl & Hm).
  apply (unique_ok_same_keys _ r); try assumption.
  now rewrite pre_save_number.
Qed.


Lemma payment_save_confirming (env : Env) (self : PaymentObj) (db : DB)
    (k : Z) (old : PaymentRow) (ir : InvoiceRow) :
  pay_pk self = Some k -> payments db !! k = Some old ->
  payment_status (pay_fields self) = confirmed ->
  payment_status old <> confirmed ->
  invoice_obj self = None ->
  invoices db !! invoice (pay_fields self) = Some ir ->
  Payment.save env self db =
  match Invoice.save env (uuid4 env 0%nat)
          (Instance (Some (invoice (pay_fields self)))
             (Invoice.set_amount_paid
                (amount_paid ir + amount (pay_fields self))%Q ir))
          (with_payments (<[k := pay_fields self]> (payments db)) db) with
  | (Return i, db2) => (Return (Payment.with_invoice i self), db2)
  | (Raise e, db2) => (Raise e, db2)
  end.
Proof.
  intros Hpk Hold Hc Ho Hobj Hinv.
  unfold Payment.save, Payment.super_save, Payment.the_invoice, Invoice.get,
    bind, get_db, put_db, ret.
  rewrite Hpk, Hold. cbn iota beta.
  destruct (decide _) as [_|N]; [|exfalso; apply N; split; congruence].
  rewrite Hobj. cbn [invoices with_payments]. rewrite Hinv. cbn iota beta.
  cbn [pk fields pay_fields Payment.with_invoice].
  destruct (Invoice.save _ _ _ _) as [[i|e] db2]; reflexivity.
Qed.

(** ** The states of a payment *)

Lemma the_invoice_db (self : PaymentObj) (db : DB) :
  snd (Payment.the_invoice self db) = db.
Proof.
  unfold Payment.the_invoice, Invoice.get, bind, get_db, ret, raise.
  destruct (invoice_obj self); [reflexivity|].
  destruct (invoices db !! _); reflexivity.
Qed.

Lemma invoice_save_payments (env : Env) (uid : string)
    (i : instance InvoiceRow) (db : DB) :
  payments (snd (Invoice.save env uid i db)) = payments db.
Proof. rewrite invoice_save_eq. destruct (decide _); reflexivity. Qed.

Lemma payment_save_payments (env : Env) (self : PaymentObj) (db : DB) (k : Z)
    (old : PaymentRow) :
  pay_pk self = Some k -> payments db !! k = Some old ->
  payments (snd (Payment.save env self db))
  = <[k := pay_fields self]> (payments db).
Proof.
  intros Hpk Hold.
  unfold Payment.save, Payment.super_save. unfold bind at 1 2.
  rewrite Hpk. unfold bind at 1. unfold get_db at 1. cbn iota beta.
  rewrite Hold. unfold ret at 1. cbn iota beta.
  unfold bind at 1 2. unfold get_db at 1. cbn iota beta.
  unfold put_db at 1. cbn iota beta. unfold ret at 1. cbn iota beta.
  set (db1 := with_payments _ db).
  destruct (decide _) as [_|_]; [|reflexivity].
  unfold bind at 1. pose proof (the_invoice_db self db1) as Hdb.
  destruct (Payment.the_invoice self db1) as [[[inv self']|e] db2];
    cbn [snd] in Hdb; subst db2; [|reflexivity].
  unfold bind.
  match goal with
  | |- context [Invoice.save ?e ?u ?i db1] =>
      pose proof (invoice_save_payments e u i db1) as Hp;
      destruct (Invoice.save e u i db1) as [[i'|e'] db3]
  end; unfold ret; cbn [snd fst] in *; rewrite Hp; reflexivity.
Qed.






(** ** Creating a payment *)

Lemma payment_create_unconfirmed (env : Env) (inv : instance InvoiceRow)
    (row : PaymentRow) (db : DB) :
  payment_status row <> confirmed ->
  Payment.create env inv row db =
  (Return {| pay_pk := Some (fresh (dom (payments db)));
             pay_fields := Payment.set_created_at (now env) row;
             invoice_obj := Some inv |},
   with_payments
     (<[fresh (dom (payments db)) := Payment.set_created_at (now env) row]>
        (payments db)) db).
Proof.
  intros Hne.
  unfold Payment.create, Payment.save, Payment.super_save, bind, get_db,
    put_db, ret.
  cbn [pay_pk pay_fields invoice_obj]. cbn iota beta.
  destruct (decide _) as [[Hc _]|_]; [|reflexivity].
  exfalso. apply Hne. exact Hc.
Qed.



(** ** Recording a manual payment *)



Lemma sample_db_table_ok : invoice_table_ok (invoices sample_db).
Proof. apply (bool_decide_unpack _). vm_compute. exact I. Qed.



(** ** The landlord on the lookups *)

Lemma invoice_landlord_row (db : DB) (k : Z) (r : InvoiceRow) :
  invoices db !! k = Some r ->
  invoice_landlord db k = lease_landlord db (lease r).
Proof. intros H. unfold invoice_landlord. now rewrite H. Qed.

Lemma payment_landlord_row (db : DB) (k : Z) (r : PaymentRow) :
  payments db !! k = Some r ->
  payment_landlord db k = invoice_landlord db (invoice r).
Proof. intros H. unfold payment_landlord. now rewrite H. Qed.

Ltac refuse :=
  unfold refusal;
  repeat match goal with
    | |- context [negb (?f ?req)] => destruct (f req); cbn [negb]
    end;
  unfold atomic_view, bind, get_db, ret; cbn [fst snd];
  auto.

(** The views of the landlord look the invoice up under
    [request.landlord]: asked for an invoice that is not the requester's,
    whatever its key, they turn the request away and write nothing. *)
Lemma invoice_views_scoped (env : Env) (req : Request) (k : Z)
    (form : InvoiceForm) (mform : ManualPaymentForm) (db : DB) :
  ~ owned_by req (invoice_landlord db k) ->
  mp_invoice mform = Some k ->
  (refusal (fst (InvoiceDetailView.get req k db))
   /\ snd (InvoiceDetailView.get req k db) = db)
  /\ (refusal (fst (InvoiceUpdateView.post env req k form db))
      /\ snd (InvoiceUpdateView.post env req k form db) = db)
  /\ (refusal (fst (InvoiceDeleteView.post req k db))
      /\ snd (InvoiceDeleteView.post req k db) = db)
  /\ (refusal (fst (RecordManualPaymentView.post env req mform db))
      /\ snd (RecordManualPaymentView.post env req mform db) = db).
Proof.
  intros Hforeign Hform.
  assert (Hrow : forall r, invoices db !! k = Some r ->
            ~ owned_by req (lease_landlord db (lease r))).
  { intros r Hr. now rewrite <- (invoice_landlord_row db k r Hr). }
  split; [|split; [|split]].
  - unfold InvoiceDetailView.get. refuse.
    destruct (invoices db !! k) as [r|] eqn:E; cbn [fst snd]; auto.
    destruct (decide _) as [Ho|_]; [destruct (Hrow r eq_refl Ho)|]; auto.
  - unfold InvoiceUpdateView.post. refuse.
    destruct (invoices db !! k) as [r|] eqn:E; cbn [fst snd]; auto.
    destruct (decide _) as [Ho|_]; [destruct (Hrow r eq_refl Ho)|]; auto.
  - unfold InvoiceDeleteView.post. refuse.
    destruct (invoices db !! k) as [r|] eqn:E; cbn [fst snd]; auto.
    destruct (decide _) as [Ho|_]; [destruct (Hrow r eq_refl Ho)|]; auto.
  - unfold RecordManualPaymentView.post. rewrite Hform. refuse.
    destruct (is_blank _ || _); cbn [fst snd]; auto.
    destruct (invoices db !! k) as [r|] eqn:E; cbn [fst snd]; auto.
    destruct (decide _) as [Ho|_]; [destruct (Hrow r eq_refl Ho)|]; auto.
Qed.

Lemma payment_views_scoped (env : Env) (req : Request) (k : Z) (db : DB) :
  ~ owned_by req (payment_landlord db k) ->
  (refusal (fst (ConfirmPaymentView.post env req k db))
   /\ snd (ConfirmPaymentView.post env req k db) = db)
  /\ (refusal (fst (DeletePaymentView.post req k db))
      /\ snd (DeletePaymentView.post req k db) = db).
Proof.
  intros Hforeign.
  assert (Hrow : forall r, payments db !! k = Some r ->
            ~ owned_by req (invoice_landlord db (invoice r))).
  { intros r Hr. now rewrite <- (payment_landlord_row db k r Hr). }
  split.
  - unfold ConfirmPaymentView.post. refuse.
    destruct (payments db !! k) as [r|] eqn:E; cbn [fst snd]; auto.
    destruct (decide _) as [Ho|_]; [destruct (Hrow r eq_refl Ho)|]; auto.
  - unfold DeletePaymentView.post. refuse.
    destruct (payments db !! k) as [r|] eqn:E; cbn [fst snd]; auto.
    destruct (decide _) as [Ho|_]; [destruct (Hrow r eq_refl Ho)|]; auto.
Qed.

(** C2 at the input where the code departs from it.  Invoice 1 of
    [sample_db] belongs to landlord 1.  Landlord 2 is turned away by the
    detail view, but the initiation of an M-Pesa payment, which looks the
    invoice up by its key alone, answers landlord 2 with a payment created
    for invoice 1; a callback then confirms that payment and raises the
    amount paid of invoice 1. *)
Theorem mpesa_initiation_not_scoped :
  invoice_landlord sample_db 1 = Some 1
  /\ landlord landlord_b = Some 2
  /\ InvoiceDetailView.get landlord_b 1 sample_db = (Return NotFound, sample_db)
  /\ fst (InitiateMpesaPaymentView.post env_nov landlord_b
            (mpesa_form 1 "0712345678" 5000) sample_db)
     = Return (MpesaInitiated 0)
  /\ payments sample_db !! 0 = None
  /\ (invoice <$>
      payments (snd (InitiateMpesaPaymentView.post env_nov landlord_b
                       (mpesa_form 1 "0712345678" 5000) sample_db)) !! 0)
     = Some 1
  /\ paid_of sample_db 1 = Some 0%Q
  /\ paid_of
       (run [(env_nov, InitiateMpesa landlord_b (mpesa_form 1 "0712345678" 5000));
             (env_nov, MpesaCallback plain_digits
                         (Some (callback_for 0 [receipt_item; phone_item])))]
          sample_db) 1
     = Some 10000%Q.
Proof. repeat split; vm_compute; reflexivity. Qed.

(** C1 at the inputs where the code departs from it.  On [sample_db],
    where nothing is paid on invoice 1:
    - recording a manual payment of 5000 stores a payment of 5000 and an
      amount paid of 10000: [Payment.save] adds the amount when the payment
      is created as confirmed, and the view adds it again on the same
      invoice object;
    - initiating a payment of 5000 leaves the amount paid at 0, and the
      callback that confirms it stores an amount paid of 10000, added once
      by [Payment.save] and once more by the view;
    - the confirmation by the landlord, and the bulk confirmation of the
      administration, store 5000, and repeating them changes nothing. *)
Theorem amount_applied_per_path :
  (amount <$>
   payments (run [(env_nov, RecordManualPayment landlord_a (cash_form 1 5000))]
               sample_db) !! 0) = Some 5000%Q
  /\ paid_of (run [(env_nov, RecordManualPayment landlord_a (cash_form 1 5000))]
                sample_db) 1 = Some 10000%Q
  /\ paid_of pending_db 1 = Some 0%Q
  /\ (amount <$> payments pending_db !! 0) = Some 5000%Q
  /\ paid_of
       (run [(env_nov, MpesaCallback plain_digits
                         (Some (callback_for 0 [receipt_item; phone_item])))]
          pending_db) 1 = Some 10000%Q
  /\ status_of
       (run [(env_nov, MpesaCallback plain_digits
                         (Some (callback_for 0 [receipt_item; phone_item])))]
          pending_db) 0 = Some confirmed
  /\ paid_of confirmed_db 1 = Some 5000%Q
  /\ paid_of (run [(env_nov, ConfirmPayment landlord_a 0)] confirmed_db) 1
     = Some 5000%Q
  /\ paid_of (run [(env_nov, AdminConfirmPayments [0])] pending_db) 1
     = Some 5000%Q
  /\ paid_of (run [(env_nov, AdminConfirmPayments [0]);
                   (env_nov, AdminConfirmPayments [0])] pending_db) 1
     = Some 5000%Q.
Proof. repeat split; vm_compute; reflexivity. Qed.

(** ** The callback of the gateway *)



Lemma metadata_without_phone (accepts : string -> bool)
    (items : list (json * json)) (receipt0 phone0 receipt phone : json) :
  Forall (fun item => fst item <> JStr "PhoneNumber") items ->
  MpesaCallbackView.metadata accepts items receipt0 phone0
  = Return (receipt, phone) ->
  phone = phone0.
Proof.
  intros Hno. revert receipt0.
  induction Hno as [|[name value] rest Hname _ IH]; intros receipt0;
    cbn [MpesaCallbackView.metadata].
  - now intros [= _ <-].
  - cbn [fst] in Hname.
    destruct (decide (name = JStr "MpesaReceiptNumber")); [apply IH|].
    destruct (decide (name = JStr "PhoneNumber")); [contradiction|].
    destruct (decide (name = JStr "TransactionDate")); [apply IH|].
    destruct (decide (name = JStr "Amount")); [|apply IH].
    destruct value as [|z|s]; try apply IH.
    destruct (truthy (JStr s) && negb (accepts s)); [discriminate|apply IH].
Qed.

Lemma most_recent_spec (l : list (Z * PaymentRow)) :
  match MpesaCallbackView.most_recent l with
  | Some x => x ∈ l /\ forall y, y ∈ l -> created_at (snd y) <= created_at (snd x)
  | None => l = []
  end.
Proof.
  induction l as [|x rest IH]; cbn [MpesaCallbackView.most_recent]; [reflexivity|].
  destruct (MpesaCallbackView.most_recent rest) as [y|].
  - destruct IH as [Hy Hmax].
    destruct (created_at (snd x) <? created_at (snd y)) eqn:E.
    + apply Z.ltb_lt in E. split; [now right|].
      intros z Hz. apply elem_of_cons in Hz as [->|Hz]; [lia|now apply Hmax].
    + apply Z.ltb_ge in E. split; [now left|].
      intros z Hz. apply elem_of_cons in Hz as [->|Hz]; [lia|].
      specialize (Hmax z Hz). lia.
  - subst rest. split; [now left|].
    intros z Hz. apply elem_of_cons in Hz as [->|Hz]; [lia|].
    now apply elem_of_nil in Hz.
Qed.



Lemma pre_save_paid (env : Env) (uid : string) (r : InvoiceRow) :
  amount_paid (Invoice.pre_save env uid r) = amount_paid r.
Proof. now destruct (pre_save_total env uid r) as (_ & _ & _ & _ & _ & -> & _). Qed.




(** The same on [two_pending_db]: a callback without a phone number,
    whoever it was meant for, confirms payment 1, the one initiated last,
    and raises the amount paid of invoice 2 from 0 to 1400; with the result
    code 1 it stores payment 1 as failed. *)
Lemma callback_without_phone_example :
  status_of
    (run [(env_later, MpesaCallback plain_digits
                        (Some (callback_for 0 [receipt_item])))]
       two_pending_db) 1 = Some confirmed
  /\ status_of
       (run [(env_later, MpesaCallback plain_digits
                           (Some (callback_for 0 [receipt_item])))]
          two_pending_db) 0 = Some awaiting
  /\ paid_of
       (run [(env_later, MpesaCallback plain_digits
                           (Some (callback_for 0 [receipt_item])))]
          two_pending_db) 2 = Some 1400%Q
  /\ status_of
       (run [(env_later, MpesaCallback plain_digits
                           (Some (callback_for 1 [])))]
          two_pending_db) 1 = Some failed.
Proof. repeat split; vm_compute; reflexivity. Qed.

(** ** The monthly batch *)

Lemma filter_ext_in {A} (Q1 Q2 : A -> Prop) `{forall x, Decision (Q1 x)}
    `{forall x, Decision (Q2 x)} (l : list A) :
  (forall x, x ∈ l -> Q1 x <-> Q2 x) -> filter Q1 l = filter Q2 l.
Proof.
  induction l as [|a l IH]; intros Hl; [reflexivity|].
  assert (Ha : Q1 a <-> Q2 a) by (apply Hl; left).
  assert (Hrest : filter Q1 l = filter Q2 l)
    by (apply IH; intros x Hx; apply Hl; now right).
  destruct (decide (Q1 a)) as [H1|H1].
  - rewrite !filter_cons_True by tauto. now rewrite Hrest.
  - rewrite !filter_cons_False by tauto. exact Hrest.
Qed.

Lemma invoice_exists_insert_other (db : DB) (j : Z) (r : InvoiceRow)
    (k : Z) (month : date) :
  lease r <> k ->
  invoice_exists (with_invoices (<[j := r]> (invoices db)) db) k month
  -> invoice_exists db k month.
Proof.
  intros Hne Hex. apply map_Exists_lookup in Hex as (i & x & Hi & Hl & Hm).
  cbn [invoices with_invoices] in Hi.
  destruct (decide (i = j)) as [->|Hij].
  - rewrite lookup_insert_eq in Hi. injection Hi as <-. contradiction.
  - rewrite lookup_insert_ne in Hi by congruence.
    apply map_Exists_lookup. eauto.
Qed.

Lemma invoice_exists_insert_keep (db : DB) (j : Z) (r : InvoiceRow)
    (k : Z) (month : date) :
  invoices db !! j = None ->
  invoice_exists db k month ->
  invoice_exists (with_invoices (<[j := r]> (invoices db)) db) k month.
Proof.
  intros Hj Hex. apply map_Exists_lookup in Hex as (i & x & Hi & Hl & Hm).
  apply map_Exists_lookup. exists i, x. cbn [invoices with_invoices].
  split; [|auto]. rewrite lookup_insert_ne; [exact Hi|congruence].
Qed.

Lemma draws_cons (env : Env) (c n : nat) :
  draws env c (S n)
  = Invoice.generate_invoice_number env (uuid4 env c) :: draws env (S c) n.
Proof. reflexivity. Qed.

(** The row [Invoice.objects.create] writes. *)
Lemma invoice_create_eq (env : Env) (uid : string) (k : Z) (month due : date)
    (rent water garbage other : Decimal) (db : DB) :
  exists r,
    lease r = k /\ billing_month r = month /\ due_date r = due
    /\ rent_amount r = rent /\ water_amount r = water
    /\ garbage_amount r = garbage /\ other_charges r = other
    /\ amount_paid r = 0%Q
    /\ invoice_number r = Invoice.generate_invoice_number env uid
    /\ Invoice_create env uid k month (Some due) rent water garbage other db
       = if decide (Invoice.unique_ok None r (invoices db)) then
           (Return (Instance (Some (fresh (dom (invoices db)))) r),
            with_invoices (<[fresh (dom (invoices db)) := r]> (invoices db)) db)
         else (Raise IntegrityError, db).
Proof.
  eexists. unfold Invoice_create. rewrite invoice_save_eq.
  cbn [pk fields saved_key].
  repeat split; try reflexivity;
    match goal with
    | |- _ (Invoice.pre_save ?e ?u ?x) = _ =>
        try (now destruct (pre_save_total e u x)
               as (_ & ? & ? & ? & ? & ? & ? & ? & ?))
    end.
Qed.

Lemma lacking_after_insert (month : date) (db : DB) (j : Z) (r : InvoiceRow)
    (kl : Z * LeaseRow) :
  invoices db !! j = None -> lease r <> fst kl ->
  lacking month (with_invoices (<[j := r]> (invoices db)) db) kl
  <-> lacking month db kl.
Proof.
  intros Hj Hne. unfold lacking. split; intros Hl Hex; apply Hl.
  - now apply invoice_exists_insert_keep.
  - now apply invoice_exists_insert_other in Hex.
Qed.

(** The loop of the batch, when the due date is a date and the numbers it
    draws are free: it returns, having counted and created as follows. *)
Lemma loop_run (env : Env) (month due : date) (ls : list (Z * LeaseRow)) :
  forall (c s : nat) (db : DB),
    NoDup (ls.*1) ->
    (forall k l, (k, l) ∈ ls -> is_Some (units db !! lease_unit l)) ->
    numbers_free env db c (length (filter (lacking month db) ls)) ->
    exists db',
      GenerateMonthlyInvoicesView.loop env month (Some due) ls c s db
      = (Return ((c + length (filter (lacking month db) ls))%nat,
                 (s + length (filter (invoiced month db) ls))%nat), db')
      /\ properties db' = properties db /\ units db' = units db
      /\ leases db' = leases db /\ payments db' = payments db
      /\ (forall j r, invoices db !! j = Some r -> invoices db' !! j = Some r)
      /\ (forall k l, (k, l) ∈ ls -> lacking month db (k, l) ->
            created_for month due db db' k l).
Proof.
  induction ls as [|[k l] rest IH]; intros c s db Hnd Hunits Hfree.
  - exists db. cbn [GenerateMonthlyInvoicesView.loop]. rewrite !filter_nil.
    cbn [length]. rewrite !Nat.add_0_r. unfold ret.
    repeat (split; [reflexivity|]). split; [auto|].
    intros k l Hin. now apply elem_of_nil in Hin.
  - rewrite fmap_cons in Hnd. cbn [fst] in Hnd.
    apply NoDup_cons in Hnd as [Hk Hnd].
    assert (Hkrest : forall k' l', (k', l') ∈ rest -> k' <> k).
    { intros k' l' Hin ->. apply Hk. apply list_elem_of_fmap.
      exists (k, l'). split; [reflexivity|exact Hin]. }
    cbn [GenerateMonthlyInvoicesView.loop]. unfold bind at 1.
    unfold get_db at 1. cbn iota beta.
    destruct (decide (invoice_exists db k month)) as [Hex|Hno].
    + rewrite (filter_cons_False (lacking month db))
        by (unfold lacking; cbn [fst]; tauto).
      rewrite (filter_cons_True (invoiced month db)) by exact Hex.
      rewrite (filter_cons_False (lacking month db)) in Hfree
        by (unfold lacking; cbn [fst]; tauto).
      destruct (IH c (S s) db Hnd) as (db' & Heq & Hp & Hu & Hl & Hpay & Hkept & Hcr).
      * intros k' l' Hin. apply (Hunits k' l'). now right.
      * exact Hfree.
      * exists db'. rewrite Heq. cbn [length].
        split; [rewrite Nat.add_succ_r; reflexivity|].
        repeat (split; [assumption|]).
        intros k' l' Hin Hlack. apply elem_of_cons in Hin as [[= -> ->]|Hin].
        -- exfalso. apply Hlack. exact Hex.
        -- now apply Hcr.
    + rewrite (filter_cons_True (lacking month db)) by exact Hno.
      rewrite (filter_cons_False (invoiced month db))
        by (unfold invoiced; cbn [fst]; tauto).
      rewrite (filter_cons_True (lacking month db)) in Hfree by exact Hno.
      cbn [length] in Hfree |- *. destruct Hfree as [Hdistinct Hfreein].
      rewrite draws_cons in Hdistinct, Hfreein.
      rewrite Forall_forall in Hfreein.
      apply NoDup_cons in Hdistinct as [Hhead Htail].
      destruct (Hunits k l) as [u Hu]; [now left|]. rewrite Hu.
      unfold bind at 1.
      destruct (invoice_create_eq env (uuid4 env c) k month due
                  (lease_rent_amount l) (Unit.get_water_charge u None)
                  (garbage_fee u) 0 db)
        as (r & Rl & Rm & Rd & Rr & Rw & Rg & Ro & Rp & Rn & Hcreate).
      rewrite Hcreate. clear Hcreate.
      destruct (decide (Invoice.unique_ok None r (invoices db))) as [_|N].
      2: { exfalso. apply N. intros i x Hi. right. split.
           - rewrite Rn. apply (Hfreein _ (list_elem_of_here _ _) i x Hi).
           - intros [Hxl Hxm]. apply Hno. apply map_Exists_lookup.
             exists i, x. split; [exact Hi|]. split; congruence. }
      set (j0 := fresh (dom (invoices db))).
      assert (Hj0 : invoices db !! j0 = None)
        by (apply not_elem_of_dom, is_fresh).
      set (db1 := with_invoices (<[j0 := r]> (invoices db)) db).
      assert (Hsame : forall kl, kl ∈ rest ->
                lacking month db1 kl <-> lacking month db kl).
      { intros [k' l'] Hin. apply lacking_after_insert; [exact Hj0|].
        rewrite Rl. cbn [fst]. intros ->. now apply (Hkrest k' l'). }
      assert (Hfl : filter (lacking month db1) rest
                    = filter (lacking month db) rest)
        by (apply filter_ext_in; exact Hsame).
      assert (Hfi : filter (invoiced month db1) rest
                    = filter (invoiced month db) rest).
      { apply filter_ext_in. intros kl Hin. specialize (Hsame kl Hin).
        unfold lacking, invoiced in *.
        destruct (decide (invoice_exists db1 (fst kl) month));
          destruct (decide (invoice_exists db (fst kl) month)); tauto. }
      destruct (IH (S c) s db1 Hnd)
        as (db' & Heq & Hp & Hun & Hl & Hpay & Hkept & Hcr).
      * intros k' l' Hin. apply (Hunits k' l'). now right.
      * rewrite Hfl. split; [exact Htail|].
        apply Forall_forall. intros x Hx i y Hi.
        cbn [invoices with_invoices db1] in Hi.
        destruct (decide (i = j0)) as [->|Hij].
        -- rewrite lookup_insert_eq in Hi. injection Hi as <-.
           rewrite Rn. intros <-. contradiction.
        -- rewrite lookup_insert_ne in Hi by congruence.
           apply (Hfreein x (list_elem_of_further _ _ _ Hx) i y Hi).
      * exists db'. cbn iota beta. rewrite Heq, Hfl, Hfi.
        split; [rewrite Nat.add_succ_r; reflexivity|].
        repeat (split; [assumption|]).
        assert (Hkept1 : forall j y, invoices db !! j = Some y ->
                  invoices db1 !! j = Some y).
        { intros j y Hj. cbn [invoices with_invoices db1].
          rewrite lookup_insert_ne; [exact Hj|congruence]. }
        split; [intros j y Hj; apply Hkept, Hkept1, Hj|].
        intros k' l' Hin Hlack. apply elem_of_cons in Hin as [[= -> ->]|Hin].
        -- exists j0, r, u. split; [exact Hu|]. split; [exact Hj0|].
           split; [|repeat split; assumption].
           apply Hkept. cbn [invoices with_invoices db1].
           apply lookup_insert_eq.
        -- destruct (Hcr k' l' Hin) as (j & y & u' & Hu' & Hnone & Hsome & Hrest).
           { now apply (Hsame (k', l')). }
           exists j, y, u'. split; [exact Hu'|]. split; [|split; assumption].
           destruct (invoices db !! j) as [z|] eqn:E; [|reflexivity].
           rewrite (Hkept1 j z E) in Hnone. discriminate.
Qed.

Lemma active_leases_spec (db : DB) (req : Request) (k : Z) (l : LeaseRow) :
  (k, l) ∈ GenerateMonthlyInvoicesView.active_leases db req
  <-> leases db !! k = Some l
      /\ owned_by req (lease_landlord db k) /\ lease_status l = active.
Proof.
  unfold GenerateMonthlyInvoicesView.active_leases.
  rewrite merge_sort_Permutation, list_elem_of_filter, elem_of_map_to_list.
  unfold GenerateMonthlyInvoicesView.is_active_lease_of. cbn [fst snd]. tauto.
Qed.

Lemma active_leases_NoDup (db : DB) (req : Request) :
  NoDup ((GenerateMonthlyInvoicesView.active_leases db req).*1).
Proof.
  unfold GenerateMonthlyInvoicesView.active_leases.
  rewrite merge_sort_Permutation.
  apply (sublist_NoDup _ ((map_to_list (leases db)).*1));
    [apply NoDup_fst_map_to_list | apply fmap_sublist, sublist_filter].
Qed.

Lemma active_lease_unit (db : DB) (req : Request) (k : Z) (l : LeaseRow) :
  (k, l) ∈ GenerateMonthlyInvoicesView.active_leases db req ->
  is_Some (units db !! lease_unit l).
Proof.
  intros Hin. apply active_leases_spec in Hin as (Hl & [[o Ho] _] & _).
  unfold lease_landlord in Ho. rewrite Hl in Ho. cbn in Ho.
  destruct (units db !! lease_unit l) as [u|]; [eauto|discriminate].
Qed.

Lemma invoices_for_unique (db : DB) (k : Z) (month : date) (j : Z)
    (r : InvoiceRow) :
  unique_pairs (invoices db) -> invoices db !! j = Some r ->
  lease r = k -> billing_month r = month -> invoices_for db k month = 1%nat.
Proof.
  intros Hu Hj Hl Hm. unfold invoices_for.
  rewrite <- (map_to_list_delete _ _ _ Hj).
  rewrite filter_cons_True by (split; assumption). cbn [length]. f_equal.
  rewrite filter_none; [reflexivity|].
  intros [j' r'] Hin [Hl' Hm']. cbn [snd] in Hl', Hm'.
  apply elem_of_map_to_list, lookup_delete_Some in Hin as [Hne Hj'].
  apply Hne. apply (Hu j j' r r'); congruence.
Qed.

Lemma batch_error_rolls_back (env : Env) (req : Request)
    (month due : option date) (db : DB) :
  fst (GenerateMonthlyInvoicesView.post env req month due db)
  = Return ServerError ->
  snd (GenerateMonthlyInvoicesView.post env req month due db) = db.
Proof.
  unfold GenerateMonthlyInvoicesView.post.
  destruct (is_authenticated req); cbn [negb]; [|discriminate].
  unfold atomic_view. destruct (is_landlord req); cbn [negb]; [|discriminate].
  destruct month as [m|]; [|discriminate].
  unfold bind, get_db, ret.
  destruct (GenerateMonthlyInvoicesView.loop _ _ _ _ _ _ db) as [[[c s]|e] db'];
    [discriminate|reflexivity].
Qed.

(** C7, as the code has it.  On a table where no two invoices share their
    lease and month, for a due date that is a date and invoice numbers drawn
    free, the batch over the active leases of the requesting landlord
    answers with the number of those lacking an invoice for the
    month as created and the number of those having one as skipped; every
    invoice stored before is stored unchanged; for each lease lacking one an
    invoice is created with the rent of the lease, the water charge of its
    unit computed without a reading, the garbage fee of the unit and no
    other charge; and afterwards every active lease of the landlord has
    exactly one invoice for the month.  With five active leases of which two
    are invoiced the answer is 3 created, 2 skipped.  The batch is one
    transaction: when it answers with a server error, whatever the creation
    that failed, the database is as it was before the request. *)
Theorem monthly_batch_generation (env : Env) (req : Request) (month due : date)
    (db : DB) :
  is_authenticated req = true -> is_landlord req = true ->
  unique_pairs (invoices db) ->
  numbers_free env db 0
    (length (filter (lacking month db)
               (GenerateMonthlyInvoicesView.active_leases db req))) ->
  (exists db',
     GenerateMonthlyInvoicesView.post env req (Some month) (Some due) db
     = (Return
          (BatchGenerated
             (length (filter (lacking month db)
                        (GenerateMonthlyInvoicesView.active_leases db req)))
             (length (filter (invoiced month db)
                        (GenerateMonthlyInvoicesView.active_leases db req)))),
        db')
     /\ (forall j r, invoices db !! j = Some r -> invoices db' !! j = Some r)
     /\ (forall k l,
           leases db !! k = Some l -> owned_by req (lease_landlord db k) ->
           lease_status l = active ->
           (~ invoice_exists db k month -> created_for month due db db' k l)
           /\ invoices_for db' k month = 1%nat))
  /\ (forall due',
        fst (GenerateMonthlyInvoicesView.post env req (Some month) due' db)
        = Return ServerError ->
        snd (GenerateMonthlyInvoicesView.post env req (Some month) due' db) = db)
  /\ fst (GenerateMonthlyInvoicesView.post env_nov landlord_a (Some 30)
            (Some 49) batch_db) = Return (BatchGenerated 3 2)
  /\ map_Forall
       (fun j r =>
          invoices (snd (GenerateMonthlyInvoicesView.post env_nov landlord_a
                           (Some 30) (Some 49) batch_db)) !! j = Some r)
       (invoices batch_db).
Proof.
  intros Hauth Hland Huniq Hfree.
  split; [|split; [|split]].
  - destruct (loop_run env month due
                (GenerateMonthlyInvoicesView.active_leases db req) 0 0 db)
      as (db' & Heq & _ & _ & _ & _ & Hkept & Hcr).
    + apply active_leases_NoDup.
    + intros k l. apply active_lease_unit.
    + exact Hfree.
    + assert (Huniq' : unique_pairs (invoices db')).
      { pose proof (preserves_loop unique_pairs unique_pairs_save env month
                      (Some due)
                      (GenerateMonthlyInvoicesView.active_leases db req)
                      0%nat 0%nat db Huniq) as H.
        rewrite Heq in H. exact H. }
      exists db'. split; [|split; [exact Hkept|]].
      * unfold GenerateMonthlyInvoicesView.post. rewrite Hauth, Hland.
        cbn [negb]. unfold atomic_view, bind at 1. unfold get_db at 1.
        cbn iota beta. unfold bind. rewrite Heq. reflexivity.
      * intros k l Hl Hown Hact.
        assert (Hin : (k, l) ∈ GenerateMonthlyInvoicesView.active_leases db req)
          by (apply active_leases_spec; auto).
        split; [intros Hno; now apply Hcr|].
        destruct (decide (invoice_exists db k month)) as [Hex|Hno].
        -- apply map_Exists_lookup in Hex as (j & r & Hj & Hrl & Hrm).
           apply (invoices_for_unique db' k month j r); auto.
        -- destruct (Hcr k l Hin Hno)
             as (j & r & u & _ & _ & Hj & Hrl & Hrm & _).
           apply (invoices_for_unique db' k month j r); auto.
  - intros due'. apply batch_error_rolls_back.
  - vm_compute. reflexivity.
  - unfold batch_db at 2. cbn [invoices].
    repeat apply map_Forall_insert_2; try apply map_Forall_empty;
      vm_compute; reflexivity.
Qed.

Lemma table_ok_unique_pairs (t : gmap Z InvoiceRow) :
  invoice_table_ok t -> unique_pairs t.
Proof.
  intros Ht k1 k2 r1 r2 H1 H2 Hl Hm.
  destruct (Ht k2 r2 H2) as [_ Hu].
  destruct (Hu k1 r1 H1) as [[= ->]|[_ Hne]]; [reflexivity|].
  exfalso. apply Hne. split; assumption.
Qed.

Lemma batch_db_table_ok : invoice_table_ok (invoices batch_db).
Proof. apply (bool_decide_unpack _). vm_compute. exact I. Qed.

Lemma monthly_batch_generation_witness :
  exists db',
    GenerateMonthlyInvoicesView.post env_nov landlord_a (Some 30) (Some 49)
      batch_db
    = (Return
         (BatchGenerated
            (length (filter (lacking 30 batch_db)
                       (GenerateMonthlyInvoicesView.active_leases batch_db
                          landlord_a)))
            (length (filter (invoiced 30 batch_db)
                       (GenerateMonthlyInvoicesView.active_leases batch_db
                          landlord_a)))),
       db')
    /\ invoices_for db' 1005 30 = 1%nat.
Proof.
  destruct (monthly_batch_generation env_nov landlord_a 30 49 batch_db)
    as [(db' & Heq & _ & Hall) _].
  - reflexivity.
  - reflexivity.
  - apply table_ok_unique_pairs, batch_db_table_ok.
  - apply (bool_decide_unpack _). vm_compute. exact I.
  - exists db'. split; [exact Heq|].
    apply (Hall 1005 (lease_of 105 5 16500)).
    + vm_compute. reflexivity.
    + apply (bool_decide_unpack _). vm_compute. exact I.
    + reflexivity.
Defined.

(** C7 as stated fails: on [batch_db], when the second creation draws the
    number the first one drew, the loop has created the invoice of lease
    1005 and fails on lease 1004; the request answers with a server error
    and the database is [batch_db] again, without the invoice of lease
    1005. *)
Lemma batch_failure_rolls_back_all :
  fst (GenerateMonthlyInvoicesView.loop env_collide 30 (Some 49)
         (GenerateMonthlyInvoicesView.active_leases batch_db landlord_a)
         0 0 batch_db) = Raise IntegrityError
  /\ invoices_for
       (snd (GenerateMonthlyInvoicesView.loop env_collide 30 (Some 49)
               (GenerateMonthlyInvoicesView.active_leases batch_db landlord_a)
               0 0 batch_db)) 1005 30 = 1%nat
  /\ GenerateMonthlyInvoicesView.post env_collide landlord_a (Some 30)
       (Some 49) batch_db = (Return ServerError, batch_db)
  /\ invoices_for batch_db 1005 30 = 0%nat.
Proof. repeat split; vm_compute; reflexivity. Qed.

(** * Further properties of the views and models *)

(** The requester of a request answered by a view of the landlord; the
    initiation of an M-Pesa payment, the callback and the actions of the
    administration have none. *)
Definition requester (rq : request) : option Request :=
  match rq with
  | CreateInvoice req _ | UpdateInvoice req _ _ | DeleteInvoice req _
  | GenerateMonthly req _ _ | RecordManualPayment req _
  | ConfirmPayment req _ | DeletePayment req _ => Some req
  | _ => None
  end.


Definition tenant_user : Request :=
  {| is_authenticated := true; is_landlord := false; landlord := None |}.

(** ** Who may ask *)

(** X1.  Every view of the landlord sends a user who is not logged in to
    the login page, and answers ['Access denied.'] to a logged-in user who
    is not a landlord; in both cases nothing is written. *)
Theorem landlord_views_gated (env : Env) (rq : request) (req : Request)
    (db : DB) :
  requester rq = Some req ->
  (is_authenticated req = false ->
   handle env rq db = (Return LoginRequired, db))
  /\ (is_authenticated req = true -> is_landlord req = false ->
      handle env rq db = (Return AccessDenied, db)).
Proof.
  intros Hreq.
  destruct rq; cbn [requester] in Hreq; try discriminate;
    injection Hreq as ->; cbn [handle];
    (split; [intros Ha|intros Ha Hl]);
    unfold InvoiceCreateView.post, InvoiceUpdateView.post,
      InvoiceDeleteView.post, GenerateMonthlyInvoicesView.post,
      RecordManualPaymentView.post, ConfirmPaymentView.post,
      DeletePaymentView.post;
    rewrite Ha; cbn [negb]; try reflexivity;
    rewrite Hl; cbn [negb]; reflexivity.
Qed.

Lemma landlord_views_gated_witness :
  handle env_nov (DeleteInvoice tenant_user 1) sample_db
  = (Return AccessDenied, sample_db).
Proof.
  refine (proj2 (landlord_views_gated env_nov (DeleteInvoice tenant_user 1)
                   tenant_user sample_db _) _ _); reflexivity.
Defined.

(** X2.  A landlord who asks for an invoice that is not theirs (another
    landlord's, or none at all), whatever the key, gets a 404 from the
    detail, update and delete views and from the manual recording of a
    payment, and nothing is written. *)
Theorem foreign_invoice_not_found (env : Env) (req : Request) (k : Z)
    (form : InvoiceForm) (mform : ManualPaymentForm) (db : DB) :
  is_authenticated req = true -> is_landlord req = true ->
  ~ owned_by req (invoice_landlord db k) ->
  mp_invoice mform = Some k -> is_blank (mp_amount mform) = false ->
  mp_payment_method mform <> ""%string ->
  InvoiceDetailView.get req k db = (Return NotFound, db)
  /\ InvoiceUpdateView.post env req k form db = (Return NotFound, db)
  /\ InvoiceDeleteView.post req k db = (Return NotFound, db)
  /\ RecordManualPaymentView.post env req mform db = (Return NotFound, db).
Proof.
  intros Ha Hl Hforeign Hform Hamt Hmeth.
  assert (Hrow : forall r, invoices db !! k = Some r ->
            ~ owned_by req (lease_landlord db (lease r))).
  { intros r Hr. now rewrite <- (invoice_landlord_row db k r Hr). }
  repeat split.
  - unfold InvoiceDetailView.get. rewrite Ha, Hl. cbn [negb].
    unfold bind, get_db, ret. destruct (invoices db !! k) as [r|] eqn:E;
      [|reflexivity].
    destruct (decide _) as [Ho|_]; [destruct (Hrow r eq_refl Ho)|reflexivity].
  - unfold InvoiceUpdateView.post. rewrite Ha, Hl. cbn [negb].
    unfold atomic_view, bind, get_db, ret.
    destruct (invoices db !! k) as [r|] eqn:E; [|reflexivity].
    destruct (decide _) as [Ho|_]; [destruct (Hrow r eq_refl Ho)|reflexivity].
  - unfold InvoiceDeleteView.post. rewrite Ha, Hl. cbn [negb].
    unfold atomic_view, bind, get_db, ret.
    destruct (invoices db !! k) as [r|] eqn:E; [|reflexivity].
    destruct (decide _) as [Ho|_]; [destruct (Hrow r eq_refl Ho)|reflexivity].
  - unfold RecordManualPaymentView.post. rewrite Ha, Hl, Hform, Hamt.
    cbn [negb orb]. rewrite bool_decide_eq_false_2 by exact Hmeth.
    unfold atomic_view, bind, get_db, ret.
    destruct (invoices db !! k) as [r|] eqn:E; [|reflexivity].
    destruct (decide _) as [Ho|_]; [destruct (Hrow r eq_refl Ho)|reflexivity].
Qed.

Lemma foreign_invoice_not_found_witness :
  InvoiceDeleteView.post landlord_b 1 sample_db = (Return NotFound, sample_db).
Proof.
  refine (proj1 (proj2 (proj2 (foreign_invoice_not_found env_nov landlord_b 1
                                 (november_form 1000) (cash_form 1 5000)
                                 sample_db _ _ _ _ _ _)))).
  - reflexivity.
  - reflexivity.
  - vm_compute. intros [_ H]. discriminate.
  - reflexivity.
  - reflexivity.
  - discriminate.
Defined.

(** X3.  A landlord who asks to confirm or to delete a payment on an
    invoice that is not theirs, whatever the key, gets a 404 and nothing is
    written. *)
Theorem foreign_payment_not_found (env : Env) (req : Request) (k : Z)
    (db : DB) :
  is_authenticated req = true -> is_landlord req = true ->
  ~ owned_by req (payment_landlord db k) ->
  ConfirmPaymentView.post env req k db = (Return NotFound, db)
  /\ DeletePaymentView.post req k db = (Return NotFound, db).
Proof.
  intros Ha Hl Hforeign.
  assert (Hrow : forall r, payments db !! k = Some r ->
            ~ owned_by req (invoice_landlord db (invoice r))).
  { intros r Hr. now rewrite <- (payment_landlord_row db k r Hr). }
  split.
  - unfold ConfirmPaymentView.post. rewrite Ha, Hl. cbn [negb].
    unfold atomic_view, bind, get_db, ret.
    destruct (payments db !! k) as [r|] eqn:E; [|reflexivity].
    destruct (decide _) as [Ho|_]; [destruct (Hrow r eq_refl Ho)|reflexivity].
  - unfold DeletePaymentView.post. rewrite Ha, Hl. cbn [negb].
    unfold atomic_view, bind, get_db, ret.
    destruct (payments db !! k) as [r|] eqn:E; [|reflexivity].
    destruct (decide _) as [Ho|_]; [destruct (Hrow r eq_refl Ho)|reflexivity].
Qed.

Lemma foreign_payment_not_found_witness :
  ConfirmPaymentView.post env_nov landlord_b 0 pending_db
  = (Return NotFound, pending_db).
Proof.
  refine (proj1 (foreign_payment_not_found env_nov landlord_b 0 pending_db
                   _ _ _)).
  - reflexivity.
  - reflexivity.
  - vm_compute. intros [_ H]. discriminate.
Defined.

(** ** The confirmation by the landlord *)

(** X4.  When the landlord confirms a payment of theirs that is not yet
    confirmed, the payment is stored as confirmed, stamped with the instant
    of the request, and the amount paid of its invoice grows by the amount
    of the payment, once; the other invoices are untouched; and confirming
    it again answers that it is already confirmed and writes nothing. *)
Theorem landlord_confirmation_applies_once (env env' : Env) (req : Request)
    (k : Z) (r : PaymentRow) (ir : InvoiceRow) (db : DB) :
  is_authenticated req = true -> is_landlord req = true ->
  payments db !! k = Some r -> payment_status r <> confirmed ->
  invoices db !! invoice r = Some ir ->
  owned_by req (lease_landlord db (lease ir)) ->
  invoice_table_ok (invoices db) ->
  exists db',
    ConfirmPaymentView.post env req k db = (Return PaymentConfirmed, db')
    /\ status_of db' k = Some confirmed
    /\ (confirmed_at <$> payments db' !! k) = Some (Some (now env))
    /\ paid_of db' (invoice r) = Some (amount_paid ir + amount r)%Q
    /\ (forall j, j <> invoice r -> invoices db' !! j = invoices db !! j)
    /\ (forall j, j <> k -> payments db' !! j = payments db !! j)
    /\ ConfirmPaymentView.post env' req k db' = (Return AlreadyConfirmed, db').
Proof.
  intros Ha Hl Hk Hs Hinv Hown Hok.
  assert (Hown0 : owned_by req (invoice_landlord db (invoice r)))
    by now rewrite (invoice_landlord_row db _ ir Hinv).
  eexists. split; [|split; [|split; [|split; [|split; [|split]]]]].
  - unfold ConfirmPaymentView.post. rewrite Ha, Hl. cbn [negb].
    unfold atomic_view, bind at 1. unfold get_db at 1. cbn iota beta.
    rewrite Hk. destruct (decide (owned_by _ _)) as [_|N]; [|contradiction].
    destruct (decide (payment_status r = confirmed)) as [E|_]; [contradiction|].
    unfold bind at 1. unfold Payment.confirm_payment.
    cbn [pay_fields Payment.fetched].
    destruct (decide (payment_status r <> confirmed)) as [_|N];
      [|contradiction].
    rewrite (payment_save_confirming env _ db k r ir);
      [|reflexivity|exact Hk|reflexivity|exact Hs|reflexivity|exact Hinv].
    rewrite invoice_save_eq. cbn [pk fields saved_key invoices with_payments].
    destruct (decide _) as [_|N];
      [|exfalso; apply N; now apply repaid_row_unique].
    unfold ret. reflexivity.
  - unfold status_of. cbn [payments with_invoices with_payments].
    now rewrite lookup_insert_eq.
  - cbn [payments with_invoices with_payments]. now rewrite lookup_insert_eq.
  - unfold paid_of. cbn [invoices with_invoices pay_fields
      Payment.with_fields Payment.fetched invoice amount
      Payment.set_confirmed_at Payment.set_status].
    rewrite lookup_insert_eq. cbn [fmap option_fmap option_map].
    now rewrite pre_save_paid.
  - intros j Hj. cbn [invoices with_invoices pay_fields
      Payment.with_fields Payment.fetched invoice
      Payment.set_confirmed_at Payment.set_status].
    now rewrite lookup_insert_ne by congruence.
  - intros j Hj. cbn [payments with_invoices with_payments].
    now rewrite lookup_insert_ne by congruence.
  - unfold ConfirmPaymentView.post. rewrite Ha, Hl. cbn [negb].
    unfold atomic_view, bind, get_db, ret.
    cbn [payments invoices with_invoices with_payments pay_fields
      Payment.with_fields Payment.fetched].
    rewrite lookup_insert_eq.
    cbn [invoice payment_status Payment.set_confirmed_at Payment.set_status].
    destruct (decide (owned_by _ _)) as [_|N].
    + destruct (decide (confirmed = confirmed)) as [_|N]; [reflexivity|].
      now destruct N.
    + exfalso. apply N. unfold invoice_landlord.
      cbn [invoices with_invoices]. rewrite lookup_insert_eq. cbn.
      destruct (decide (invoice_number ir = ""%string)); exact Hown.
Qed.

Lemma landlord_confirmation_applies_once_witness :
  exists db',
    ConfirmPaymentView.post env_nov landlord_a 0 pending_db
    = (Return PaymentConfirmed, db')
    /\ paid_of db' 1 = Some (0 + 5000)%Q.
Proof.
  destruct (landlord_confirmation_applies_once env_nov env_nov landlord_a 0
              (InitiateMpesaPaymentView.new_payment env_nov 1 5000
                 "254712345678")
              (invoice_of 1000 "INV-202610-AAAA0001" 0 0 overdue) pending_db)
    as (db' & H1 & _ & _ & H4 & _).
  - reflexivity.
  - reflexivity.
  - vm_compute. reflexivity.
  - discriminate.
  - vm_compute. reflexivity.
  - apply (bool_decide_unpack _). vm_compute. exact I.
  - apply (bool_decide_unpack _). vm_compute. exact I.
  - exists db'. split; [exact H1 | exact H4].
Defined.

(** ** Deleting *)

(** X5.  Deleting a payment never changes an invoice and never touches
    another payment; a confirmed payment is never deleted, whoever asks;
    and a payment of the landlord that is not confirmed is removed. *)
Theorem payment_deletion_rules (req : Request) (k : Z) (db : DB) :
  invoices (snd (DeletePaymentView.post req k db)) = invoices db
  /\ (forall j, j <> k ->
        payments (snd (DeletePaymentView.post req k db)) !! j
        = payments db !! j)
  /\ (forall r, payments db !! k = Some r -> payment_status r = confirmed ->
        snd (DeletePaymentView.post req k db) = db
        /\ fst (DeletePaymentView.post req k db) <> Return PaymentDeleted)
  /\ (forall r, is_authenticated req = true -> is_landlord req = true ->
        payments db !! k = Some r -> payment_status r <> confirmed ->
        owned_by req (invoice_landlord db (invoice r)) ->
        DeletePaymentView.post req k db
        = (Return PaymentDeleted, with_payments (delete k (payments db)) db)).
Proof.
  assert (Heq : DeletePaymentView.post req k db =
    if negb (is_authenticated req) then (Return LoginRequired, db)
    else if negb (is_landlord req) then (Return AccessDenied, db)
    else match payments db !! k with
         | Some r =>
             if decide (owned_by req (invoice_landlord db (invoice r))) then
               if decide (payment_status r = confirmed)
               then (Return ConfirmedPaymentLocked, db)
               else (Return PaymentDeleted,
                     with_payments (delete k (payments db)) db)
             else (Return NotFound, db)
         | None => (Return NotFound, db)
         end).
  { unfold DeletePaymentView.post.
    destruct (is_authenticated req); cbn [negb]; [|reflexivity].
    unfold atomic_view, bind, get_db, put_db, ret.
    destruct (is_landlord req); cbn [negb]; [|reflexivity].
    destruct (payments db !! k) as [r0|]; [|reflexivity].
    destruct (decide (owned_by _ _)); [|reflexivity].
    destruct (decide (payment_status r0 = confirmed)); reflexivity. }
  rewrite Heq. clear Heq. split; [|split; [|split]].
  - destruct (negb (is_authenticated req)); [reflexivity|].
    destruct (negb (is_landlord req)); [reflexivity|].
    destruct (payments db !! k) as [r0|]; [|reflexivity].
    destruct (decide (owned_by _ _)); [|reflexivity].
    destruct (decide (payment_status r0 = confirmed)); reflexivity.
  - intros j Hj.
    destruct (negb (is_authenticated req)); [reflexivity|].
    destruct (negb (is_landlord req)); [reflexivity|].
    destruct (payments db !! k) as [r0|]; [|reflexivity].
    destruct (decide (owned_by _ _)); [|reflexivity].
    destruct (decide (payment_status r0 = confirmed)); [reflexivity|].
    cbn [snd payments with_payments].
    now rewrite lookup_delete_ne by congruence.
  - intros r0 Hk Hc. rewrite Hk.
    destruct (negb (is_authenticated req)); [split; [reflexivity|discriminate]|].
    destruct (negb (is_landlord req)); [split; [reflexivity|discriminate]|].
    destruct (decide (owned_by _ _)); [|split; [reflexivity|discriminate]].
    destruct (decide (payment_status r0 = confirmed)) as [_|N];
      [split; [reflexivity|discriminate]|contradiction].
  - intros r0 Ha Hl Hk Hnc Ho. rewrite Ha, Hl, Hk. cbn [negb].
    destruct (decide (owned_by _ _)) as [_|N]; [|contradiction].
    destruct (decide (payment_status r0 = confirmed)) as [E|_];
      [contradiction|reflexivity].
Qed.

Lemma payment_deletion_rules_witness :
  snd (DeletePaymentView.post landlord_a 0 confirmed_db) = confirmed_db.
Proof.
  refine (proj1 (proj1 (proj2 (proj2 (payment_deletion_rules landlord_a 0
                                         confirmed_db))) _ _ _)).
  - vm_compute. reflexivity.
  - reflexivity.
Defined.

Lemma invoice_delete_eq (req : Request) (k : Z) (db : DB) :
  InvoiceDeleteView.post req k db =
  if negb (is_authenticated req) then (Return LoginRequired, db)
  else if negb (is_landlord req) then (Return AccessDenied, db)
  else match invoices db !! k with
       | Some r =>
           if decide (owned_by req (lease_landlord db (lease r))) then
             if decide (status r = paid) then (Return PaidInvoiceLocked, db)
             else if decide (InvoiceDeleteView.has_payments db k)
                  then (Return InvoiceHasPayments, db)
                  else (Return InvoiceDeleted,
                        with_invoices (delete k (invoices db)) db)
           else (Return NotFound, db)
       | None => (Return NotFound, db)
       end.
Proof.
  unfold InvoiceDeleteView.post.
  destruct (is_authenticated req); cbn [negb]; [|reflexivity].
  unfold atomic_view, bind, get_db, put_db, ret.
  destruct (is_landlord req); cbn [negb]; [|reflexivity].
  destruct (invoices db !! k) as [r0|]; [|reflexivity].
  destruct (decide (owned_by _ _)); [|reflexivity].
  destruct (decide (status r0 = paid)); [reflexivity|].
  destruct (decide (InvoiceDeleteView.has_payments db k)); reflexivity.
Qed.

(** X6.  Deleting an invoice never changes a payment and never touches
    another invoice; an invoice that is paid, or that a payment of any state
    refers to, is never deleted, whoever asks; so every payment still refers
    to a stored invoice afterwards.  An invoice of the landlord that is not
    paid and has no payment is removed. *)
Theorem invoice_deletion_rules (req : Request) (k : Z) (db : DB) :
  payments (snd (InvoiceDeleteView.post req k db)) = payments db
  /\ (forall j, j <> k ->
        invoices (snd (InvoiceDeleteView.post req k db)) !! j
        = invoices db !! j)
  /\ (forall r, invoices db !! k = Some r ->
        status r = paid \/ InvoiceDeleteView.has_payments db k ->
        snd (InvoiceDeleteView.post req k db) = db
        /\ fst (InvoiceDeleteView.post req k db) <> Return InvoiceDeleted)
  /\ (payments_linked db ->
      payments_linked (snd (InvoiceDeleteView.post req k db)))
  /\ (forall r, is_authenticated req = true -> is_landlord req = true ->
        invoices db !! k = Some r ->
        owned_by req (lease_landlord db (lease r)) ->
        status r <> paid -> ~ InvoiceDeleteView.has_payments db k ->
        InvoiceDeleteView.post req k db
        = (Return InvoiceDeleted, with_invoices (delete k (invoices db)) db)).
Proof.
  rewrite invoice_delete_eq. split; [|split; [|split; [|split]]].
  - destruct (negb (is_authenticated req)); [reflexivity|].
    destruct (negb (is_landlord req)); [reflexivity|].
    destruct (invoices db !! k) as [r0|]; [|reflexivity].
    destruct (decide (owned_by _ _)); [|reflexivity].
    destruct (decide (status r0 = paid)); [reflexivity|].
    destruct (decide (InvoiceDeleteView.has_payments db k)); reflexivity.
  - intros j Hj.
    destruct (negb (is_authenticated req)); [reflexivity|].
    destruct (negb (is_landlord req)); [reflexivity|].
    destruct (invoices db !! k) as [r0|]; [|reflexivity].
    destruct (decide (owned_by _ _)); [|reflexivity].
    destruct (decide (status r0 = paid)); [reflexivity|].
    destruct (decide (InvoiceDeleteView.has_payments db k)); [reflexivity|].
    cbn [snd invoices with_invoices].
    now rewrite lookup_delete_ne by congruence.
  - intros r0 Hk Hlocked. rewrite Hk.
    destruct (negb (is_authenticated req)); [split; [reflexivity|discriminate]|].
    destruct (negb (is_landlord req)); [split; [reflexivity|discriminate]|].
    destruct (decide (owned_by _ _)); [|split; [reflexivity|discriminate]].
    destruct (decide (status r0 = paid)) as [|Np];
      [split; [reflexivity|discriminate]|].
    destruct (decide (InvoiceDeleteView.has_payments db k)) as [|Nh];
      [split; [reflexivity|discriminate]|].
    destruct Hlocked; contradiction.
  - intros Hlinked.
    destruct (negb (is_authenticated req)); [exact Hlinked|].
    destruct (negb (is_landlord req)); [exact Hlinked|].
    destruct (invoices db !! k) as [r0|]; [|exact Hlinked].
    destruct (decide (owned_by _ _)); [|exact Hlinked].
    destruct (decide (status r0 = paid)); [exact Hlinked|].
    destruct (decide (InvoiceDeleteView.has_payments db k)) as [|Nh];
      [exact Hlinked|].
    intros p x Hp. cbn [snd invoices payments with_invoices] in *.
    rewrite lookup_delete_ne; [exact (Hlinked p x Hp)|].
    intros E. apply Nh. apply (map_Exists_lookup_2 _ _ p x Hp).
    now symmetry.
  - intros r0 Ha Hl Hk Ho Hnp Hnh. rewrite Ha, Hl, Hk. cbn [negb].
    destruct (decide (owned_by _ _)) as [_|N]; [|contradiction].
    destruct (decide (status r0 = paid)) as [E|_]; [contradiction|].
    destruct (decide (InvoiceDeleteView.has_payments db k)) as [E|_];
      [contradiction|reflexivity].
Qed.

Lemma invoice_deletion_rules_witness :
  snd (InvoiceDeleteView.post landlord_a 1 pending_db) = pending_db.
Proof.
  refine (proj1 (proj1 (proj2 (proj2 (invoice_deletion_rules landlord_a 1
                                         pending_db))) _ _ _)).
  - vm_compute. reflexivity.
  - right. apply (bool_decide_unpack _). vm_compute. exact I.
Defined.

(** ** Updating an invoice *)



(** ** The constraints of the invoice table, through every history *)

Lemma pre_save_has_number (env : Env) (uid : string) (r : InvoiceRow) :
  invoice_number (Invoice.pre_save env uid r) <> ""%string.
Proof.
  destruct (decide (invoice_number r = ""%string)) as [E|N].
  - unfold Invoice.pre_save. destruct (decide _) as [_|N]; [|contradiction].
    cbn. discriminate.
  - now rewrite pre_save_number.
Qed.

Lemma table_ok_save (t : gmap Z InvoiceRow) (key : option Z) (k : Z)
    (env : Env) (uid : string) (r : InvoiceRow) :
  invoice_table_ok t ->
  Invoice.unique_ok key (Invoice.pre_save env uid r) t ->
  key = Some k \/ (key = None /\ t !! k = None) ->
  invoice_table_ok (<[k := Invoice.pre_save env uid r]> t).
Proof.
  intros Ht Hu Hkey.
  assert (Hother : forall j y, j <> k -> t !! j = Some y ->
            invoice_number y <> invoice_number (Invoice.pre_save env uid r)
            /\ ~ (lease y = lease (Invoice.pre_save env uid r)
                  /\ billing_month y
                     = billing_month (Invoice.pre_save env uid r))).
  { intros j y Hj Hy. destruct (Hu j y Hy) as [E|H]; [|exact H].
    destruct Hkey as [->|[-> _]]; congruence. }
  intros i x Hi. destruct (decide (i = k)) as [->|Hik].
  - rewrite lookup_insert_eq in Hi. injection Hi as <-.
    split; [apply pre_save_has_number|].
    intros j y Hj. destruct (decide (j = k)) as [->|Hjk]; [now left|right].
    rewrite lookup_insert_ne in Hj by congruence. exact (Hother j y Hjk Hj).
  - rewrite lookup_insert_ne in Hi by congruence.
    destruct (Ht i x Hi) as [Hn Hx]. split; [exact Hn|].
    intros j y Hj. destruct (decide (j = k)) as [->|Hjk].
    + rewrite lookup_insert_eq in Hj. injection Hj as <-. right.
      destruct (Hother i x Hik Hi) as [H1 H2].
      split; [congruence|]. intros [E1 E2]. apply H2. split; congruence.
    + rewrite lookup_insert_ne in Hj by congruence. exact (Hx j y Hj).
Qed.

Lemma table_ok_delete (t : gmap Z InvoiceRow) (k : Z) :
  invoice_table_ok t -> invoice_table_ok (delete k t).
Proof.
  intros Ht i x Hi. apply lookup_delete_Some in Hi as [_ Hi].
  destruct (Ht i x Hi) as [Hn Hx]. split; [exact Hn|].
  intros j y Hj. apply lookup_delete_Some in Hj as [_ Hj]. exact (Hx j y Hj).
Qed.

Lemma table_ok_status (t : gmap Z InvoiceRow) (k : Z) (s : invoice_state) :
  invoice_table_ok t -> invoice_table_ok (alter (Invoice.set_status s) k t).
Proof.
  assert (Hsame : forall i x, alter (Invoice.set_status s) k t !! i = Some x ->
            exists x0, t !! i = Some x0
                       /\ invoice_number x0 = invoice_number x
                       /\ lease x0 = lease x
                       /\ billing_month x0 = billing_month x).
  { intros i x Hi. destruct (decide (k = i)) as [->|Hne].
    - rewrite lookup_alter_eq in Hi.
      destruct (t !! i) as [x0|]; [|discriminate]. injection Hi as <-. eauto.
    - rewrite lookup_alter_ne in Hi by exact Hne. eauto. }
  intros Ht i x Hi. apply Hsame in Hi as (x0 & Hi & En & El & Em).
  destruct (Ht i x0 Hi) as [Hn Hx]. split; [congruence|].
  intros j y Hj. apply Hsame in Hj as (y0 & Hj & Fn & Fl & Fm).
  destruct (Hx j y0 Hj) as [E|[H1 H2]]; [now left|right].
  split; [congruence|]. intros [E1 E2]. apply H2. split; congruence.
Qed.

(** X8.  In every database reached by a history of requests from one
    where every invoice has a number and no two invoices share their number
    or their lease and month, every invoice has a number and no two share
    their number or their lease and month. *)
Theorem invoice_constraints_kept (history : list (Env * request)) (db : DB) :
  invoice_table_ok (invoices db) ->
  invoice_table_ok (invoices (run history db))
  /\ (forall j1 j2 x1 x2,
        invoices (run history db) !! j1 = Some x1 ->
        invoices (run history db) !! j2 = Some x2 ->
        invoice_number x1 = invoice_number x2 -> j1 = j2)
  /\ (forall j x, invoices (run history db) !! j = Some x ->
        invoice_number x <> ""%string).
Proof.
  intros Hok.
  assert (H : invoice_table_ok (invoices (run history db))).
  { exact (preserves_run invoice_table_ok table_ok_save table_ok_delete
             table_ok_status history db Hok). }
  split; [exact H|]. split.
  - intros j1 j2 x1 x2 H1 H2 Hn. destruct (H j2 x2 H2) as [_ Hu].
    destruct (Hu j1 x1 H1) as [[= ->]|[Hne _]]; [reflexivity|contradiction].
  - intros j x Hj. now destruct (H j x Hj).
Qed.

Lemma invoice_constraints_kept_witness :
  invoice_table_ok
    (invoices
       (run [(env_nov, GenerateMonthly landlord_a (Some 30) (Some 49));
             (env_later, UpdateInvoice landlord_a 1 (november_form 1000));
             (env_later, RecordManualPayment landlord_a (cash_form 2 700))]
          batch_db)).
Proof.
  apply (invoice_constraints_kept _ batch_db). exact batch_db_table_ok.
Defined.

(** ** What the requests leave alone *)

Section Frame.

Variable I : DB -> Prop.
Hypothesis I_invoices : forall d t, I d -> I (with_invoices t d).
Hypothesis I_payments : forall d t, I d -> I (with_payments t d).

Definition frames {A} (m : M A) : Prop := forall db, I db -> I (snd (m db)).

Lemma frames_ret {A} (a : A) : frames (ret a).
Proof. intros db H. exact H. Qed.

Lemma frames_raise {A} (e : exn) : frames (@raise A e).
Proof. intros db H. exact H. Qed.

Lemma frames_bind {A B} (m : M A) (k : A -> M B) :
  frames m -> (forall a, frames (k a)) -> frames (bind m k).
Proof.
  intros Hm Hk db H. unfold bind. specialize (Hm db H).
  destruct (m db) as [[a|e] db']; cbn [snd] in *; [now apply Hk | exact Hm].
Qed.

Lemma frames_get_bind {B} (k : DB -> M B) :
  (forall d, I d -> frames (k d)) -> frames (bind get_db k).
Proof. intros Hk db H. unfold bind, get_db. now apply Hk. Qed.

Lemma frames_put (d : DB) : I d -> frames (put_db d).
Proof. intros Hd db _. exact Hd. Qed.

Lemma frames_atomic_view (m : M response) : frames m -> frames (atomic_view m).
Proof.
  intros Hm db H. unfold atomic_view. specialize (Hm db H).
  destruct (m db) as [[a|e] db']; cbn [snd] in *; assumption.
Qed.

Lemma frames_except (r : response) (m : M response) :
  frames m -> frames (except r m).
Proof.
  intros Hm db H. unfold except. specialize (Hm db H).
  destruct (m db) as [[a|e] db']; cbn [snd] in *; assumption.
Qed.

Ltac frame :=
  repeat match goal with
    | |- frames (ret _) => apply frames_ret
    | |- frames (raise _) => apply frames_raise
    | |- frames (put_db (with_payments _ _)) => apply frames_put; auto
    | |- frames (put_db (with_invoices _ _)) => apply frames_put; auto
    | |- frames (bind get_db _) => apply frames_get_bind; intros ? ?
    | |- frames (bind _ _) => apply frames_bind; [|intros ?]
    | |- frames (atomic_view _) => apply frames_atomic_view
    | |- frames (except _ _) => apply frames_except
    | |- frames (match ?x with _ => _ end) => destruct x
    end.

Lemma frames_invoice_save env uid self : frames (Invoice.save env uid self).
Proof. unfold Invoice.save, Invoice.super_save. frame. Qed.

Lemma frames_invoice_create env uid l month due rent water garbage other :
  frames (Invoice_create env uid l month due rent water garbage other).
Proof. unfold Invoice_create. frame. apply frames_invoice_save. Qed.

Lemma frames_the_invoice self : frames (Payment.the_invoice self).
Proof. unfold Payment.the_invoice, Invoice.get. frame. Qed.

Lemma frames_payment_save env self : frames (Payment.save env self).
Proof.
  unfold Payment.save, Payment.super_save. frame;
    auto using frames_the_invoice, frames_invoice_save.
Qed.

Lemma frames_confirm_payment env self :
  frames (Payment.confirm_payment env self).
Proof.
  unfold Payment.confirm_payment. frame. apply frames_payment_save.
Qed.

Lemma frames_fail_payment env self : frames (Payment.fail_payment env self).
Proof. unfold Payment.fail_payment. frame. apply frames_payment_save. Qed.

Lemma frames_loop env month due ls created skipped :
  frames (GenerateMonthlyInvoicesView.loop env month due ls created skipped).
Proof.
  revert created skipped.
  induction ls as [|[k l] rest IH]; intros created skipped;
    cbn [GenerateMonthlyInvoicesView.loop]; frame;
    auto using frames_invoice_create.
Qed.

Lemma frames_handle (env : Env) (rq : request) : frames (handle env rq).
Proof.
  destruct rq; cbn [handle].
  - unfold InvoiceCreateView.post, decimal_arg. frame;
      auto using frames_invoice_create.
  - unfold InvoiceUpdateView.post, decimal_arg. frame;
      auto using frames_invoice_save.
  - unfold InvoiceDeleteView.post. frame.
  - unfold GenerateMonthlyInvoicesView.post. frame. apply frames_loop.
  - unfold RecordManualPaymentView.post, Payment.create. frame;
      auto using frames_the_invoice, frames_payment_save, frames_invoice_save.
  - unfold InitiateMpesaPaymentView.post, Payment.create, Invoice.get. frame;
      auto using frames_payment_save.
  - unfold MpesaCallbackView.post. frame;
      auto using frames_the_invoice, frames_payment_save, frames_invoice_save.
  - unfold ConfirmPaymentView.post. frame. apply frames_confirm_payment.
  - unfold DeletePaymentView.post. frame.
  - unfold InvoiceAdmin.mark_as_paid. frame.
    induction queryset as [|k rest IH];
      cbn [InvoiceAdmin.mark_as_paid_loop]; frame;
      auto using frames_invoice_save.
  - unfold InvoiceAdmin.mark_as_overdue. frame.
  - unfold PaymentAdmin.confirm_payments. frame.
    induction queryset as [|k rest IH];
      cbn [PaymentAdmin.confirm_payments_loop]; frame;
      auto using frames_confirm_payment.
  - unfold PaymentAdmin.fail_payments. frame.
    induction queryset as [|k rest IH];
      cbn [PaymentAdmin.fail_payments_loop]; frame;
      auto using frames_fail_payment.
Qed.

Lemma frames_run (history : list (Env * request)) (db : DB) :
  I db -> I (run history db).
Proof.
  revert db. induction history as [|[env rq] rest IH]; intros db H.
  - exact H.
  - cbn [run]. apply IH. now apply frames_handle.
Qed.

End Frame.

(** X9.  No request of the billing views, the callback or the bulk actions
    changes a property, a unit or a lease; so the landlord of every lease,
    and the active leases a landlord is billed for, are the same after any
    history of them. *)
Theorem ownership_untouched (history : list (Env * request)) (db : DB) :
  properties (run history db) = properties db
  /\ units (run history db) = units db
  /\ leases (run history db) = leases db
  /\ (forall l, lease_landlord (run history db) l = lease_landlord db l)
  /\ (forall req,
        GenerateMonthlyInvoicesView.active_leases (run history db) req
        = GenerateMonthlyInvoicesView.active_leases db req).
Proof.
  assert (H : properties (run history db) = properties db
              /\ units (run history db) = units db
              /\ leases (run history db) = leases db).
  { apply (frames_run (fun d => properties d = properties db
                                /\ units d = units db
                                /\ leases d = leases db)); auto. }
  destruct H as (Hp & Hu & Hl).
  assert (Hll : forall l, lease_landlord (run history db) l
                          = lease_landlord db l).
  { intros l. unfold lease_landlord. now rewrite Hp, Hu, Hl. }
  repeat split; try assumption.
  intros req. unfold GenerateMonthlyInvoicesView.active_leases. rewrite Hl.
  f_equal. apply list_filter_iff. intros kl.
  unfold GenerateMonthlyInvoicesView.is_active_lease_of. now rewrite Hll.
Qed.

(** ** Every payment refers to a stored invoice *)

Definition links_at {A} (m : M A) (db : DB) : Prop :=
  payments_linked db -> payments_linked (snd (m db)).

Definition links {A} (m : M A) : Prop := forall db, links_at m db.

Lemma linked_put_payment (db : DB) (k : Z) (r : PaymentRow) :
  payments_linked db -> is_Some (invoices db !! invoice r) ->
  payments_linked (with_payments (<[k := r]> (payments db)) db).
Proof.
  intros H Hr. unfold payments_linked. cbn.
  apply map_Forall_insert_2; assumption.
Qed.

Lemma linked_delete_payment (db : DB) (k : Z) :
  payments_linked db ->
  payments_linked (with_payments (delete k (payments db)) db).
Proof.
  intros H i x Hi. cbn in Hi. apply lookup_delete_Some in Hi as [_ Hi].
  exact (H i x Hi).
Qed.

Lemma linked_put_invoice (db : DB) (k : Z) (r : InvoiceRow) :
  payments_linked db ->
  payments_linked (with_invoices (<[k := r]> (invoices db)) db).
Proof.
  intros H i x Hi. cbn in Hi. specialize (H i x Hi). cbn in *.
  destruct (decide (k = invoice x)) as [->|Hne].
  - rewrite lookup_insert_eq. eauto.
  - now rewrite lookup_insert_ne.
Qed.

Lemma linked_delete_invoice (db : DB) (k : Z) :
  payments_linked db -> ~ InvoiceDeleteView.has_payments db k ->
  payments_linked (with_invoices (delete k (invoices db)) db).
Proof.
  intros H Hnone i x Hi. cbn in Hi. specialize (H i x Hi). cbn in *.
  rewrite lookup_delete_ne; [exact H|].
  intros E. apply Hnone. exists i, x. split; [exact Hi|]. now symmetry.
Qed.

Lemma linked_status_update (db : DB) (s : invoice_state) (queryset : list Z) :
  payments_linked db ->
  payments_linked
    (with_invoices
       (foldr (fun k t => alter (Invoice.set_status s) k t) (invoices db)
          queryset) db).
Proof.
  intros H i x Hi. cbn in Hi. specialize (H i x Hi). cbn in *.
  induction queryset as [|k rest IH]; [exact H|]. cbn [foldr].
  destruct (decide (k = invoice x)) as [->|Hne].
  - rewrite lookup_alter_eq. destruct IH as [y ->]. eauto.
  - now rewrite lookup_alter_ne.
Qed.

Lemma links_at_ret {A} (a : A) (db : DB) : links_at (ret a) db.
Proof. intros H. exact H. Qed.

Lemma links_at_raise {A} (e : exn) (db : DB) : links_at (@raise A e) db.
Proof. intros H. exact H. Qed.

Lemma links_at_put (d db : DB) :
  (payments_linked db -> payments_linked d) -> links_at (put_db d) db.
Proof. intros Hd H. exact (Hd H). Qed.

Lemma links_at_bind {A B} (m : M A) (k : A -> M B) (db : DB) :
  links_at m db -> (forall a, links (k a)) -> links_at (bind m k) db.
Proof.
  intros Hm Hk H. unfold bind. specialize (Hm H).
  destruct (m db) as [[a|e] db']; cbn [snd] in *; [now apply Hk | exact Hm].
Qed.

Lemma links_at_get_bind {B} (k : DB -> M B) (db : DB) :
  links_at (k db) db -> links_at (bind get_db k) db.
Proof. intros Hk H. unfold bind, get_db. now apply Hk. Qed.

Lemma links_at_read_bind {A B} (m : M A) (k : A -> M B) (db : DB) :
  snd (m db) = db -> (forall a, links_at (k a) db) -> links_at (bind m k) db.
Proof.
  intros Hm Hk H. unfold bind.
  destruct (m db) as [[a|e] db']; cbn [snd] in *; subst db';
    [now apply Hk | exact H].
Qed.

Lemma links_at_atomic_view (m : M response) (db : DB) :
  links_at m db -> links_at (atomic_view m) db.
Proof.
  intros Hm H. unfold atomic_view. specialize (Hm H).
  destruct (m db) as [[a|e] db']; cbn [snd] in *; assumption.
Qed.

Lemma links_at_except (r : response) (m : M response) (db : DB) :
  links_at m db -> links_at (except r m) db.
Proof.
  intros Hm H. unfold except. specialize (Hm H).
  destruct (m db) as [[a|e] db']; cbn [snd] in *; assumption.
Qed.

Lemma links_invoice_save env uid self : links (Invoice.save env uid self).
Proof.
  intros db H. rewrite invoice_save_eq.
  destruct (decide _); [now apply linked_put_invoice | exact H].
Qed.

Lemma links_the_invoice self : links (Payment.the_invoice self).
Proof. intros db H. now rewrite the_invoice_db. Qed.

Lemma links_at_invoice_get {B} (k : Z) (f : instance InvoiceRow -> M B)
    (db : DB) :
  (forall r, invoices db !! k = Some r ->
             links_at (f (Instance (Some k) r)) db) ->
  links_at (bind (Invoice.get k) f) db.
Proof.
  intros Hf H. unfold Invoice.get, bind, get_db, ret, raise.
  destruct (invoices db !! k) as [r|] eqn:E; [now apply Hf | exact H].
Qed.

Ltac link :=
  repeat match goal with
    | |- links _ => intros ?
    | |- links_at (bind (Invoice.get _) _) _ =>
        apply links_at_invoice_get; intros ? ?
    | |- links_at (ret _) _ => apply links_at_ret
    | |- links_at (raise _) _ => apply links_at_raise
    | |- links_at (Invoice.save _ _ _) _ => apply links_invoice_save
    | |- links_at (Payment.the_invoice _) _ => apply links_the_invoice
    | |- links_at (bind get_db _) _ => apply links_at_get_bind; cbv beta
    | |- links_at (bind _ _) _ => apply links_at_bind; [|intros ?]
    | |- links_at (atomic_view _) _ => apply links_at_atomic_view
    | |- links_at (except _ _) _ => apply links_at_except
    | |- links_at (if ?b then _ else _) _ => destruct b
    | |- links_at (match ?x with _ => _ end) _ => destruct x eqn:?
    end.

Lemma links_invoice_create env uid l month due rent water garbage other :
  links (Invoice_create env uid l month due rent water garbage other).
Proof. unfold Invoice_create. link. Qed.

Lemma links_at_payment_save env self db :
  (payments_linked db ->
   is_Some (invoices db !! invoice (pay_fields self))) ->
  links_at (Payment.save env self) db.
Proof.
  intros Hin. unfold Payment.save. apply links_at_read_bind.
  { destruct (pay_pk self) as [k|]; [|reflexivity].
    unfold bind, get_db. now destruct (payments db !! k). }
  intros old_status. apply links_at_bind.
  - intros H. specialize (Hin H). unfold Payment.super_save, bind, get_db,
      put_db, ret.
    destruct (pay_pk self); cbn [snd]; now apply linked_put_payment.
  - intros self'. link.
Qed.

Lemma links_at_confirm_payment env self db :
  (payments_linked db ->
   is_Some (invoices db !! invoice (pay_fields self))) ->
  links_at (Payment.confirm_payment env self) db.
Proof.
  intros Hin. unfold Payment.confirm_payment.
  destruct (decide _); [|apply links_at_ret].
  apply links_at_payment_save. exact Hin.
Qed.

Lemma links_at_fail_payment env self db :
  (payments_linked db ->
   is_Some (invoices db !! invoice (pay_fields self))) ->
  links_at (Payment.fail_payment env self) db.
Proof.
  intros Hin. unfold Payment.fail_payment.
  destruct (decide _); [|apply links_at_ret].
  apply links_at_payment_save. exact Hin.
Qed.

Lemma find_payment_stored (db : DB) (suffix : string) (k : Z)
    (r : PaymentRow) :
  MpesaCallbackView.find_payment db suffix = Some (k, r) ->
  payments db !! k = Some r /\ MpesaCallbackView.matches suffix (k, r).
Proof.
  unfold MpesaCallbackView.find_payment. intros E.
  pose proof (most_recent_spec
                (filter (MpesaCallbackView.matches suffix)
                   (map_to_list (payments db)))) as H.
  rewrite E in H. destruct H as [H _].
  apply list_elem_of_filter in H as [Hm H].
  apply elem_of_map_to_list in H. now split.
Qed.

Lemma links_loop env month due ls created skipped :
  links (GenerateMonthlyInvoicesView.loop env month due ls created skipped).
Proof.
  revert created skipped.
  induction ls as [|[k l] rest IH]; intros created skipped;
    cbn [GenerateMonthlyInvoicesView.loop]; link;
    first [apply IH | apply links_invoice_create].
Qed.

Lemma links_handle (env : Env) (rq : request) : links (handle env rq).
Proof.
  destruct rq; cbn [handle].
  - unfold InvoiceCreateView.post, decimal_arg. link.
    apply links_invoice_create.
  - unfold InvoiceUpdateView.post, decimal_arg. link.
  - unfold InvoiceDeleteView.post. link.
    apply links_at_put. intros H. now apply linked_delete_invoice.
  - unfold GenerateMonthlyInvoicesView.post. link. apply links_loop.
  - unfold RecordManualPaymentView.post. link.
    apply links_at_payment_save. intros _. cbn. eauto.
  - unfold InitiateMpesaPaymentView.post. link.
    apply links_at_payment_save. intros _. cbn. eauto.
  - unfold MpesaCallbackView.post. link.
    + apply links_at_payment_save. intros H. cbn.
      match goal with
      | E : MpesaCallbackView.find_payment _ _ = Some _ |- _ =>
          apply find_payment_stored in E as [E _]; exact (H _ _ E)
      end.
    + apply links_at_payment_save. intros H. cbn.
      match goal with
      | E : MpesaCallbackView.find_payment _ _ = Some _ |- _ =>
          apply find_payment_stored in E as [E _]; exact (H _ _ E)
      end.
  - unfold ConfirmPaymentView.post. link.
    apply links_at_confirm_payment. intros H. cbn. eauto.
  - unfold DeletePaymentView.post. link.
    apply links_at_put. intros H. now apply linked_delete_payment.
  - unfold InvoiceAdmin.mark_as_paid. link.
    revert db. induction queryset as [|k rest IH]; intros db;
      cbn [InvoiceAdmin.mark_as_paid_loop]; link; apply IH.
  - unfold InvoiceAdmin.mark_as_overdue. link.
    apply links_at_put. intros H. now apply linked_status_update.
  - unfold PaymentAdmin.confirm_payments. link.
    revert db. induction queryset as [|k rest IH]; intros db;
      cbn [PaymentAdmin.confirm_payments_loop]; link; try apply IH.
    apply links_at_confirm_payment. intros H. cbn. eauto.
  - unfold PaymentAdmin.fail_payments. link.
    revert db. induction queryset as [|k rest IH]; intros db;
      cbn [PaymentAdmin.fail_payments_loop]; link; try apply IH.
    apply links_at_fail_payment. intros H. cbn. eauto.
Qed.

Lemma links_run (history : list (Env * request)) (db : DB) :
  payments_linked db -> payments_linked (run history db).
Proof.
  revert db. induction history as [|[env rq] rest IH]; intros db H.
  - exact H.
  - cbn [run]. apply IH. now apply links_handle.
Qed.

(** X10.  If every payment refers to a stored invoice, then after any
    history of requests every payment still refers to a stored invoice: no
    view, callback or bulk action stores a payment without its invoice or
    removes an invoice that a payment refers to. *)
Theorem payments_keep_their_invoice (history : list (Env * request))
    (db : DB) :
  payments_linked db ->
  forall k r, payments (run history db) !! k = Some r ->
    exists ir, invoices (run history db) !! invoice r = Some ir.
Proof.
  intros H k r Hk. exact (links_run history db H k r Hk).
Qed.

Lemma payments_keep_their_invoice_witness :
  exists ir,
    invoices
      (run [(env_later, MpesaCallback plain_digits
                          (Some (callback_for 0 [receipt_item; phone_item])));
            (env_later, DeleteInvoice landlord_a 1)] pending_db)
    !! 1 = Some ir.
Proof.
  refine (payments_keep_their_invoice
            [(env_later, MpesaCallback plain_digits
                           (Some (callback_for 0 [receipt_item; phone_item])));
             (env_later, DeleteInvoice landlord_a 1)] pending_db _ 0
            (Payment.set_confirmed_at (Some 2000)
               (Payment.set_receipt "QBR7A1B2C3" "QBR7A1B2C3"
                  (Payment.set_status confirmed
                     (InitiateMpesaPaymentView.new_payment env_nov 1 5000
                        "254712345678")))) _).
  - apply (bool_decide_unpack _). vm_compute. exact I.
  - vm_compute. reflexivity.
Defined.

(** ** The rows of the other landlords *)

Section Isolation.

Variable req : Request.
Variable db0 : DB.

Definition own_lease (l : Z) : Prop := owned_by req (lease_landlord db0 l).

Definition own_invoice (i : Z) : Prop :=
  owned_by req (invoice_landlord db0 i).

(** The invoices and payments of the others are those of [db0]. *)
Definition apart (d : DB) : Prop :=
  (forall i r, ~ own_lease (lease r) ->
     (invoices d !! i = Some r <-> invoices db0 !! i = Some r))
  /\ (forall k p, ~ own_invoice (invoice p) ->
     (payments d !! k = Some p <-> payments db0 !! k = Some p)).

(** A key under which [db0] holds no row of another landlord. *)
Definition free_invoice_key (i : Z) : Prop :=
  forall r, invoices db0 !! i = Some r -> own_lease (lease r).

Definition free_payment_key (k : Z) : Prop :=
  forall p, payments db0 !! k = Some p -> own_invoice (invoice p).

(** The instances a view of the requester holds. *)
Definition good_inv (inv : instance InvoiceRow) : Prop :=
  own_lease (lease (fields inv))
  /\ forall i, pk inv = Some i -> free_invoice_key i.

Definition good_pay (p : PaymentObj) : Prop :=
  (forall k, pay_pk p = Some k -> free_payment_key k)
  /\ own_invoice (invoice (pay_fields p))
  /\ forall inv, invoice_obj p = Some inv -> good_inv inv.

Definition iso {A} (R : A -> Prop) (m : M A) (d : DB) : Prop :=
  apart d ->
  apart (snd (m d)) /\ forall a, fst (m d) = Return a -> R a.

Lemma own_dec (o : option Z) : owned_by req o \/ ~ owned_by req o.
Proof. destruct (decide (owned_by req o)); auto. Qed.

Lemma apart_start : apart db0.
Proof. split; intros; reflexivity. Qed.

Lemma own_invoice_free (i : Z) : own_invoice i -> free_invoice_key i.
Proof.
  intros H r Hr. unfold own_invoice in H.
  now rewrite (invoice_landlord_row _ _ _ Hr) in H.
Qed.

Lemma apart_put_invoice (d : DB) (k : Z) (r : InvoiceRow) :
  apart d -> free_invoice_key k -> own_lease (lease r) ->
  apart (with_invoices (<[k := r]> (invoices d)) d).
Proof.
  intros [Hi Hp] Hk Hr. split; [|exact Hp]. intros i x Hx. cbn.
  destruct (decide (i = k)) as [->|Hne].
  - rewrite lookup_insert_eq. split.
    + intros [= <-]. contradiction.
    + intros H0. exfalso. exact (Hx (Hk x H0)).
  - rewrite lookup_insert_ne by congruence. now apply Hi.
Qed.

Lemma apart_delete_invoice (d : DB) (k : Z) :
  apart d -> free_invoice_key k ->
  apart (with_invoices (delete k (invoices d)) d).
Proof.
  intros [Hi Hp] Hk. split; [|exact Hp]. intros i x Hx. cbn.
  destruct (decide (i = k)) as [->|Hne].
  - rewrite lookup_delete_eq. split; [discriminate|].
    intros H0. exfalso. exact (Hx (Hk x H0)).
  - rewrite lookup_delete_ne by congruence. now apply Hi.
Qed.

Lemma apart_put_payment (d : DB) (k : Z) (p : PaymentRow) :
  apart d -> free_payment_key k -> own_invoice (invoice p) ->
  apart (with_payments (<[k := p]> (payments d)) d).
Proof.
  intros [Hi Hp] Hk Hr. split; [exact Hi|]. intros i x Hx. cbn.
  destruct (decide (i = k)) as [->|Hne].
  - rewrite lookup_insert_eq. split.
    + intros [= <-]. contradiction.
    + intros H0. exfalso. exact (Hx (Hk x H0)).
  - rewrite lookup_insert_ne by congruence. now apply Hp.
Qed.

Lemma apart_delete_payment (d : DB) (k : Z) :
  apart d -> free_payment_key k ->
  apart (with_payments (delete k (payments d)) d).
Proof.
  intros [Hi Hp] Hk. split; [exact Hi|]. intros i x Hx. cbn.
  destruct (decide (i = k)) as [->|Hne].
  - rewrite lookup_delete_eq. split; [discriminate|].
    intros H0. exfalso. exact (Hx (Hk x H0)).
  - rewrite lookup_delete_ne by congruence. now apply Hp.
Qed.

Lemma fresh_invoice_key_free (d : DB) :
  apart d -> free_invoice_key (fresh (dom (invoices d))).
Proof.
  intros [Hi _] r Hr. destruct (own_dec (lease_landlord db0 (lease r)))
    as [H|N]; [exact H|].
  exfalso. apply (Hi _ _ N) in Hr.
  apply (is_fresh (dom (invoices d))). apply elem_of_dom. eauto.
Qed.

Lemma fresh_payment_key_free (d : DB) :
  apart d -> free_payment_key (fresh (dom (payments d))).
Proof.
  intros [_ Hp] p Hr.
  destruct (own_dec (invoice_landlord db0 (invoice p))) as [H|N]; [exact H|].
  exfalso. apply (Hp _ _ N) in Hr.
  apply (is_fresh (dom (payments d))). apply elem_of_dom. eauto.
Qed.

Lemma stored_invoice_own (d : DB) (i : Z) (r : InvoiceRow) :
  apart d -> free_invoice_key i -> invoices d !! i = Some r ->
  own_lease (lease r).
Proof.
  intros [Hi _] Hk Hr.
  destruct (own_dec (lease_landlord db0 (lease r))) as [H|N]; [exact H|].
  apply (Hi _ _ N) in Hr. exact (Hk r Hr).
Qed.

Lemma iso_ret {A} (R : A -> Prop) (a : A) (d : DB) : R a -> iso R (ret a) d.
Proof. intros Ha Hd. split; [exact Hd|]. now intros a' [= <-]. Qed.

Lemma iso_raise {A} (R : A -> Prop) (e : exn) (d : DB) : iso R (raise e) d.
Proof. intros Hd. split; [exact Hd|]. discriminate. Qed.

Lemma iso_bind {A B} (R : A -> Prop) (R' : B -> Prop) (m : M A)
    (k : A -> M B) (d : DB) :
  iso R m d -> (forall a d', R a -> iso R' (k a) d') -> iso R' (bind m k) d.
Proof.
  intros Hm Hk Hd. destruct (Hm Hd) as [Hd' Ha]. unfold bind.
  destruct (m d) as [[a|e] d']; cbn [fst snd] in *.
  - apply Hk; [now apply Ha | exact Hd'].
  - split; [exact Hd'|]. discriminate.
Qed.

Lemma iso_get_bind {B} (R : B -> Prop) (k : DB -> M B) (d : DB) :
  iso R (k d) d -> iso R (bind get_db k) d.
Proof. intros Hk Hd. unfold bind, get_db. now apply Hk. Qed.

Lemma iso_put (R : unit -> Prop) (d' d : DB) :
  (apart d -> apart d') -> R tt -> iso R (put_db d') d.
Proof.
  intros Hd' Ht Hd. split; [now apply Hd'|]. now intros [] _.
Qed.

Lemma iso_atomic_view (m : M response) (d : DB) :
  iso (fun _ => True) m d -> iso (fun _ => True) (atomic_view m) d.
Proof.
  intros Hm Hd. destruct (Hm Hd) as [Hd' _]. unfold atomic_view.
  destruct (m d) as [[a|e] d']; cbn [fst snd] in *; split; auto.
Qed.

Lemma iso_any {A} (R : A -> Prop) (m : M A) (d : DB) :
  iso R m d -> iso (fun _ => True) m d.
Proof. intros Hm Hd. destruct (Hm Hd) as [Hd' _]. split; auto. Qed.

Lemma iso_decimal_arg (x : option Decimal) (d : DB) :
  iso (fun _ => True) (decimal_arg x) d.
Proof.
  destruct x; [now apply iso_ret | apply iso_raise].
Qed.

Lemma iso_invoice_save env uid self d :
  good_inv self -> iso good_inv (Invoice.save env uid self) d.
Proof.
  intros [Hl Hk] Hd. rewrite invoice_save_eq.
  assert (Hkey : free_invoice_key (saved_key self d)).
  { unfold saved_key. destruct (pk self) as [k|];
      [now apply Hk | now apply fresh_invoice_key_free]. }
  assert (Hlease : own_lease (lease (Invoice.pre_save env uid (fields self)))).
  { destruct (pre_save_total env uid (fields self))
      as (_ & _ & _ & _ & _ & _ & _ & -> & _). exact Hl. }
  destruct (decide _); cbn [fst snd].
  - split; [now apply apart_put_invoice|].
    intros a [= <-]. split; [exact Hlease|].
    cbn [pk]. now intros i [= <-].
  - split; [exact Hd|]. discriminate.
Qed.

Lemma iso_invoice_create env uid l month due rent water garbage other d :
  own_lease l ->
  iso (fun _ => True)
    (Invoice_create env uid l month due rent water garbage other) d.
Proof.
  intros Hl. unfold Invoice_create. destruct due; [|apply iso_raise].
  apply (iso_any good_inv). apply iso_invoice_save.
  split; [exact Hl|]. cbn [pk]. discriminate.
Qed.

Lemma iso_the_invoice self d :
  good_pay self ->
  iso (fun held => good_inv (fst held) /\ good_pay (snd held))
    (Payment.the_invoice self) d.
Proof.
  intros (Hk & Hi & Ho) Hd. unfold Payment.the_invoice.
  destruct (invoice_obj self) as [inv|] eqn:E.
  - split; [exact Hd|]. intros a [= <-]. cbn [fst snd].
    split; [now apply Ho|]. split; [exact Hk|]. split; [exact Hi|].
    intros inv0 E0. apply Ho. congruence.
  - unfold Invoice.get, bind, get_db, ret, raise.
    destruct (invoices d !! invoice (pay_fields self)) as [r|] eqn:Er;
      cbn [fst snd]; (split; [exact Hd|]); [|discriminate].
    assert (Hg : good_inv (Instance (Some (invoice (pay_fields self))) r)).
    { split; cbn [fields pk].
      - apply (stored_invoice_own d (invoice (pay_fields self)));
          [exact Hd | now apply own_invoice_free | exact Er].
      - intros i [= <-]. now apply own_invoice_free. }
    intros a [= <-]. cbn [fst snd]. split; [exact Hg|].
    split; [exact Hk|]. split; [exact Hi|].
    cbn [invoice_obj Payment.with_invoice]. now intros inv [= <-].
Qed.

Lemma iso_payment_save env self d :
  good_pay self -> iso good_pay (Payment.save env self) d.
Proof.
  intros Hself. unfold Payment.save.
  apply (iso_bind (fun _ => True)).
  { destruct (pay_pk self) as [k|]; [|now apply iso_ret].
    apply iso_get_bind. destruct (payments d !! k);
      [now apply iso_ret | apply iso_raise]. }
  intros old_status d1 _. apply (iso_bind good_pay).
  { destruct Hself as (Hk & Hi & Ho). intros Hd.
    unfold Payment.super_save, bind, get_db, put_db, ret.
    destruct (pay_pk self) as [k|] eqn:E; cbn [fst snd].
    - split; [apply apart_put_payment; auto|].
      intros a [= <-]. split; [|split]; auto.
      intros k' Hk'. apply Hk. congruence.
    - split; [apply apart_put_payment; auto using fresh_payment_key_free|].
      intros a [= <-]. split; [|split]; auto.
      cbn [pay_pk]. intros k' [= <-]. now apply fresh_payment_key_free. }
  intros self' d2 Hself'. destruct (decide _); [|now apply iso_ret].
  apply (iso_bind (fun held => good_inv (fst held) /\ good_pay (snd held)));
    [now apply iso_the_invoice|].
  intros [inv self''] d3 [Hinv Hpay]. cbn [fst snd] in *.
  apply (iso_bind good_inv).
  { apply iso_invoice_save. destruct Hinv as [Hl Hk]. split; [exact Hl|].
    exact Hk. }
  intros inv' d4 Hinv'. apply iso_ret.
  destruct Hpay as (Hk & Hi & Ho). split; [exact Hk|]. split; [exact Hi|].
  cbn [invoice_obj Payment.with_invoice]. now intros i [= <-].
Qed.

Lemma iso_confirm_payment env self d :
  good_pay self -> iso good_pay (Payment.confirm_payment env self) d.
Proof.
  intros Hself. unfold Payment.confirm_payment.
  destruct (decide _); [|now apply iso_ret].
  apply iso_payment_save. exact Hself.
Qed.

Ltac isolate :=
  repeat match goal with
    | |- iso _ (ret _) _ => apply iso_ret; try exact I
    | |- iso _ (raise _) _ => apply iso_raise
    | |- iso _ (bind get_db _) _ => apply iso_get_bind; cbv beta
    | |- iso _ (bind (decimal_arg _) _) _ =>
        apply (iso_bind (fun _ => True));
        [apply iso_decimal_arg | intros ? ? _]
    | |- iso _ (atomic_view _) _ => apply iso_atomic_view
    | |- iso _ (if ?b then _ else _) _ => destruct b
    | |- iso _ (match ?x with _ => _ end) _ => destruct x eqn:?
    end.

Ltac same_row :=
  unfold free_invoice_key, free_payment_key; intros;
  repeat match goal with
    | H1 : ?x = Some ?a, H2 : ?x = Some ?b |- _ =>
        rewrite H1 in H2; injection H2 as <-
    end;
  unfold own_lease, own_invoice; try assumption.

Lemma iso_loop env month due ls created skipped d :
  Forall (fun kl => own_lease (fst kl)) ls ->
  iso (fun _ => True)
    (GenerateMonthlyInvoicesView.loop env month due ls created skipped) d.
Proof.
  intros Hls. revert created skipped d.
  induction Hls as [|[k l] rest Hk Hrest IH]; intros created skipped d;
    cbn [GenerateMonthlyInvoicesView.loop]; isolate.
  - apply IH.
  - apply (iso_bind (fun _ => True));
      [now apply iso_invoice_create | intros ? ? _; apply IH].
Qed.

Lemma iso_handle (env : Env) (rq : request) :
  requester rq = Some req -> iso (fun _ => True) (handle env rq) db0.
Proof.
  destruct rq; cbn [requester]; intros [= ->]; cbn [handle].
  - unfold InvoiceCreateView.post. isolate.
    apply (iso_bind (fun _ => True));
      [now apply iso_invoice_create | intros ? ? _; isolate].
  - unfold InvoiceUpdateView.post. isolate.
    apply (iso_bind good_inv); [|intros ? ? _; isolate].
    apply iso_invoice_save. split; cbn [fields pk]; [assumption|].
    intros ? [= <-]. same_row.
  - unfold InvoiceDeleteView.post. isolate.
    apply (iso_bind (fun _ => True)); [|intros ? ? _; isolate].
    apply iso_put; [|exact I]. intros Hd. apply apart_delete_invoice;
      [exact Hd|]. same_row.
  - unfold GenerateMonthlyInvoicesView.post. isolate.
    apply (iso_bind (fun _ => True)); [|intros ? ? _; isolate].
    apply iso_loop. apply Forall_forall. intros [k l] Hin. cbn [fst].
    now apply active_leases_spec in Hin as (_ & H & _).
  - unfold RecordManualPaymentView.post. isolate.
    all: apply (iso_bind good_pay); [|
      intros payment ? Hpay;
      apply (iso_bind (fun held => good_inv (fst held) /\ good_pay (snd held)));
      [now apply iso_the_invoice|];
      intros held ? [Hinv _];
      apply (iso_bind good_inv);
      [apply iso_invoice_save; exact Hinv | intros ? ? _; isolate] ].
    all: apply iso_payment_save; split; [discriminate|];
      cbn [pay_fields invoice RecordManualPaymentView.new_payment invoice_obj].
    all: split;
      [unfold own_invoice;
       match goal with
       | H : invoices db0 !! _ = Some _ |- _ =>
           rewrite (invoice_landlord_row _ _ _ H)
       end; assumption|].
    all: intros inv [= <-]; split; cbn [fields pk]; [assumption|].
    all: intros ? [= <-]; same_row.
  - unfold ConfirmPaymentView.post. isolate.
    apply (iso_bind good_pay); [|intros ? ? _; isolate].
    apply iso_confirm_payment. split; [|split]; cbn [Payment.fetched pay_pk
      pay_fields invoice_obj]; [|assumption|discriminate].
    intros ? [= <-]. same_row.
  - unfold DeletePaymentView.post. isolate.
    apply (iso_bind (fun _ => True)); [|intros ? ? _; isolate].
    apply iso_put; [|exact I]. intros Hd. apply apart_delete_payment;
      [exact Hd|]. same_row.
Qed.

End Isolation.

(** X11.  A request answered by a view of the landlord leaves the invoices
    and the payments of everyone else exactly as they were: an invoice on a
    lease that is not the requester's, and a payment for an invoice that is
    not the requester's, is stored after the request if and only if it was
    stored before, under the same key. *)
Theorem other_landlords_untouched (env : Env) (rq : request) (req : Request)
    (db : DB) :
  requester rq = Some req ->
  (forall i r, ~ owned_by req (lease_landlord db (lease r)) ->
     (invoices (snd (handle env rq db)) !! i = Some r
      <-> invoices db !! i = Some r))
  /\ (forall k p, ~ owned_by req (invoice_landlord db (invoice p)) ->
     (payments (snd (handle env rq db)) !! k = Some p
      <-> payments db !! k = Some p)).
Proof.
  intros H.
  destruct (iso_handle req db env rq H (apart_start req db)) as [Ha _].
  exact Ha.
Qed.

Lemma other_landlords_untouched_witness :
  invoices
    (snd (handle env_nov (RecordManualPayment landlord_a (cash_form 1 700))
            sample_db)) !! 2
  = Some (invoice_of 2000 "INV-202610-BBBB0002" 0 0 overdue).
Proof.
  apply (proj1 (other_landlords_untouched env_nov
                  (RecordManualPayment landlord_a (cash_form 1 700))
                  landlord_a sample_db eq_refl)).
  - vm_compute. intros [_ H]. discriminate.
  - reflexivity.
Defined.

(** ** The callback and the payments it may touch *)

Lemma bind_get_eq {B} (k : DB -> M B) (db : DB) :
  bind get_db k db = k db db.
Proof. reflexivity. Qed.

Lemma bind_keeps_payments {A B} (m : M A) (k : A -> M B) (db : DB) :
  (forall a d, payments (snd (k a d)) = payments d) ->
  payments (snd (bind m k db)) = payments (snd (m db)).
Proof.
  intros Hk. unfold bind. destruct (m db) as [[a|e] d]; [apply Hk|reflexivity].
Qed.

Lemma callback_payments (accepts : string -> bool) (env : Env)
    (body : option Callback) (db : DB) :
  snd (MpesaCallbackView.post accepts env body db) = db
  \/ exists k0 r0 r',
       payments db !! k0 = Some r0 /\ payment_status r0 = awaiting
       /\ payments (snd (MpesaCallbackView.post accepts env body db))
          = <[k0 := r']> (payments db).
Proof.
  assert (Hex : forall r m, snd (except r m db) = snd (m db)).
  { intros r m. unfold except. now destruct (m db) as [[a|e] d]. }
  unfold MpesaCallbackView.post. rewrite Hex.
  destruct body as [cb|]; [|now left].
  destruct (MpesaCallbackView.metadata accepts (Item cb) JNull JNull)
    as [[receipt phone]|e]; [|now left].
  rewrite bind_get_eq.
  destruct (MpesaCallbackView.find_payment db
              (MpesaCallbackView.phone_suffix phone)) as [[k0 r0]|] eqn:Hfind;
    [|now left].
  apply find_payment_stored in Hfind as [Hk [_ Hs]]. cbn [snd] in Hs.
  destruct (decide (ResultCode cb = JInt 0)).
  - destruct (char_value receipt) as [rc|]; [|now left].
    right. eexists k0, r0, _. split; [exact Hk|]. split; [exact Hs|].
    rewrite bind_keeps_payments.
    + apply (payment_save_payments env _ db k0 r0); [reflexivity|exact Hk].
    + intros p d. rewrite bind_keeps_payments.
      * now rewrite the_invoice_db.
      * intros held d1. rewrite bind_keeps_payments.
        -- apply invoice_save_payments.
        -- reflexivity.
  - right. eexists k0, r0, _. split; [exact Hk|]. split; [exact Hs|].
    rewrite bind_keeps_payments.
    + apply (payment_save_payments env _ db k0 r0); [reflexivity|exact Hk].
    + reflexivity.
Qed.

(** X12.  The M-Pesa callback never adds or removes a payment and never
    changes a payment that is not pending; it answers OK or ERROR, whatever
    it is sent; and when no payment is pending it writes nothing at all. *)
Theorem callback_touches_pending_only (accepts : string -> bool) (env : Env)
    (body : option Callback) (db : DB) :
  (forall k, payments (snd (MpesaCallbackView.post accepts env body db)) !! k
             = None
             <-> payments db !! k = None)
  /\ (forall k r, payments db !! k = Some r -> payment_status r <> awaiting ->
        payments (snd (MpesaCallbackView.post accepts env body db)) !! k
        = Some r)
  /\ (fst (MpesaCallbackView.post accepts env body db) = Return CallbackOK
      \/ fst (MpesaCallbackView.post accepts env body db)
         = Return CallbackERROR)
  /\ ((forall k r, payments db !! k = Some r -> payment_status r <> awaiting)
      -> snd (MpesaCallbackView.post accepts env body db) = db).
Proof.
  pose proof (callback_payments accepts env body db) as H.
  split; [|split; [|split]].
  - intros k. destruct H as [->|(k0 & r0 & r' & Hk & _ & ->)]; [reflexivity|].
    destruct (decide (k = k0)) as [->|Hne].
    + rewrite lookup_insert_eq, Hk. split; discriminate.
    + now rewrite lookup_insert_ne by congruence.
  - intros k r Hr Hs.
    destruct H as [->|(k0 & r0 & r' & Hk & Hs0 & ->)]; [exact Hr|].
    rewrite lookup_insert_ne; [exact Hr|]. intros <-. congruence.
  - clear H. unfold MpesaCallbackView.post, except.
    destruct body as [cb|]; [|now right].
    destruct (MpesaCallbackView.metadata accepts (Item cb) JNull JNull)
      as [[receipt phone]|e]; [|now right].
    rewrite bind_get_eq.
    destruct (MpesaCallbackView.find_payment db _) as [[k0 r0]|]; [|now left].
    destruct (decide (ResultCode cb = JInt 0)).
    + destruct (char_value receipt) as [rc|]; [|now right].
      unfold bind, ret.
      destruct (Payment.save _ _ _) as [[p|e1] d1]; [|now right].
      destruct (Payment.the_invoice _ _) as [[held|e2] d2]; [|now right].
      destruct (Invoice.save _ _ _ _) as [[i|e3] d3]; [now left|now right].
    + unfold bind, ret.
      destruct (Payment.save _ _ _) as [[p|e1] d1]; [now left|now right].
  - intros Hnone. destruct H as [->|(k0 & r0 & r' & Hk & Hs0 & _)];
      [reflexivity|]. exfalso. exact (Hnone k0 r0 Hk Hs0).
Qed.

Lemma callback_touches_pending_only_witness :
  status_of
    (snd (MpesaCallbackView.post plain_digits env_later
            (Some (callback_for 0 [receipt_item; phone_item])) confirmed_db))
    0
  = Some confirmed.
Proof.
  destruct (callback_touches_pending_only plain_digits env_later
              (Some (callback_for 0 [receipt_item; phone_item])) confirmed_db)
    as (_ & H & _).
  unfold status_of.
  destruct (payments confirmed_db !! 0) as [r|] eqn:E;
    [|vm_compute in E; discriminate].
  assert (Hs : payment_status r = confirmed).
  { vm_compute in E. injection E as <-. reflexivity. }
  rewrite (H 0 r E); [now rewrite <- Hs|]. rewrite Hs. discriminate.
Defined.

(** ** The phone number of an M-Pesa payment *)

Lemma remove_char_in (a c : ascii) (s : string) :
  In a (list_ascii_of_string (remove_char c s)) ->
  In a (list_ascii_of_string s) /\ a <> c.
Proof.
  induction s as [|b r IH]; cbn [remove_char list_ascii_of_string].
  - intros [].
  - destruct (Ascii.eqb b c) eqn:E.
    + intros H. destruct (IH H) as [H1 H2]. split; [now right|exact H2].
    + intros [<-|H].
      * split; [now left|]. intros ->. now rewrite Ascii.eqb_refl in E.
      * destruct (IH H) as [H1 H2]. split; [now right|exact H2].
Qed.

Lemma remove_char_id (c : ascii) (s : string) :
  ~ In c (list_ascii_of_string s) -> remove_char c s = s.
Proof.
  induction s as [|b r IH]; cbn [remove_char list_ascii_of_string];
    [reflexivity|].
  intros H. destruct (Ascii.eqb b c) eqn:E.
  - apply Ascii.eqb_eq in E. exfalso. apply H. now left.
  - f_equal. apply IH. intros Hin. apply H. now right.
Qed.

Lemma prefix_empty (s : string) : String.prefix "" s = true.
Proof. now destruct s. Qed.

Lemma sanitize_fixed (s : string) :
  String.prefix "254" s = true ->
  ~ In " "%char (list_ascii_of_string s) ->
  ~ In "+"%char (list_ascii_of_string s) ->
  InitiateMpesaPaymentView.sanitize s = s.
Proof.
  intros Hp Hs Hplus. unfold InitiateMpesaPaymentView.sanitize.
  rewrite (remove_char_id " " s Hs), (remove_char_id "+" s Hplus), Hp.
  destruct s as [|a r]; [discriminate|].
  cbn [String.prefix] in *.
  destruct (ascii_dec "2" a) as [<-|]; [|discriminate].
  destruct (ascii_dec "0" "2") as [E|_]; [discriminate E|reflexivity].
Qed.

(** X13.  The phone number stored with an M-Pesa payment always starts
    with 254 and holds no space and no plus sign, whatever was posted; a
    number already in that form is stored as it is. *)
Theorem sanitized_phone_form (phone_number : string) :
  String.prefix "254" (InitiateMpesaPaymentView.sanitize phone_number) = true
  /\ ~ In " "%char
         (list_ascii_of_string
            (InitiateMpesaPaymentView.sanitize phone_number))
  /\ ~ In "+"%char
         (list_ascii_of_string
            (InitiateMpesaPaymentView.sanitize phone_number))
  /\ InitiateMpesaPaymentView.sanitize
       (InitiateMpesaPaymentView.sanitize phone_number)
     = InitiateMpesaPaymentView.sanitize phone_number.
Proof.
  assert (H : String.prefix "254"
                (InitiateMpesaPaymentView.sanitize phone_number) = true
              /\ forall c, c = " "%char \/ c = "+"%char ->
                   ~ In c (list_ascii_of_string
                             (InitiateMpesaPaymentView.sanitize phone_number))).
  { unfold InitiateMpesaPaymentView.sanitize.
    set (q := remove_char "+" (remove_char " " phone_number)).
    assert (Hq : forall c, c = " "%char \/ c = "+"%char ->
                           ~ In c (list_ascii_of_string q)).
    { intros c Hc Hin. apply remove_char_in in Hin as [Hin Hne].
      apply remove_char_in in Hin as [_ Hne']. destruct Hc; contradiction. }
    destruct (String.prefix "0" q) eqn:E0.
    - destruct q as [|a r]; [discriminate|]. split; [apply prefix_empty|].
      intros c Hc Hin. apply (Hq c Hc). right.
      cbn in Hin. destruct Hin as [<-|[<-|[<-|Hin]]];
        [destruct Hc; discriminate..|exact Hin].
    - destruct (String.prefix "254" q) eqn:E; cbn [negb].
      + split; [exact E|exact Hq].
      + split; [apply prefix_empty|].
        intros c Hc Hin. apply (Hq c Hc).
        cbn in Hin. destruct Hin as [<-|[<-|[<-|Hin]]];
          [destruct Hc; discriminate..|exact Hin]. }
  destruct H as [Hp Hc]. split; [exact Hp|]. split; [apply Hc; now left|].
  split; [apply Hc; now right|].
  apply sanitize_fixed; [exact Hp|apply Hc; now left|apply Hc; now right].
Qed.

Lemma initiate_eq (env : Env) (req : Request) (form : MpesaForm) (db : DB) :
  InitiateMpesaPaymentView.post env req form db =
  match ms_invoice_id form with
  | None => (Return MpesaBadRequest, db)
  | Some i =>
      if bool_decide (ms_phone_number form = ""%string)
         || is_blank (ms_amount form)
      then (Return MpesaBadRequest, db)
      else
        match invoices db !! i with
        | None => (Return MpesaError, db)
        | Some ir =>
            match ms_amount form with
            | Number a =>
                if Qle_bool a 0 then (Return MpesaBadRequest, db)
                else
                  (Return (MpesaInitiated (fresh (dom (payments db)))),
                   with_payments
                     (<[fresh (dom (payments db)) :=
                          InitiateMpesaPaymentView.new_payment env i a
                            (InitiateMpesaPaymentView.sanitize
                               (ms_phone_number form))]> (payments db)) db)
            | _ => (Return MpesaBadRequest, db)
            end
        end
  end.
Proof.
  unfold InitiateMpesaPaymentView.post.
  destruct (ms_invoice_id form) as [i|]; [|reflexivity].
  destruct (bool_decide _ || is_blank _); [reflexivity|].
  unfold atomic_view, except, Invoice.get, bind at 1 2. unfold get_db at 1.
  cbn iota beta.
  destruct (invoices db !! i) as [ir|]; [|reflexivity].
  unfold ret at 1. cbn iota beta.
  destruct (ms_amount form) as [| |a]; try reflexivity.
  destruct (Qle_bool a 0); [reflexivity|].
  unfold bind. rewrite payment_create_unconfirmed by discriminate.
  reflexivity.
Qed.



(** ** From the initiation to the callback *)

Lemma lower_substring (n m : nat) (s : string) :
  lower (String.substring n m s) = String.substring n m (lower s).
Proof.
  revert n m. induction s as [|a r IH]; intros n m.
  - destruct n, m; reflexivity.
  - destruct n as [|n]; [destruct m as [|m]|]; cbn [String.substring lower].
    + reflexivity.
    + f_equal. apply IH.
    + apply IH.
Qed.

Lemma prefix_substring (m : nat) (s : string) :
  String.prefix (String.substring 0 m s) s = true.
Proof.
  revert m. induction s as [|a r IH]; intros m.
  - destruct m; reflexivity.
  - destruct m as [|m]; cbn [String.substring String.prefix]; [reflexivity|].
    destruct (ascii_dec a a) as [_|N]; [apply IH|contradiction].
Qed.

Lemma contains_substring (n m : nat) (s : string) :
  contains (String.substring n m s) s = true.
Proof.
  revert n. induction s as [|a r IH]; intros n.
  - destruct n, m; reflexivity.
  - destruct n as [|n].
    + cbn [contains]. now rewrite prefix_substring.
    + cbn [String.substring contains]. rewrite IH. apply orb_true_r.
Qed.

Lemma icontains_last_chars (n : nat) (s : string) :
  icontains (last_chars n s) s = true.
Proof.
  unfold icontains, last_chars. rewrite lower_substring.
  assert (E : String.length s = String.length (lower s)).
  { induction s as [|a r IH]; [reflexivity|]. cbn. now rewrite IH. }
  rewrite E. apply contains_substring.
Qed.

(** X15.  The payment stored by an initiation is the one the callback
    finds when it carries the same phone number in the 254 form, provided
    the payments that were pending before are older: the lookup by the last
    nine digits of the number, among the pending payments, most recent
    first, returns the new payment. *)
Theorem initiated_payment_found (env : Env) (req : Request) (form : MpesaForm)
    (db : DB) (i : Z) (a : Decimal) (phone : json) :
  ms_invoice_id form = Some i -> is_Some (invoices db !! i) ->
  ms_phone_number form <> ""%string ->
  ms_amount form = Number a -> (0 < a)%Q ->
  truthy phone = true ->
  str phone = InitiateMpesaPaymentView.sanitize (ms_phone_number form) ->
  (forall k r, payments db !! k = Some r -> payment_status r = awaiting ->
               created_at r < now env) ->
  exists k,
    fst (InitiateMpesaPaymentView.post env req form db)
    = Return (MpesaInitiated k)
    /\ MpesaCallbackView.find_payment
         (snd (InitiateMpesaPaymentView.post env req form db))
         (MpesaCallbackView.phone_suffix phone)
       = Some (k, InitiateMpesaPaymentView.new_payment env i a
                    (InitiateMpesaPaymentView.sanitize
                       (ms_phone_number form))).
Proof.
  intros Hi [ir Hir] Hphone Ha Hpos Htruthy Hstr Holder.
  rewrite initiate_eq, Hi, Hir, Ha.
  rewrite bool_decide_eq_false_2 by exact Hphone. cbn [is_blank orb].
  apply Qle_bool_false in Hpos. rewrite Hpos. cbn [fst snd].
  set (k := fresh (dom (payments db))).
  set (row := InitiateMpesaPaymentView.new_payment env i a _).
  assert (Hfresh : payments db !! k = None)
    by apply not_elem_of_dom, is_fresh.
  exists k. split; [reflexivity|].
  unfold MpesaCallbackView.find_payment. cbn [payments with_payments].
  set (suffix := MpesaCallbackView.phone_suffix phone).
  set (l := filter (MpesaCallbackView.matches suffix)
              (map_to_list (<[k := row]> (payments db)))).
  assert (Hin : (k, row) ∈ l).
  { apply list_elem_of_filter. split.
    - split; [|reflexivity]. cbn [snd]. unfold suffix,
        MpesaCallbackView.phone_suffix. rewrite Htruthy, Hstr.
      apply icontains_last_chars.
    - apply elem_of_map_to_list. apply lookup_insert_eq. }
  pose proof (most_recent_spec l) as Hspec.
  destruct (MpesaCallbackView.most_recent l) as [[k' r']|];
    [|rewrite Hspec in Hin; inversion Hin].
  destruct Hspec as [Hx Hmax]. specialize (Hmax _ Hin). cbn [snd] in Hmax.
  apply list_elem_of_filter in Hx as [[_ Hs] Hx]. cbn [snd] in Hs.
  apply elem_of_map_to_list in Hx.
  destruct (decide (k' = k)) as [->|Hne].
  - rewrite lookup_insert_eq in Hx. now injection Hx as <-.
  - rewrite lookup_insert_ne in Hx by congruence.
    specialize (Holder k' r' Hx Hs). cbn in Hmax. lia.
Qed.

Lemma initiated_payment_found_witness :
  MpesaCallbackView.find_payment
    (snd (InitiateMpesaPaymentView.post env_later landlord_b
            (mpesa_form 2 "0798765432" 700) pending_db))
    (MpesaCallbackView.phone_suffix (JStr "254798765432"))
  = Some (1, InitiateMpesaPaymentView.new_payment env_later 2 700
               "254798765432").
Proof.
  destruct (initiated_payment_found env_later landlord_b
              (mpesa_form 2 "0798765432" 700) pending_db 2 700
              (JStr "254798765432"))
    as (k & Hk & Hfound).
  - reflexivity.
  - vm_compute. eauto.
  - discriminate.
  - reflexivity.
  - reflexivity.
  - reflexivity.
  - reflexivity.
  - intros k r Hr Hs.
    assert (H : map_Forall (fun _ r => created_at r < now env_later)
                  (payments pending_db))
      by (apply (bool_decide_unpack _); vm_compute; exact I).
    exact (H k r Hr).
  - assert (E : k = 1) by (vm_compute in Hk; congruence).
    rewrite E in Hfound. exact Hfound.
Defined.

(** ** The other methods of [Invoice] ([invoicing/models.py])

    The two meter readings of an invoice are columns no view writes; they
    are given to [calculate_water_amount] as arguments. *)

Module InvoiceMethods.

Definition is_paid (self : InvoiceRow) : bool :=
  bool_decide (status self = paid).

Definition is_overdue (today : date) (self : InvoiceRow) : bool :=
  bool_decide (status self = overdue)
  || ((due_date self <? today) && negb (is_paid self)).

Definition days_overdue (today : date) (self : InvoiceRow) : Z :=
  if is_overdue today self then today - due_date self else 0.

Definition calculate_water_amount (self : InvoiceRow)
    (water_meter_reading previous_meter_reading : option Decimal)
  : M Decimal :=
  db <- get_db ;;
  match leases db !! lease self with
  | None => raise DoesNotExist
  | Some l =>
      match units db !! lease_unit l with
      | None => raise DoesNotExist
      | Some unit =>
          match water_billing_type unit with
          | fixed => ret (water_fixed_amount unit)
          | metered =>
              match water_meter_reading, previous_meter_reading with
              | Some current, Some previous =>
                  ret ((current - previous) * water_rate_per_unit unit)%Q
              | _, _ => ret 0%Q
              end
          | included => ret 0%Q
          end
      end
  end.


End InvoiceMethods.

(** X16.  For an invoice as [save] writes it, on the day of the save and
    on every later day: the invoice is overdue exactly when its due date is
    past and it is not paid; its days overdue are never negative, and are
    positive exactly when it is overdue.  (A pending invoice saved today
    becomes overdue by the passing of time alone, without being saved.) *)
Theorem overdue_after_save (env : Env) (uid : string) (r : InvoiceRow)
    (day : date) :
  today env <= day ->
  (InvoiceMethods.is_overdue day (Invoice.pre_save env uid r) = true
   <-> due_date r < day /\ status (Invoice.pre_save env uid r) <> paid)
  /\ 0 <= InvoiceMethods.days_overdue day (Invoice.pre_save env uid r)
  /\ (0 < InvoiceMethods.days_overdue day (Invoice.pre_save env uid r)
      <-> InvoiceMethods.is_overdue day (Invoice.pre_save env uid r) = true)
  /\ (InvoiceMethods.is_paid (Invoice.pre_save env uid r) = true
      -> InvoiceMethods.days_overdue day (Invoice.pre_save env uid r) = 0).
Proof.
  intros Hday.
  destruct (pre_save_total env uid r) as (_ & _ & _ & _ & _ & _ & Hdue & _).
  pose proof (pre_save_status env uid r) as Hst.
  assert (Hover : status (Invoice.pre_save env uid r) = overdue ->
                  due_date r < day).
  { rewrite Hst. unfold Invoice.derive_status.
    destruct (Qle_bool _ _); [discriminate|].
    destruct (Qlt_bool _ _); [discriminate|].
    destruct (due_date r <? today env) eqn:E; [|discriminate].
    apply Z.ltb_lt in E. lia. }
  unfold InvoiceMethods.days_overdue, InvoiceMethods.is_overdue,
    InvoiceMethods.is_paid.
  rewrite Hdue. clear Hst Hdue.
  destruct (status (Invoice.pre_save env uid r)) eqn:Es;
    cbn [bool_decide decide_rel negb orb andb];
    rewrite ?bool_decide_eq_true_2, ?bool_decide_eq_false_2 by congruence;
    cbn [negb orb andb]; rewrite ?andb_true_r, ?andb_false_r;
    try (specialize (Hover eq_refl));
    (destruct (due_date r <? day) eqn:E;
     [apply Z.ltb_lt in E | apply Z.ltb_ge in E]);
    repeat split; intros; try congruence; try lia; try tauto;
    try (destruct H; congruence).
Qed.

Lemma overdue_after_save_witness :
  0 <= InvoiceMethods.days_overdue 40
         (Invoice.pre_save env_nov "AAAA0001" (overdue_example 0)).
Proof.
  refine (proj1 (proj2 (overdue_after_save env_nov "AAAA0001"
                          (overdue_example 0) 40 _))).
  vm_compute. discriminate.
Defined.





(** X18.  The water amount an invoice computes and the water charge of its
    unit agree for a unit billed a fixed amount or with water included, and
    for a metered unit when the previous reading is the last reading of the
    unit and the meter has not gone back.  When the meter reading is below
    the previous one the unit charges nothing, and the invoice computes a
    negative amount; without both readings the invoice computes zero. *)
Theorem water_amount_and_charge (self : InvoiceRow) (db : DB) (l : LeaseRow)
    (unit : UnitRow) (current previous : Decimal) :
  leases db !! lease self = Some l -> units db !! lease_unit l = Some unit ->
  (water_billing_type unit <> metered ->
   InvoiceMethods.calculate_water_amount self (Some current) (Some previous)
     db
   = (Return (Unit.get_water_charge unit (Some current)), db))
  /\ (water_billing_type unit = metered ->
      previous = last_water_reading unit -> (previous <= current)%Q ->
      InvoiceMethods.calculate_water_amount self (Some current)
        (Some previous) db
      = (Return (Unit.get_water_charge unit (Some current)), db))
  /\ (water_billing_type unit = metered ->
      previous = last_water_reading unit -> (current < previous)%Q ->
      (0 < water_rate_per_unit unit)%Q ->
      exists x,
        InvoiceMethods.calculate_water_amount self (Some current)
          (Some previous) db = (Return x, db)
        /\ (x < 0)%Q
        /\ (Unit.get_water_charge unit (Some current) == 0)%Q)
  /\ (water_billing_type unit = metered ->
      InvoiceMethods.calculate_water_amount self None (Some previous) db
      = (Return 0%Q, db)
      /\ InvoiceMethods.calculate_water_amount self (Some current) None db
         = (Return 0%Q, db)).
Proof.
  intros Hl Hu.
  unfold InvoiceMethods.calculate_water_amount, bind, get_db, ret.
  rewrite Hl, Hu. unfold Unit.get_water_charge.
  split; [|split; [|split]].
  - destruct (water_billing_type unit); [reflexivity|contradiction|reflexivity].
  - intros -> -> Hle.
    assert (E : Qlt_bool (current - last_water_reading unit) 0 = false).
    { apply Qlt_bool_false. lra. }
    now rewrite E.
  - intros -> -> Hlt Hrate. eexists. split; [reflexivity|]. split.
    + assert (H : (current - last_water_reading unit < 0)%Q) by lra.
      assert (H0 : (0 < (last_water_reading unit - current)
                        * water_rate_per_unit unit)%Q).
      { apply Qmult_lt_0_compat; [lra|exact Hrate]. }
      assert (E : ((current - last_water_reading unit)
                   * water_rate_per_unit unit
                   == - ((last_water_reading unit - current)
                         * water_rate_per_unit unit))%Q) by ring.
      rewrite E. lra.
    + assert (E : Qlt_bool (current - last_water_reading unit) 0 = true).
      { apply Qlt_bool_iff. lra. }
      rewrite E. ring.
  - intros ->. split; reflexivity.
Qed.

Lemma water_amount_and_charge_witness :
  exists x,
    InvoiceMethods.calculate_water_amount
      (invoice_of 2000 "INV-202610-BBBB0002" 0 0 overdue) (Some 90%Q)
      (Some 100%Q) sample_db = (Return x, sample_db)
    /\ (x < 0)%Q
    /\ (Unit.get_water_charge unit_b (Some 90%Q) == 0)%Q.
Proof.
  destruct (water_amount_and_charge
              (invoice_of 2000 "INV-202610-BBBB0002" 0 0 overdue) sample_db
              (lease_of 200 7 9000) unit_b 90 100 eq_refl eq_refl)
    as (_ & _ & H & _).
  apply H; reflexivity.
Defined.

(** ** Water meter readings ([properties/models.py])

    The readings have a table of their own, passed beside the database; the
    date of the last reading of a unit is a column no charge depends on and
    is left out, as in [UnitRow]. *)

Record WaterReadingRow := {
  wr_unit : Z;
  reading_date : date;
  previous_reading : Decimal;
  current_reading : Decimal;
  consumption : Decimal;
  wr_amount : Decimal
}.

Definition with_units (t : gmap Z UnitRow) (db : DB) : DB :=
  {| properties := properties db; units := t; leases := leases db;
     invoices := invoices db; payments := payments db |}.

Definition set_last_water_reading (x : Decimal) (self : UnitRow) : UnitRow :=
  {| unit_property := unit_property self; monthly_rent := monthly_rent self;
     garbage_fee := garbage_fee self;
     water_billing_type := water_billing_type self;
     water_fixed_amount := water_fixed_amount self;
     water_rate_per_unit := water_rate_per_unit self;
     last_water_reading := x |}.

Module UnitMethods.

(** [self.lease.filter(status='active').exists()]. *)
Definition is_occupied (db : DB) (k : Z) : Prop :=
  map_Exists (fun _ l => lease_unit l = k /\ lease_status l = active)
    (leases db).

Global Instance is_occupied_dec db k : Decision (is_occupied db k).
Proof. unfold is_occupied. apply _. Defined.


End UnitMethods.

Module WaterReading.

(** [save] of a reading held under [key] ([None] for a new one): the
    reading as stored, and the table of the readings after it. *)
Definition save (key : option Z) (self : WaterReadingRow)
    (readings : gmap Z WaterReadingRow)
  : M (WaterReadingRow * gmap Z WaterReadingRow) :=
  let consumption := (current_reading self - previous_reading self)%Q in
  let consumption := if Qlt_bool consumption 0 then 0%Q else consumption in
  db <- get_db ;;
  match units db !! wr_unit self with
  | None => raise DoesNotExist
  | Some unit =>
      let amount := (consumption * water_rate_per_unit unit)%Q in
      let unit := set_last_water_reading (current_reading self) unit in
      put_db (with_units (<[wr_unit self := unit]> (units db)) db) ;;;
      let self :=
        {| wr_unit := wr_unit self; reading_date := reading_date self;
           previous_reading := previous_reading self;
           current_reading := current_reading self;
           consumption := consumption; wr_amount := amount |} in
      let k := match key with
               | Some k => k
               | None => fresh (dom readings)
               end in
      ret (self, <[k := self]> readings)
  end.

End WaterReading.



(** ** The bulk actions on invoices ([invoicing/admin.py]) *)

Lemma status_update_lookup (s : invoice_state) (queryset : list Z)
    (t : gmap Z InvoiceRow) (i : Z) :
  foldr (fun k t => alter (Invoice.set_status s) k t) t queryset !! i
  = if decide (i ∈ queryset) then Invoice.set_status s <$> t !! i
    else t !! i.
Proof.
  induction queryset as [|k rest IH]; cbn [foldr].
  - destruct (decide (i ∈ [])) as [H|_]; [|reflexivity].
    now apply elem_of_nil in H.
  - destruct (decide (k = i)) as [->|Hne].
    + rewrite lookup_alter_eq, IH.
      destruct (decide (i ∈ i :: rest)) as [_|N];
        [|exfalso; apply N; left].
      destruct (decide (i ∈ rest)); [|reflexivity].
      now destruct (t !! i).
    + rewrite lookup_alter_ne by exact Hne. rewrite IH.
      destruct (decide (i ∈ rest)) as [H|H];
        destruct (decide (i ∈ k :: rest)) as [H'|H']; try reflexivity.
      * exfalso. apply H'. now right.
      * exfalso. apply elem_of_cons in H' as [->|H']; contradiction.
Qed.

(** X20.  The action that marks invoices overdue writes the status on every
    selected invoice, paid or not and due or not, and nothing else: the
    amounts stay, the other invoices and the payments stay.  A marked
    invoice counts as overdue on every day, with a negative number of days
    before its due date; the next save of the invoice derives its status
    again, as if it had not been marked. *)
Theorem marked_overdue (queryset : list Z) (db : DB) :
  payments (snd (InvoiceAdmin.mark_as_overdue queryset db)) = payments db
  /\ (forall k, k ∉ queryset ->
        invoices (snd (InvoiceAdmin.mark_as_overdue queryset db)) !! k
        = invoices db !! k)
  /\ (forall k r, k ∈ queryset -> invoices db !! k = Some r ->
        exists r',
          invoices (snd (InvoiceAdmin.mark_as_overdue queryset db)) !! k
          = Some r'
          /\ status r' = overdue
          /\ amount_paid r' = amount_paid r
          /\ total_amount r' = total_amount r
          /\ (forall day, InvoiceMethods.is_overdue day r' = true)
          /\ (forall day, day < due_date r ->
                InvoiceMethods.days_overdue day r' < 0)
          /\ (forall env uid,
                Invoice.pre_save env uid r' = Invoice.pre_save env uid r)).
Proof.
  unfold InvoiceAdmin.mark_as_overdue, bind, get_db, put_db, ret.
  cbn [snd payments invoices with_invoices].
  split; [reflexivity|]. split.
  - intros k Hk. rewrite status_update_lookup.
    destruct (decide (k ∈ queryset)); [contradiction|reflexivity].
  - intros k r Hk Hr. exists (Invoice.set_status overdue r). split.
    + rewrite status_update_lookup, Hr.
      destruct (decide (k ∈ queryset)); [reflexivity|contradiction].
    + repeat split.
      * intros day Hday.
        unfold InvoiceMethods.days_overdue, InvoiceMethods.is_overdue.
        cbn [Invoice.set_status status due_date].
        rewrite bool_decide_eq_true_2 by reflexivity. cbn [orb]. lia.
      * intros env uid. unfold Invoice.pre_save.
        cbn [Invoice.set_status invoice_number].
        destruct (decide _); reflexivity.
Qed.

Lemma marked_overdue_witness :
  exists r',
    invoices
      (snd (InvoiceAdmin.mark_as_overdue [1]
              (run [(env_nov, AdminMarkPaid [1])] sample_db))) !! 1
    = Some r'
    /\ status r' = overdue
    /\ InvoiceMethods.days_overdue 5 r' < 0.
Proof.
  destruct (marked_overdue [1] (run [(env_nov, AdminMarkPaid [1])] sample_db))
    as (_ & _ & H).
  destruct (invoices (run [(env_nov, AdminMarkPaid [1])] sample_db) !! 1)
    as [r|] eqn:E; [|vm_compute in E; discriminate].
  destruct (H 1 r ltac:(left) E) as (r' & Hr' & Hs & _ & _ & _ & Hd & _).
  exists r'. split; [exact Hr'|]. split; [exact Hs|].
  apply Hd. vm_compute in E. injection E as <-. reflexivity.
Defined.

Lemma mark_as_paid_loop_spec (env : Env) (queryset : list Z) (db : DB) :
  invoice_table_ok (invoices db) -> NoDup queryset ->
  exists db',
    InvoiceAdmin.mark_as_paid_loop env queryset db = (Return tt, db')
    /\ payments db' = payments db
    /\ (forall k, k ∉ queryset -> invoices db' !! k = invoices db !! k)
    /\ (forall k, k ∈ queryset ->
          invoices db' !! k
          = (fun r => Invoice.pre_save env (uuid4 env 0%nat)
                        (Invoice.set_amount_paid (total_amount r) r))
            <$> invoices db !! k).
Proof.
  intros Hok Hnd. revert db Hok.
  induction Hnd as [|k rest Hk Hnd IH]; intros db Hok;
    cbn [InvoiceAdmin.mark_as_paid_loop].
  - exists db. split; [reflexivity|]. split; [reflexivity|].
    split; [reflexivity|]. intros k Hk. now apply elem_of_nil in Hk.
  - rewrite bind_get_eq. destruct (invoices db !! k) as [r|] eqn:Er.
    + unfold bind. rewrite invoice_save_eq. cbn [pk fields saved_key].
      destruct (decide _) as [Hu|N];
        [|exfalso; apply N; now apply repaid_row_unique].
      set (r' := Invoice.pre_save env (uuid4 env 0%nat)
                   (Invoice.set_amount_paid (total_amount r) r)) in *.
      destruct (IH (with_invoices (<[k := r']> (invoices db)) db))
        as (db' & E & Hp & Hout & Hin).
      { cbn [invoices with_invoices].
        apply (table_ok_save _ (Some k)); [exact Hok|exact Hu|now left]. }
      exists db'. split; [exact E|]. split; [exact Hp|]. split.
      * intros k0 Hk0. rewrite Hout.
        -- cbn [invoices with_invoices]. apply lookup_insert_ne.
           intros ->. apply Hk0. left.
        -- intros H. apply Hk0. now right.
      * intros k0 Hk0. apply elem_of_cons in Hk0 as [->|Hk0].
        -- rewrite (Hout k Hk). cbn [invoices with_invoices].
           now rewrite lookup_insert_eq, Er.
        -- rewrite (Hin k0 Hk0). cbn [invoices with_invoices].
           rewrite lookup_insert_ne; [reflexivity|]. now intros ->.
    + destruct (IH db Hok) as (db' & E & Hp & Hout & Hin).
      exists db'. split; [exact E|]. split; [exact Hp|]. split.
      * intros k0 Hk0. apply Hout. intros H. apply Hk0. now right.
      * intros k0 Hk0. apply elem_of_cons in Hk0 as [->|Hk0].
        -- now rewrite (Hout k Hk), Er.
        -- now apply Hin.
Qed.

(** X21.  The action that marks invoices paid never fails on a table that
    keeps its constraints.  On every selected invoice it stores the total as
    the amount paid, whatever was paid before, and saves the invoice: the
    status is paid and the balance zero when the stored total was the sum of
    the charges.  It stores no payment and leaves the other invoices as
    they were. *)
Theorem marked_paid (env : Env) (queryset : list Z) (db : DB) :
  invoice_table_ok (invoices db) -> NoDup queryset ->
  exists db',
    InvoiceAdmin.mark_as_paid env queryset db = (Return ActionDone, db')
    /\ payments db' = payments db
    /\ (forall k, k ∉ queryset -> invoices db' !! k = invoices db !! k)
    /\ (forall k r, k ∈ queryset -> invoices db !! k = Some r ->
          exists r',
            invoices db' !! k = Some r'
            /\ amount_paid r' = total_amount r
            /\ invoice_number r' = invoice_number r
            /\ lease r' = lease r
            /\ (total_is_sum r ->
                status r' = paid
                /\ (Invoice.balance r' == 0)%Q
                /\ forall day, InvoiceMethods.days_overdue day r' = 0)).
Proof.
  intros Hok Hnd.
  destruct (mark_as_paid_loop_spec env queryset db Hok Hnd)
    as (db' & E & Hp & Hout & Hin).
  exists db'. split.
  { unfold InvoiceAdmin.mark_as_paid, except, bind. now rewrite E. }
  split; [exact Hp|]. split; [exact Hout|].
  intros k r Hk Hr. eexists. split; [now rewrite (Hin k Hk), Hr|].
  destruct (pre_save_total env (uuid4 env 0%nat)
              (Invoice.set_amount_paid (total_amount r) r))
    as (Ht & _ & _ & _ & _ & Hpaid & _ & Hl & _).
  cbn [Invoice.set_amount_paid rent_amount water_amount garbage_amount
       other_charges amount_paid lease] in *.
  split; [exact Hpaid|]. split.
  { rewrite pre_save_number; [reflexivity|].
    cbn [Invoice.set_amount_paid invoice_number].
    now destruct (Hok k r Hr). }
  split; [exact Hl|]. intros Hsum.
  assert (Hs : status (Invoice.pre_save env (uuid4 env 0%nat)
                         (Invoice.set_amount_paid (total_amount r) r))
               = paid).
  { rewrite pre_save_status.
    cbn [Invoice.set_amount_paid rent_amount water_amount garbage_amount
         other_charges amount_paid due_date].
    apply (proj1 (derive_status_cases _ _ _ _)).
    unfold total_is_sum in Hsum. rewrite Hsum. apply Qle_refl. }
  split; [exact Hs|]. split.
  - unfold Invoice.balance. rewrite Ht, Hpaid.
    unfold total_is_sum in Hsum. rewrite Hsum. ring.
  - intros day. unfold InvoiceMethods.days_overdue,
      InvoiceMethods.is_overdue, InvoiceMethods.is_paid. rewrite Hs.
    rewrite bool_decide_eq_false_2 by discriminate.
    rewrite bool_decide_eq_true_2 by reflexivity.
    cbn [negb orb]. now rewrite andb_false_r.
Qed.

Lemma marked_paid_witness :
  exists db',
    InvoiceAdmin.mark_as_paid env_nov [1; 2] sample_db
    = (Return ActionDone, db')
    /\ payments db' = payments sample_db.
Proof.
  destruct (marked_paid env_nov [1; 2] sample_db sample_db_table_ok)
    as (db' & E & Hp & _).
  - apply (bool_decide_unpack _). vm_compute. exact I.
  - exists db'. split; [exact E|exact Hp].
Defined.

(** ** Running the monthly batch again *)

Lemma loop_all_invoiced (env : Env) (month : date) (due : option date)
    (ls : list (Z * LeaseRow)) (c s : nat) (db : DB) :
  Forall (fun kl => invoice_exists db (fst kl) month) ls ->
  GenerateMonthlyInvoicesView.loop env month due ls c s db
  = (Return (c, (s + length ls)%nat), db).
Proof.
  intros Hall. revert s. induction Hall as [|[k l] rest Hk _ IH]; intros s;
    cbn [GenerateMonthlyInvoicesView.loop length].
  - now rewrite Nat.add_0_r.
  - rewrite bind_get_eq. cbn [fst] in Hk.
    destruct (decide (invoice_exists db k month)); [|contradiction].
    rewrite IH. now rewrite Nat.add_succ_r.
Qed.

Lemma batch_all_invoiced (env : Env) (req : Request) (month : date)
    (due : option date) (db : DB) :
  is_authenticated req = true -> is_landlord req = true ->
  (forall k l, (k, l) ∈ GenerateMonthlyInvoicesView.active_leases db req ->
               invoice_exists db k month) ->
  GenerateMonthlyInvoicesView.post env req (Some month) due db
  = (Return (BatchGenerated 0
               (length (GenerateMonthlyInvoicesView.active_leases db req))),
     db).
Proof.
  intros Hauth Hland Hall.
  unfold GenerateMonthlyInvoicesView.post. rewrite Hauth, Hland. cbn [negb].
  unfold atomic_view. rewrite bind_get_eq. unfold bind.
  rewrite loop_all_invoiced; [reflexivity|].
  apply Forall_forall. intros [k l] Hin. exact (Hall k l Hin).
Qed.

(** X22.  When every active lease of the landlord has an invoice for the
    month, the monthly batch creates nothing, counts every lease as skipped
    and leaves the database as it was, whatever due date is posted.  So a
    batch that succeeded can be run again for the same month, at any later
    instant: the second run creates nothing and changes nothing. *)
Theorem batch_rerun_changes_nothing (env env' : Env) (req : Request)
    (month due : date) (due' : option date) (db : DB) :
  is_authenticated req = true -> is_landlord req = true ->
  ((forall k l, (k, l) ∈ GenerateMonthlyInvoicesView.active_leases db req ->
                invoice_exists db k month) ->
   GenerateMonthlyInvoicesView.post env' req (Some month) due' db
   = (Return (BatchGenerated 0
                (length (GenerateMonthlyInvoicesView.active_leases db req))),
      db))
  /\ (numbers_free env db 0
        (length (filter (lacking month db)
                   (GenerateMonthlyInvoicesView.active_leases db req))) ->
      exists created skipped db',
        GenerateMonthlyInvoicesView.post env req (Some month) (Some due) db
        = (Return (BatchGenerated created skipped), db')
        /\ GenerateMonthlyInvoicesView.post env' req (Some month) due' db'
           = (Return (BatchGenerated 0
                        (length (GenerateMonthlyInvoicesView.active_leases
                                   db req))),
              db')).
Proof.
  intros Hauth Hland. split; [now apply batch_all_invoiced|].
  intros Hfree.
  destruct (loop_run env month due
              (GenerateMonthlyInvoicesView.active_leases db req) 0 0 db)
    as (db' & Heq & Hp & Hu & Hl & _ & Hkept & Hcr).
  { apply active_leases_NoDup. }
  { intros k l. apply active_lease_unit. }
  { exact Hfree. }
  assert (Hsame : GenerateMonthlyInvoicesView.active_leases db' req
                  = GenerateMonthlyInvoicesView.active_leases db req).
  { unfold GenerateMonthlyInvoicesView.active_leases. rewrite Hl.
    f_equal. apply list_filter_iff. intros kl.
    unfold GenerateMonthlyInvoicesView.is_active_lease_of, lease_landlord.
    now rewrite Hp, Hu, Hl. }
  eexists _, _, db'. split.
  { unfold GenerateMonthlyInvoicesView.post. rewrite Hauth, Hland.
    cbn [negb]. unfold atomic_view. rewrite bind_get_eq. unfold bind.
    rewrite Heq. reflexivity. }
  rewrite <- Hsame. apply batch_all_invoiced; [exact Hauth|exact Hland|].
  rewrite Hsame. intros k l Hin.
  destruct (decide (invoice_exists db k month)) as [Hex|Hno].
  - apply map_Exists_lookup in Hex as (j & r & Hj & Hr).
    apply map_Exists_lookup. exists j, r. split; [now apply Hkept|exact Hr].
  - destruct (Hcr k l Hin Hno) as (j & r & u & _ & _ & Hj & Hrl & Hrm & _).
    apply map_Exists_lookup. exists j, r. split; [exact Hj|now split].
Qed.

Lemma batch_rerun_changes_nothing_witness :
  exists created skipped db',
    GenerateMonthlyInvoicesView.post env_nov landlord_a (Some 30) (Some 49)
      batch_db
    = (Return (BatchGenerated created skipped), db')
    /\ GenerateMonthlyInvoicesView.post env_later landlord_a (Some 30) None db'
       = (Return (BatchGenerated 0 5), db').
Proof.
  destruct (batch_rerun_changes_nothing env_nov env_later landlord_a 30 49
              None batch_db eq_refl eq_refl) as [_ H].
  destruct H as (created & skipped & db' & E1 & E2).
  - apply (bool_decide_unpack _). vm_compute. exact I.
  - exists created, skipped, db'. split; [exact E1|].
    rewrite E2. reflexivity.
Defined.

(** ** The list of invoices ([invoicing/views.py])

    The page holds the rows of the queryset; the order in which the
    template shows them is not part of it. *)

Definition status_name (s : invoice_state) : string :=
  match s with
  | pending => "pending"
  | partial => "partial"
  | paid => "paid"
  | overdue => "overdue"
  end.

(** [lease__unit__unit_property__pk] of an invoice. *)
Definition invoice_property (db : DB) (r : InvoiceRow) : option Z :=
  l ← leases db !! lease r;
  u ← units db !! lease_unit l;
  Some (unit_property u).

Module InvoiceListView.

Record Stats := {
  total_count : nat;
  total_billed : option Decimal;
  total_collected : option Decimal;
  total_outstanding : option Decimal
}.

Record Page := {
  page_invoices : gmap Z InvoiceRow;
  page_properties : gmap Z PropertyRow;
  page_status_filter : string;
  page_property_filter : string;
  page_month_filter : string;
  page_stats : Stats
}.

Inductive answer := Login | Denied | Listed (page : Page).

(** [Sum(column)] over the rows: [None] when there is none. *)
Definition Sum (f : InvoiceRow -> Decimal) (rows : list (Z * InvoiceRow))
  : option Decimal :=
  match rows with
  | [] => None
  | _ => Some (foldr (fun kr acc => f (snd kr) + acc)%Q 0%Q rows)
  end.

Definition minus (a b : option Decimal) : option Decimal :=
  match a, b with
  | Some x, Some y => Some (x - y)%Q
  | _, _ => None
  end.

Definition given (filter_value : string) : bool :=
  negb (String.eqb filter_value "") && negb (String.eqb filter_value "all").

Definition or_all (filter_value : string) : string :=
  if String.eqb filter_value "" then "all"%string else filter_value.

Section Get.

(** [int] and [datetime.strptime(_, '%Y-%m')]: [None] when they raise. *)
Variable int : string -> option Z.
Variable strptime : string -> option date.

Definition queryset (req : Request) (db : DB)
    (status_filter property_filter month_filter : string)
  : gmap Z InvoiceRow :=
  let invoices :=
    filter (fun kr => owned_by req (lease_landlord db (lease (snd kr))))
      (invoices db) in
  let invoices :=
    if given status_filter
    then filter (fun kr => status_name (status (snd kr)) = status_filter)
           invoices
    else invoices in
  let invoices :=
    if given property_filter then
      match int property_filter with
      | Some property_id =>
          filter (fun kr => invoice_property db (snd kr) = Some property_id)
            invoices
      | None => invoices
      end
    else invoices in
  if given month_filter then
    match strptime month_filter with
    | Some filter_date =>
        filter (fun kr => billing_month (snd kr) = filter_date) invoices
    | None => invoices
    end
  else invoices.

Definition get (req : Request)
    (status_filter property_filter month_filter : string) : M answer :=
  if negb (is_authenticated req) then ret Login
  else if negb (is_landlord req) then ret Denied
  else
    db <- get_db ;;
    let invoices :=
      queryset req db status_filter property_filter month_filter in
    let properties :=
      filter (fun kp => owned_by req (Some (prop_landlord (snd kp))))
        (properties db) in
    let rows := map_to_list invoices in
    let stats :=
      {| total_count := length rows;
         total_billed := Sum total_amount rows;
         total_collected := Sum amount_paid rows;
         total_outstanding :=
           minus (Sum total_amount rows) (Sum amount_paid rows) |} in
    ret (Listed {| page_invoices := invoices; page_properties := properties;
                   page_status_filter := or_all status_filter;
                   page_property_filter := or_all property_filter;
                   page_month_filter := or_all month_filter;
                   page_stats := stats |}).

End Get.

End InvoiceListView.

Lemma queryset_scoped (int : string -> option Z)
    (strptime : string -> option date) (req : Request) (db : DB)
    (sf pf mf : string) (k : Z) (r : InvoiceRow) :
  InvoiceListView.queryset int strptime req db sf pf mf !! k = Some r ->
  invoices db !! k = Some r
  /\ owned_by req (lease_landlord db (lease r))
  /\ (InvoiceListView.given sf = true -> status_name (status r) = sf).
Proof.
  unfold InvoiceListView.queryset. intros H.
  destruct (InvoiceListView.given mf);
    [destruct (strptime mf);
     [apply map_lookup_filter_Some in H as [H _]|]|];
    (destruct (InvoiceListView.given pf);
     [destruct (int pf);
      [apply map_lookup_filter_Some in H as [H _]|]|]);
    (destruct (InvoiceListView.given sf);
     [apply map_lookup_filter_Some in H as [H Hs]|]);
    apply map_lookup_filter_Some in H as [H Ho]; cbn [snd] in *;
    (split; [exact H|split; [exact Ho|intros E; first [exact Hs|discriminate E]]]).
Qed.

Lemma sum_balance (rows : list (Z * InvoiceRow)) :
  (foldr (fun kr acc => total_amount (snd kr) + acc) 0 rows
   - foldr (fun kr acc => amount_paid (snd kr) + acc) 0 rows
   == foldr (fun kr acc => Invoice.balance (snd kr) + acc) 0 rows)%Q.
Proof.
  induction rows as [|kr rest IH]; cbn [foldr]; [ring|].
  rewrite <- IH. unfold Invoice.balance. ring.
Qed.

(** X23.  The list of invoices shows a landlord only invoices on their own
    leases, and reads without writing.  Without filters (each empty or
    'all') it shows all of them; a status filter shows only invoices of that
    status; a property filter that is not a number is ignored.  The count
    is the number of invoices shown; with none shown the three sums are
    [None]; otherwise the outstanding total is the billed total minus the
    collected total, which is the sum of the balances of the invoices
    shown. *)
Theorem invoice_list_page (int : string -> option Z)
    (strptime : string -> option date) (req : Request) (db : DB)
    (sf pf mf : string) :
  is_authenticated req = true -> is_landlord req = true ->
  exists page,
    InvoiceListView.get int strptime req sf pf mf db
    = (Return (InvoiceListView.Listed page), db)
    /\ (forall k r, InvoiceListView.page_invoices page !! k = Some r ->
          invoices db !! k = Some r
          /\ owned_by req (lease_landlord db (lease r))
          /\ (InvoiceListView.given sf = true ->
              status_name (status r) = sf))
    /\ (InvoiceListView.given sf = false ->
        InvoiceListView.given pf = false \/ int pf = None ->
        InvoiceListView.given mf = false \/ strptime mf = None ->
        forall k r, invoices db !! k = Some r ->
          owned_by req (lease_landlord db (lease r)) ->
          InvoiceListView.page_invoices page !! k = Some r)
    /\ InvoiceListView.total_count (InvoiceListView.page_stats page)
       = size (InvoiceListView.page_invoices page)
    /\ (InvoiceListView.page_invoices page = ∅ ->
        InvoiceListView.total_billed (InvoiceListView.page_stats page) = None
        /\ InvoiceListView.total_collected (InvoiceListView.page_stats page)
           = None
        /\ InvoiceListView.total_outstanding
             (InvoiceListView.page_stats page) = None)
    /\ (InvoiceListView.page_invoices page <> ∅ ->
        exists billed collected,
          InvoiceListView.total_billed (InvoiceListView.page_stats page)
          = Some billed
          /\ InvoiceListView.total_collected
               (InvoiceListView.page_stats page) = Some collected
          /\ InvoiceListView.total_outstanding
               (InvoiceListView.page_stats page) = Some (billed - collected)%Q
          /\ (billed - collected
              == foldr (fun kr acc => Invoice.balance (snd kr) + acc) 0
                   (map_to_list (InvoiceListView.page_invoices page)))%Q).
Proof.
  intros Hauth Hland. unfold InvoiceListView.get. rewrite Hauth, Hland.
  cbn [negb]. rewrite bind_get_eq. unfold ret. eexists. split; [reflexivity|].
  cbn [InvoiceListView.page_invoices InvoiceListView.page_stats
       InvoiceListView.total_count InvoiceListView.total_billed
       InvoiceListView.total_collected InvoiceListView.total_outstanding].
  split; [intros k r; apply queryset_scoped|]. split.
  { intros Hs Hp Hm k r Hk Ho. unfold InvoiceListView.queryset. rewrite Hs.
    assert (H0 : filter (fun kr : Z * InvoiceRow =>
                           owned_by req (lease_landlord db (lease (snd kr))))
                   (invoices db) !! k = Some r)
      by (apply map_lookup_filter_Some; now split).
    destruct (InvoiceListView.given mf);
      [destruct Hm as [Hm|Hm]; [discriminate|rewrite Hm]|];
      (destruct (InvoiceListView.given pf);
       [destruct Hp as [Hp|Hp]; [discriminate|rewrite Hp]|]); exact H0. }
  split; [now rewrite length_map_to_list|]. split.
  - intros ->. rewrite map_to_list_empty. repeat split.
  - intros Hne.
    destruct (map_to_list (InvoiceListView.queryset int strptime req db sf pf
                             mf)) as [|kr rest] eqn:E.
    + apply map_to_list_empty_iff in E. contradiction.
    + eexists _, _. split; [reflexivity|]. split; [reflexivity|].
      split; [reflexivity|]. apply sum_balance.
Qed.

Lemma invoice_list_page_witness :
  exists page,
    InvoiceListView.get (fun _ => None) (fun _ => None) landlord_a
      "all" "" "" sample_db
    = (Return (InvoiceListView.Listed page), sample_db)
    /\ InvoiceListView.page_invoices page !! 1
       = Some (invoice_of 1000 "INV-202610-AAAA0001" 0 0 overdue)
    /\ InvoiceListView.page_invoices page !! 2 = None.
Proof.
  destruct (invoice_list_page (fun _ => None) (fun _ => None) landlord_a
              sample_db "all" "" "" eq_refl eq_refl)
    as (page & E & Hscope & Hall & _).
  exists page. split; [exact E|]. split.
  - apply Hall; [reflexivity|now left|now left|reflexivity|].
    apply (bool_decide_unpack _). vm_compute. exact I.
  - destruct (InvoiceListView.page_invoices page !! 2) as [r|] eqn:E2;
      [|reflexivity].
    exfalso. destruct (Hscope 2 r E2) as (Hr & Ho & _).
    vm_compute in Hr. injection Hr as <-.
    revert Ho. apply (bool_decide_unpack _). vm_compute. exact I.
Defined.

(** ** Leases ([tenants_mgmt/models.py], [tenants_mgmt/views.py])

    The deposit and the move-in and move-out dates of a lease are columns
    nothing here depends on; they are left out, as in [LeaseRow].  The
    profiles of the tenants are a table of their own, given by its keys. *)

Definition with_leases (t : gmap Z LeaseRow) (db : DB) : DB :=
  {| properties := properties db; units := units db; leases := t;
     invoices := invoices db; payments := payments db |}.

Definition set_lease_status (s : lease_state) (self : LeaseRow) : LeaseRow :=
  {| lease_unit := lease_unit self; lease_tenant := lease_tenant self;
     start_date := start_date self; lease_status := s;
     lease_rent_amount := lease_rent_amount self |}.

Definition set_lease_rent (x : Decimal) (self : LeaseRow) : LeaseRow :=
  {| lease_unit := lease_unit self; lease_tenant := lease_tenant self;
     start_date := start_date self; lease_status := lease_status self;
     lease_rent_amount := x |}.

(** The lookup [unit_property__landlord=request.landlord] of a unit. *)
Definition unit_landlord (db : DB) (u : Z) : option Z :=
  ur ← units db !! u;
  p ← properties db !! unit_property ur;
  Some (prop_landlord p).

(** [Lease.objects.filter(tenant=..., status='active').exists()]. *)
Definition tenant_has_active (db : DB) (t : Z) : Prop :=
  map_Exists (fun _ l => lease_tenant l = t /\ lease_status l = active)
    (leases db).

Global Instance tenant_has_active_dec db t : Decision (tenant_has_active db t).
Proof. unfold tenant_has_active. apply _. Defined.

Inductive posted_date := NoDate | BadDate | Date (d : date).

Global Instance posted_date_eq_dec : EqDecision posted_date.
Proof. solve_decision. Defined.

Module Lease.

(** [save]: a rent that is zero (or not set) is taken from the unit. *)
Definition save (key : option Z) (self : LeaseRow) : M (Z * LeaseRow) :=
  db <- get_db ;;
  self <- (if Qeq_bool (lease_rent_amount self) 0 then
             match units db !! lease_unit self with
             | Some unit => ret (set_lease_rent (monthly_rent unit) self)
             | None => raise DoesNotExist
             end
           else ret self) ;;
  let k := match key with
           | Some k => k
           | None => fresh (dom (leases db))
           end in
  put_db (with_leases (<[k := self]> (leases db)) db) ;;;
  ret (k, self).

(** [terminate_lease(termination_date)]: the date posted becomes the
    move-out date, today when none is posted; a text that is not a date makes
    [save] raise before it writes. *)
Definition terminate_lease (k : Z) (self : LeaseRow)
    (termination_date : posted_date) : M (Z * LeaseRow) :=
  match termination_date with
  | BadDate => raise ValueError
  | _ => save (Some k) (set_lease_status terminated self)
  end.

End Lease.


Record LeaseForm := {
  lf_tenant : option Z;
  lf_unit : option Z;
  lf_start_date : posted_date;
  lf_deposit_amount : option Decimal
}.

Inductive lease_answer :=
| LeaseLogin
| LeaseDenied
| NoLandlordProfile
| LeaseMissingFields
| LeaseNotFound
| UnitOccupied
| TenantHasLease
| LeaseCreated (k : Z)
| AlreadyTerminated
| LeaseTerminated (arrears : option Decimal)
| LeaseError.

(** A view that is not atomic and catches nothing: an exception is a 500,
    and what was written before it stays. *)
Definition uncaught (m : M lease_answer) : M lease_answer :=
  fun db => match m db with
            | (Return a, db') => (Return a, db')
            | (Raise _, db') => (Return LeaseError, db')
            end.

Module LeaseCreateView.

(** [tenants] are the keys of the tenant profiles.  A start date or a
    deposit that the field does not read makes [create] raise. *)
Definition post (tenants : gset Z) (req : Request) (form : LeaseForm)
  : M lease_answer :=
  if negb (is_authenticated req) then ret LeaseLogin
  else uncaught (
    if negb (is_landlord req) then ret LeaseDenied
    else if decide (landlord req = None) then ret NoLandlordProfile
    else
      match lf_tenant form, lf_unit form with
      | Some tenant_id, Some unit_id =>
          if decide (lf_start_date form = NoDate) then ret LeaseMissingFields
          else if decide (tenant_id ∈ tenants) then
            db <- get_db ;;
            match units db !! unit_id with
            | Some unit =>
                if decide (owned_by req (unit_landlord db unit_id)) then
                  if decide (UnitMethods.is_occupied db unit_id)
                  then ret UnitOccupied
                  else if decide (tenant_has_active db tenant_id)
                  then ret TenantHasLease
                  else
                    match lf_start_date form, lf_deposit_amount form with
                    | Date d, Some _ =>
                        created <-
                          Lease.save None
                            {| lease_unit := unit_id;
                               lease_tenant := tenant_id;
                               start_date := d; lease_status := active;
                               lease_rent_amount := monthly_rent unit |} ;;
                        ret (LeaseCreated (fst created))
                    | _, _ => raise ValueError
                    end
                else ret LeaseNotFound
            | None => ret LeaseNotFound
            end
          else ret LeaseNotFound
      | _, _ => ret LeaseMissingFields
      end).

End LeaseCreateView.

Module LeaseTerminateView.

Definition unpaid (k : Z) (kr : Z * InvoiceRow) : Prop :=
  lease (snd kr) = k
  /\ (status (snd kr) = pending \/ status (snd kr) = overdue
      \/ status (snd kr) = partial).

Global Instance unpaid_dec k kr : Decision (unpaid k kr).
Proof. unfold unpaid. apply _. Defined.

(** The warning about arrears: [sum(inv.balance for inv in ...)] when
    there are unpaid invoices. *)
Definition arrears_warning (db : DB) (k : Z) : option Decimal :=
  match filter (unpaid k) (map_to_list (invoices db)) with
  | [] => None
  | unpaid_invoices =>
      Some (fold_left (fun acc kr => acc + Invoice.balance (snd kr))%Q
              unpaid_invoices 0%Q)
  end.

Definition post (req : Request) (k : Z) (termination_date : posted_date)
  : M lease_answer :=
  if negb (is_authenticated req) then ret LeaseLogin
  else uncaught (
    if negb (is_landlord req) then ret LeaseDenied
    else if decide (landlord req = None) then ret NoLandlordProfile
    else
      db <- get_db ;;
      match leases db !! k with
      | Some lease =>
          if decide (owned_by req (lease_landlord db k)) then
            if decide (lease_status lease <> active) then ret AlreadyTerminated
            else
              Lease.terminate_lease k lease termination_date ;;;
              ret (LeaseTerminated (arrears_warning db k))
          else ret LeaseNotFound
      | None => ret LeaseNotFound
      end).

End LeaseTerminateView.

(** At most one active lease on a unit, and for a tenant. *)
Definition one_active_per_unit (db : DB) : Prop :=
  forall k1 k2 l1 l2,
    leases db !! k1 = Some l1 -> leases db !! k2 = Some l2 ->
    lease_status l1 = active -> lease_status l2 = active ->
    lease_unit l1 = lease_unit l2 -> k1 = k2.

Definition one_active_per_tenant (db : DB) : Prop :=
  forall k1 k2 l1 l2,
    leases db !! k1 = Some l1 -> leases db !! k2 = Some l2 ->
    lease_status l1 = active -> lease_status l2 = active ->
    lease_tenant l1 = lease_tenant l2 -> k1 = k2.

Lemma lease_create_eq (tenants : gset Z) (req : Request) (form : LeaseForm)
    (db : DB) :
  LeaseCreateView.post tenants req form db =
  if negb (is_authenticated req) then (Return LeaseLogin, db)
  else if negb (is_landlord req) then (Return LeaseDenied, db)
  else if decide (landlord req = None) then (Return NoLandlordProfile, db)
  else
    match lf_tenant form, lf_unit form with
    | Some tenant_id, Some unit_id =>
        if decide (lf_start_date form = NoDate)
        then (Return LeaseMissingFields, db)
        else if decide (tenant_id ∈ tenants) then
          match units db !! unit_id with
          | Some unit =>
              if decide (owned_by req (unit_landlord db unit_id)) then
                if decide (UnitMethods.is_occupied db unit_id)
                then (Return UnitOccupied, db)
                else if decide (tenant_has_active db tenant_id)
                then (Return TenantHasLease, db)
                else
                  match lf_start_date form, lf_deposit_amount form with
                  | Date d, Some _ =>
                      (Return (LeaseCreated (fresh (dom (leases db)))),
                       with_leases
                         (<[fresh (dom (leases db)) :=
                              {| lease_unit := unit_id;
                                 lease_tenant := tenant_id;
                                 start_date := d; lease_status := active;
                                 lease_rent_amount := monthly_rent unit |}]>
                            (leases db)) db)
                  | _, _ => (Return LeaseError, db)
                  end
              else (Return LeaseNotFound, db)
          | None => (Return LeaseNotFound, db)
          end
        else (Return LeaseNotFound, db)
    | _, _ => (Return LeaseMissingFields, db)
    end.
Proof.
  unfold LeaseCreateView.post.
  destruct (negb (is_authenticated req)); [reflexivity|].
  unfold uncaught.
  destruct (negb (is_landlord req)); [reflexivity|].
  destruct (decide (landlord req = None)); [reflexivity|].
  destruct (lf_tenant form) as [t|]; [|reflexivity].
  destruct (lf_unit form) as [u|]; [|reflexivity].
  destruct (decide (lf_start_date form = NoDate)); [reflexivity|].
  destruct (decide (t ∈ tenants)); [|reflexivity].
  rewrite bind_get_eq.
  destruct (units db !! u) as [unit|] eqn:Eu; [|reflexivity].
  destruct (decide (owned_by _ _)); [|reflexivity].
  destruct (decide (UnitMethods.is_occupied db u)); [reflexivity|].
  destruct (decide (tenant_has_active db t)); [reflexivity|].
  destruct (lf_start_date form) as [| |d]; try reflexivity.
  destruct (lf_deposit_amount form) as [dep|]; [|reflexivity].
  unfold Lease.save, bind, get_db, put_db, ret.
  cbn [lease_rent_amount lease_unit]. rewrite Eu.
  destruct (Qeq_bool (monthly_rent unit) 0); reflexivity.
Qed.

Lemma lease_create_cases (tenants : gset Z) (req : Request) (form : LeaseForm)
    (db : DB) :
  (snd (LeaseCreateView.post tenants req form db) = db
   /\ forall k, fst (LeaseCreateView.post tenants req form db)
                <> Return (LeaseCreated k))
  \/ exists u t d unit,
       is_authenticated req = true /\ is_landlord req = true
       /\ landlord req <> None
       /\ lf_unit form = Some u /\ lf_tenant form = Some t
       /\ lf_start_date form = Date d /\ is_Some (lf_deposit_amount form)
       /\ t ∈ tenants /\ units db !! u = Some unit
       /\ owned_by req (unit_landlord db u)
       /\ ~ UnitMethods.is_occupied db u /\ ~ tenant_has_active db t
       /\ LeaseCreateView.post tenants req form db
          = (Return (LeaseCreated (fresh (dom (leases db)))),
             with_leases
               (<[fresh (dom (leases db)) :=
                    {| lease_unit := u; lease_tenant := t; start_date := d;
                       lease_status := active;
                       lease_rent_amount := monthly_rent unit |}]>
                  (leases db)) db).
Proof.
  rewrite lease_create_eq.
  destruct (is_authenticated req); cbn [negb];
    [|left; split; [reflexivity|discriminate]].
  destruct (is_landlord req); cbn [negb];
    [|left; split; [reflexivity|discriminate]].
  destruct (decide (landlord req = None));
    [left; split; [reflexivity|discriminate]|].
  destruct (lf_tenant form) as [t|];
    [|left; split; [reflexivity|discriminate]].
  destruct (lf_unit form) as [u|];
    [|left; split; [reflexivity|discriminate]].
  destruct (decide (lf_start_date form = NoDate));
    [left; split; [reflexivity|discriminate]|].
  destruct (decide (t ∈ tenants));
    [|left; split; [reflexivity|discriminate]].
  destruct (units db !! u) as [unit|] eqn:Eu;
    [|left; split; [reflexivity|discriminate]].
  destruct (decide (owned_by _ _));
    [|left; split; [reflexivity|discriminate]].
  destruct (decide (UnitMethods.is_occupied db u));
    [left; split; [reflexivity|discriminate]|].
  destruct (decide (tenant_has_active db t));
    [left; split; [reflexivity|discriminate]|].
  destruct (lf_start_date form) as [| |d];
    try (left; split; [reflexivity|discriminate]).
  destruct (lf_deposit_amount form) as [dep|];
    [|left; split; [reflexivity|discriminate]].
  right. exists u, t, d, unit.
  repeat (split; [first [reflexivity|assumption|eauto]|]). reflexivity.
Qed.

(** X24.  Creating a lease writes at most one lease and nothing else: the
    stored leases, and the properties, units, invoices and payments, stay as
    they are.  It keeps at most one active lease on a unit and at most one
    for a tenant.  A unit that is occupied or not the landlord's, and a
    tenant who is unknown or has an active lease, are refused without a
    write.  Otherwise the lease is stored under a new key, active, with the
    monthly rent of the unit as its rent; the unit is then occupied and the
    lease is among those the monthly batch of the landlord bills. *)
Theorem lease_creation_rules (tenants : gset Z) (req : Request)
    (form : LeaseForm) (db : DB) :
  (properties (snd (LeaseCreateView.post tenants req form db)) = properties db
   /\ units (snd (LeaseCreateView.post tenants req form db)) = units db
   /\ invoices (snd (LeaseCreateView.post tenants req form db)) = invoices db
   /\ payments (snd (LeaseCreateView.post tenants req form db)) = payments db)
  /\ (forall k l, leases db !! k = Some l ->
        leases (snd (LeaseCreateView.post tenants req form db)) !! k = Some l)
  /\ (one_active_per_unit db ->
      one_active_per_unit (snd (LeaseCreateView.post tenants req form db)))
  /\ (one_active_per_tenant db ->
      one_active_per_tenant (snd (LeaseCreateView.post tenants req form db)))
  /\ (forall u t, lf_unit form = Some u -> lf_tenant form = Some t ->
        UnitMethods.is_occupied db u \/ tenant_has_active db t
        \/ t ∉ tenants \/ ~ owned_by req (unit_landlord db u) ->
        snd (LeaseCreateView.post tenants req form db) = db
        /\ forall k, fst (LeaseCreateView.post tenants req form db)
                     <> Return (LeaseCreated k))
  /\ (forall u t d unit,
        is_authenticated req = true -> is_landlord req = true ->
        landlord req <> None ->
        lf_unit form = Some u -> lf_tenant form = Some t ->
        lf_start_date form = Date d -> is_Some (lf_deposit_amount form) ->
        t ∈ tenants -> units db !! u = Some unit ->
        owned_by req (unit_landlord db u) ->
        ~ UnitMethods.is_occupied db u -> ~ tenant_has_active db t ->
        exists k db',
          leases db !! k = None
          /\ LeaseCreateView.post tenants req form db
             = (Return (LeaseCreated k), db')
          /\ leases db' !! k
             = Some {| lease_unit := u; lease_tenant := t; start_date := d;
                       lease_status := active;
                       lease_rent_amount := monthly_rent unit |}
          /\ UnitMethods.is_occupied db' u
          /\ (k, {| lease_unit := u; lease_tenant := t; start_date := d;
                    lease_status := active;
                    lease_rent_amount := monthly_rent unit |})
             ∈ GenerateMonthlyInvoicesView.active_leases db' req).
Proof.
  assert (Hfresh : leases db !! fresh (dom (leases db)) = None)
    by apply not_elem_of_dom, is_fresh.
  pose proof (lease_create_cases tenants req form db) as Hcases.
  split; [|split; [|split; [|split; [|split]]]].
  - destruct Hcases as [[-> _]|(u & t & d & unit & H)]; [now repeat split|].
    destruct H as (_ & _ & _ & _ & _ & _ & _ & _ & _ & _ & _ & _ & ->).
    now repeat split.
  - intros k l Hk.
    destruct Hcases as [[-> _]|(u & t & d & unit & H)]; [exact Hk|].
    destruct H as (_ & _ & _ & _ & _ & _ & _ & _ & _ & _ & _ & _ & ->).
    cbn [snd leases with_leases].
    rewrite lookup_insert_ne; [exact Hk|]. intros E. congruence.
  - intros Hinv.
    destruct Hcases as [[-> _]|(u & t & d & unit & H)]; [exact Hinv|].
    destruct H as (_ & _ & _ & _ & _ & _ & _ & _ & _ & _ & Hocc & _ & ->).
    cbn [snd]. intros k1 k2 l1 l2 H1 H2 A1 A2 Hu.
    cbn [leases with_leases] in H1, H2.
    destruct (decide (k1 = fresh (dom (leases db)))) as [->|N1];
      destruct (decide (k2 = fresh (dom (leases db)))) as [->|N2];
      [reflexivity| | |].
    + exfalso. rewrite lookup_insert_eq in H1. injection H1 as <-.
      rewrite lookup_insert_ne in H2 by congruence. apply Hocc.
      apply map_Exists_lookup. exists k2, l2. cbn in Hu. now split.
    + exfalso. rewrite lookup_insert_eq in H2. injection H2 as <-.
      rewrite lookup_insert_ne in H1 by congruence. apply Hocc.
      apply map_Exists_lookup. exists k1, l1. cbn in Hu. now split.
    + rewrite lookup_insert_ne in H1 by congruence.
      rewrite lookup_insert_ne in H2 by congruence.
      exact (Hinv k1 k2 l1 l2 H1 H2 A1 A2 Hu).
  - intros Hinv.
    destruct Hcases as [[-> _]|(u & t & d & unit & H)]; [exact Hinv|].
    destruct H as (_ & _ & _ & _ & _ & _ & _ & _ & _ & _ & _ & Hten & ->).
    cbn [snd]. intros k1 k2 l1 l2 H1 H2 A1 A2 Hu.
    cbn [leases with_leases] in H1, H2.
    destruct (decide (k1 = fresh (dom (leases db)))) as [->|N1];
      destruct (decide (k2 = fresh (dom (leases db)))) as [->|N2];
      [reflexivity| | |].
    + exfalso. rewrite lookup_insert_eq in H1. injection H1 as <-.
      rewrite lookup_insert_ne in H2 by congruence. apply Hten.
      apply map_Exists_lookup. exists k2, l2. cbn in Hu. now split.
    + exfalso. rewrite lookup_insert_eq in H2. injection H2 as <-.
      rewrite lookup_insert_ne in H1 by congruence. apply Hten.
      apply map_Exists_lookup. exists k1, l1. cbn in Hu. now split.
    + rewrite lookup_insert_ne in H1 by congruence.
      rewrite lookup_insert_ne in H2 by congruence.
      exact (Hinv k1 k2 l1 l2 H1 H2 A1 A2 Hu).
  - intros u t Hu Ht Hbad.
    destruct Hcases as [H|(u' & t' & d & unit & H)]; [exact H|].
    destruct H as (_ & _ & _ & Hu' & Ht' & _ & _ & Hin & _ & Ho & Hocc & Hten
                   & _).
    rewrite Hu in Hu'. rewrite Ht in Ht'.
    injection Hu' as <-. injection Ht' as <-.
    destruct Hbad as [?|[?|[?|?]]]; contradiction.
  - intros u t d unit Hauth Hland Hprof Hu Ht Hd Hdep Hin Hunit Ho Hocc Hten.
    destruct Hcases as [[_ Hno]|(u' & t' & d' & unit' & H)].
    + exfalso. revert Hno. rewrite lease_create_eq, Hauth, Hland. cbn [negb].
      destruct (decide (landlord req = None)); [contradiction|].
      rewrite Ht, Hu, Hd.
      destruct (decide (Date d = NoDate)); [discriminate|].
      destruct (decide (t ∈ tenants)); [|contradiction].
      rewrite Hunit.
      destruct (decide (owned_by _ _)); [|contradiction].
      destruct (decide (UnitMethods.is_occupied db u)); [contradiction|].
      destruct (decide (tenant_has_active db t)); [contradiction|].
      destruct Hdep as [dep ->]. intros Hno.
      now apply (Hno (fresh (dom (leases db)))).
    + destruct H as (_ & _ & _ & Hu' & Ht' & Hd' & _ & _ & Hunit' & _ & _ & _
                     & E).
      rewrite Hu in Hu'. rewrite Ht in Ht'. rewrite Hd in Hd'.
      injection Hu' as <-. injection Ht' as <-. injection Hd' as <-.
      rewrite Hunit in Hunit'. injection Hunit' as <-.
      eexists _, _. split; [exact Hfresh|]. split; [exact E|].
      cbn [leases with_leases].
      split; [apply lookup_insert_eq|]. split.
      * apply map_Exists_lookup. eexists _, _.
        split; [apply lookup_insert_eq|]. now split.
      * apply active_leases_spec. cbn [leases with_leases].
        split; [apply lookup_insert_eq|]. split; [|reflexivity].
        unfold lease_landlord. cbn [leases units properties with_leases].
        rewrite lookup_insert_eq. cbn. rewrite Hunit. cbn.
        unfold unit_landlord in Ho. rewrite Hunit in Ho. exact Ho.
Qed.

(** [sample_db] with the lease on unit 100 ended. *)
Definition vacant_db : DB :=
  with_leases
    (<[1000 := set_lease_status terminated (lease_of 100 5 15000)]>
       (leases sample_db)) sample_db.

Lemma lease_creation_rules_witness :
  exists k db',
    LeaseCreateView.post {[7]} landlord_a
      {| lf_tenant := Some 7; lf_unit := Some 100; lf_start_date := Date 25;
         lf_deposit_amount := Some 0%Q |} vacant_db
    = (Return (LeaseCreated k), db')
    /\ UnitMethods.is_occupied db' 100.
Proof.
  destruct (lease_creation_rules {[7]} landlord_a
              {| lf_tenant := Some 7; lf_unit := Some 100;
                 lf_start_date := Date 25; lf_deposit_amount := Some 0%Q |}
              vacant_db) as (_ & _ & _ & _ & _ & H).
  destruct (H 100 7 25 unit_a eq_refl eq_refl ltac:(discriminate) eq_refl
              eq_refl eq_refl ltac:(eauto))
    as (k & db' & _ & E & _ & Hocc & _).
  - now apply elem_of_singleton.
  - reflexivity.
  - apply (bool_decide_unpack _). vm_compute. exact I.
  - apply (bool_decide_unpack _). vm_compute. exact I.
  - apply (bool_decide_unpack _). vm_compute. exact I.
  - exists k, db'. split; [exact E|exact Hocc].
Defined.

Lemma owned_lease_unit (req : Request) (db : DB) (k : Z) (l : LeaseRow) :
  leases db !! k = Some l -> owned_by req (lease_landlord db k) ->
  is_Some (units db !! lease_unit l).
Proof.
  intros Hl [[o Ho] _]. unfold lease_landlord in Ho. rewrite Hl in Ho.
  cbn in Ho. destruct (units db !! lease_unit l); [eauto|discriminate].
Qed.

(** X25.  Terminating a lease of the landlord: a lease that is not active
    is answered as already terminated and nothing is written; an active one
    is stored as terminated, on the same unit and for the same tenant, with
    the rent it had (a rent of zero is replaced by the current rent of the
    unit); a termination date that is not a date is a server error and
    nothing is written.  Unpaid invoices give a warning and do not prevent
    it; no invoice or payment changes.  Afterwards the lease is not among those the monthly
    batch bills, and the unit is vacant when it had no other active lease.
    At most one active lease per unit and per tenant is kept. *)
Theorem lease_termination_rules (req : Request) (k : Z) (l : LeaseRow)
    (termination_date : posted_date) (db : DB) :
  is_authenticated req = true -> is_landlord req = true ->
  landlord req <> None ->
  leases db !! k = Some l -> owned_by req (lease_landlord db k) ->
  (lease_status l <> active ->
   LeaseTerminateView.post req k termination_date db
   = (Return AlreadyTerminated, db))
  /\ (lease_status l = active -> termination_date = BadDate ->
      LeaseTerminateView.post req k termination_date db
      = (Return LeaseError, db))
  /\ (lease_status l = active -> termination_date <> BadDate ->
      exists l',
        LeaseTerminateView.post req k termination_date db
        = (Return (LeaseTerminated (LeaseTerminateView.arrears_warning db k)),
           with_leases (<[k := l']> (leases db)) db)
        /\ lease_status l' = terminated
        /\ lease_unit l' = lease_unit l
        /\ lease_tenant l' = lease_tenant l
        /\ start_date l' = start_date l
        /\ (~ (lease_rent_amount l == 0)%Q ->
            lease_rent_amount l' = lease_rent_amount l)
        /\ ((lease_rent_amount l == 0)%Q ->
            exists unit, units db !! lease_unit l = Some unit
                         /\ lease_rent_amount l' = monthly_rent unit)
        /\ (forall x,
              (k, x) ∉ GenerateMonthlyInvoicesView.active_leases
                         (with_leases (<[k := l']> (leases db)) db) req)
        /\ (one_active_per_unit db ->
            ~ UnitMethods.is_occupied
                (with_leases (<[k := l']> (leases db)) db) (lease_unit l))
        /\ (one_active_per_unit db ->
            one_active_per_unit (with_leases (<[k := l']> (leases db)) db))
        /\ (one_active_per_tenant db ->
            one_active_per_tenant (with_leases (<[k := l']> (leases db)) db))
        /\ (LeaseTerminateView.arrears_warning db k = None
            <-> forall i r, invoices db !! i = Some r -> lease r = k ->
                            status r = paid)).
Proof.
  intros Hauth Hland Hprof Hl Hown.
  destruct (owned_lease_unit req db k l Hl Hown) as [unit Hunit].
  unfold LeaseTerminateView.post. rewrite Hauth, Hland. cbn [negb].
  unfold uncaught.
  destruct (decide (landlord req = None)); [contradiction|].
  rewrite bind_get_eq, Hl.
  destruct (decide (owned_by req (lease_landlord db k))); [|contradiction].
  split.
  { intros Hs. destruct (decide (lease_status l <> active));
      [reflexivity|contradiction]. }
  split.
  { intros Hs ->. destruct (decide (lease_status l <> active));
      [contradiction|reflexivity]. }
  intros Hs Hdate. destruct (decide (lease_status l <> active));
    [contradiction|].
  assert (Hterm : Lease.terminate_lease k l termination_date
                  = Lease.save (Some k) (set_lease_status terminated l))
    by (destruct termination_date; [reflexivity|contradiction|reflexivity]).
  rewrite Hterm. clear Hterm.
  unfold Lease.save, bind, get_db, put_db, ret.
  cbn [set_lease_status lease_rent_amount lease_unit]. rewrite Hunit.
  set (l' := if Qeq_bool (lease_rent_amount l) 0
             then set_lease_rent (monthly_rent unit)
                    (set_lease_status terminated l)
             else set_lease_status terminated l).
  assert (Hst : lease_status l' = terminated)
    by (unfold l'; now destruct (Qeq_bool _ _)).
  assert (Hun : lease_unit l' = lease_unit l)
    by (unfold l'; now destruct (Qeq_bool _ _)).
  assert (Hte : lease_tenant l' = lease_tenant l)
    by (unfold l'; now destruct (Qeq_bool _ _)).
  exists l'. split.
  { unfold l'. now destruct (Qeq_bool (lease_rent_amount l) 0). }
  split; [exact Hst|]. split; [exact Hun|]. split; [exact Hte|].
  split; [unfold l'; now destruct (Qeq_bool _ _)|].
  split.
  { intros Hne. unfold l'. destruct (Qeq_bool _ _) eqn:E; [|reflexivity].
    apply Qeq_bool_iff in E. contradiction. }
  split.
  { intros Hz. exists unit. split; [reflexivity|]. unfold l'.
    apply Qeq_bool_iff in Hz. now rewrite Hz. }
  split.
  { intros x Hin. apply active_leases_spec in Hin as (Hx & _ & Hact).
    cbn [leases with_leases] in Hx. rewrite lookup_insert_eq in Hx.
    injection Hx as <-. congruence. }
  split.
  { intros Hinv Hocc. apply map_Exists_lookup in Hocc as (j & x & Hj & Hu & Ha).
    cbn [leases with_leases] in Hj.
    destruct (decide (j = k)) as [->|Hne].
    - rewrite lookup_insert_eq in Hj. injection Hj as <-. congruence.
    - rewrite lookup_insert_ne in Hj by congruence.
      apply Hne. exact (Hinv j k x l Hj Hl Ha Hs Hu). }
  assert (Hkeep : forall (f : LeaseRow -> Z),
            (forall j1 j2 x1 x2, leases db !! j1 = Some x1 ->
               leases db !! j2 = Some x2 -> lease_status x1 = active ->
               lease_status x2 = active -> f x1 = f x2 -> j1 = j2) ->
            forall j1 j2 x1 x2, <[k := l']> (leases db) !! j1 = Some x1 ->
              <[k := l']> (leases db) !! j2 = Some x2 ->
              lease_status x1 = active -> lease_status x2 = active ->
              f x1 = f x2 -> j1 = j2).
  { intros f Hinv j1 j2 x1 x2 H1 H2 A1 A2 Hf.
    destruct (decide (j1 = k)) as [->|N1].
    { rewrite lookup_insert_eq in H1. injection H1 as <-. congruence. }
    destruct (decide (j2 = k)) as [->|N2].
    { rewrite lookup_insert_eq in H2. injection H2 as <-. congruence. }
    rewrite lookup_insert_ne in H1 by congruence.
    rewrite lookup_insert_ne in H2 by congruence.
    exact (Hinv j1 j2 x1 x2 H1 H2 A1 A2 Hf). }
  split; [intros Hinv; exact (Hkeep lease_unit Hinv)|].
  split; [intros Hinv; exact (Hkeep lease_tenant Hinv)|].
  unfold LeaseTerminateView.arrears_warning. split.
  - intros Hnone i r Hi Hr.
    destruct (filter (LeaseTerminateView.unpaid k) (map_to_list (invoices db)))
      as [|x rest] eqn:E; [|discriminate].
    destruct (decide (status r = paid)) as [|Hnp]; [assumption|].
    exfalso.
    assert (Hin : (i, r) ∈ filter (LeaseTerminateView.unpaid k)
                             (map_to_list (invoices db))).
    { apply list_elem_of_filter. split.
      - split; [exact Hr|]. cbn [snd]. destruct (status r); auto.
        contradiction.
      - now apply elem_of_map_to_list. }
    rewrite E in Hin. inversion Hin.
  - intros Hall. rewrite filter_none; [reflexivity|].
    intros [i r] Hin [Hr Hs']. apply elem_of_map_to_list in Hin.
    cbn [snd] in *. rewrite (Hall i r Hin Hr) in Hs'.
    destruct Hs' as [?|[?|?]]; discriminate.
Qed.

Lemma lease_termination_rules_witness :
  exists l',
    LeaseTerminateView.post landlord_a 1000 NoDate sample_db
    = (Return (LeaseTerminated
                 (LeaseTerminateView.arrears_warning sample_db 1000)),
       with_leases (<[1000 := l']> (leases sample_db)) sample_db)
    /\ lease_status l' = terminated.
Proof.
  destruct (lease_termination_rules landlord_a 1000 (lease_of 100 5 15000)
              NoDate sample_db eq_refl eq_refl ltac:(discriminate) eq_refl)
    as (_ & _ & H).
  - apply (bool_decide_unpack _). vm_compute. exact I.
  - destruct (H eq_refl ltac:(discriminate)) as (l' & E & Hs & _).
    exists l'. split; [exact E|exact Hs].
Defined.

(** ** Deleting units and properties ([properties/views.py])

    [delete()] follows the foreign keys declared [on_delete=models.CASCADE]:
    [Lease.unit], [Invoice.lease] and [Payment.invoice] (and [Unit.unit_property]
    for a property).  The leases of a deleted unit, the invoices of a deleted
    lease and the payments of a deleted invoice are deleted with it. *)

Definition lease_kept (dead : gset Z) (l : LeaseRow) : Prop :=
  lease_unit l ∉ dead.

Definition invoice_kept (dead : gset Z) (db : DB) (r : InvoiceRow) : Prop :=
  match leases db !! lease r with
  | Some l => lease_kept dead l
  | None => True
  end.

Definition payment_kept (dead : gset Z) (db : DB) (p : PaymentRow) : Prop :=
  match invoices db !! invoice p with
  | Some r => invoice_kept dead db r
  | None => True
  end.

Global Instance lease_kept_dec dead l : Decision (lease_kept dead l).
Proof. unfold lease_kept. apply _. Defined.

Global Instance invoice_kept_dec dead db r : Decision (invoice_kept dead db r).
Proof. unfold invoice_kept. destruct (leases db !! lease r); apply _. Defined.

Global Instance payment_kept_dec dead db p : Decision (payment_kept dead db p).
Proof. unfold payment_kept. destruct (invoices db !! invoice p); apply _. Defined.

(** The database after the units [dead] are deleted. *)
Definition delete_units (dead : gset Z) (db : DB) : DB :=
  {| properties := properties db;
     units := filter (fun ku => fst ku ∉ dead) (units db);
     leases := filter (fun kl => lease_kept dead (snd kl)) (leases db);
     invoices := filter (fun kr => invoice_kept dead db (snd kr)) (invoices db);
     payments := filter (fun kp => payment_kept dead db (snd kp)) (payments db)
  |}.

Definition with_properties (t : gmap Z PropertyRow) (db : DB) : DB :=
  {| properties := t; units := units db; leases := leases db;
     invoices := invoices db; payments := payments db |}.

(** The units of a property. *)
Definition units_of (db : DB) (p : Z) : gset Z :=
  dom (filter (fun ku => unit_property (snd ku) = p) (units db)).

Inductive deletion_answer :=
| DeletionLogin
| DeletionDenied
| DeletionNotFound
| UnitHasActiveLease
| DeletionDone.

Module UnitDeleteView.

Definition post (req : Request) (k : Z) : M deletion_answer :=
  if negb (is_authenticated req) then ret DeletionLogin
  else if negb (is_landlord req) then ret DeletionDenied
  else
    db <- get_db ;;
    match units db !! k with
    | Some unit =>
        if decide (owned_by req (unit_landlord db k)) then
          if decide (UnitMethods.is_occupied db k) then ret UnitHasActiveLease
          else
            put_db (delete_units {[k]} db) ;;;
            ret DeletionDone
        else ret DeletionNotFound
    | None => ret DeletionNotFound
    end.

End UnitDeleteView.

Module PropertyDeleteView.

Definition post (req : Request) (p : Z) : M deletion_answer :=
  if negb (is_authenticated req) then ret DeletionLogin
  else if negb (is_landlord req) then ret DeletionDenied
  else
    db <- get_db ;;
    match properties db !! p with
    | Some property_obj =>
        if decide (owned_by req (Some (prop_landlord property_obj))) then
          put_db (with_properties (delete p (properties db))
                    (delete_units (units_of db p) db)) ;;;
          ret DeletionDone
        else ret DeletionNotFound
    | None => ret DeletionNotFound
    end.

End PropertyDeleteView.

Lemma delete_units_linked (dead : gset Z) (db : DB) :
  payments_linked db -> payments_linked (delete_units dead db).
Proof.
  intros H j p Hj. cbn [payments delete_units] in Hj.
  apply map_lookup_filter_Some in Hj as [Hj Hkept]. cbn [snd] in Hkept.
  destruct (H j p Hj) as [r Hr]. cbn [invoices delete_units].
  exists r. apply map_lookup_filter_Some. split; [exact Hr|].
  cbn [snd]. unfold payment_kept in Hkept. now rewrite Hr in Hkept.
Qed.

(** X26.  A unit with an active lease is never deleted: the request is
    refused and nothing is written.  A vacant unit of the landlord is
    deleted together with its ended leases, every invoice of those leases,
    paid or not, and every payment of those invoices, confirmed or not.
    Deleting a property asks nothing about its leases: each of its units,
    occupied or not, goes with its leases, invoices and payments.  In both
    cases the rows of the other units are left as they are, and every
    payment left refers to an invoice left. *)
Theorem deletion_cascades (req : Request) (db : DB) :
  is_authenticated req = true -> is_landlord req = true ->
  (forall k, UnitMethods.is_occupied db k ->
     snd (UnitDeleteView.post req k db) = db
     /\ fst (UnitDeleteView.post req k db) <> Return DeletionDone)
  /\ (forall k unit, units db !! k = Some unit ->
        owned_by req (unit_landlord db k) -> ~ UnitMethods.is_occupied db k ->
        UnitDeleteView.post req k db
        = (Return DeletionDone, delete_units {[k]} db))
  /\ (forall p property_obj, properties db !! p = Some property_obj ->
        owned_by req (Some (prop_landlord property_obj)) ->
        exists db',
          PropertyDeleteView.post req p db = (Return DeletionDone, db')
          /\ properties db' = delete p (properties db)
          /\ units db' = units (delete_units (units_of db p) db)
          /\ leases db' = leases (delete_units (units_of db p) db)
          /\ invoices db' = invoices (delete_units (units_of db p) db)
          /\ payments db' = payments (delete_units (units_of db p) db)
          /\ (forall u unit, units db !! u = Some unit ->
                unit_property unit = p -> units db' !! u = None)
          /\ (forall j l unit, leases db !! j = Some l ->
                units db !! lease_unit l = Some unit ->
                unit_property unit = p -> leases db' !! j = None))
  /\ (forall dead,
        (forall u, u ∈ dead -> units (delete_units dead db) !! u = None)
        /\ (forall j l, leases db !! j = Some l -> lease_unit l ∈ dead ->
              leases (delete_units dead db) !! j = None)
        /\ (forall i r l, invoices db !! i = Some r ->
              leases db !! lease r = Some l -> lease_unit l ∈ dead ->
              invoices (delete_units dead db) !! i = None)
        /\ (forall j x r l, payments db !! j = Some x ->
              invoices db !! invoice x = Some r ->
              leases db !! lease r = Some l -> lease_unit l ∈ dead ->
              payments (delete_units dead db) !! j = None)
        /\ (forall j l, leases db !! j = Some l -> lease_unit l ∉ dead ->
              leases (delete_units dead db) !! j = Some l)
        /\ (forall i r l, invoices db !! i = Some r ->
              leases db !! lease r = Some l -> lease_unit l ∉ dead ->
              invoices (delete_units dead db) !! i = Some r)
        /\ (forall j x r l, payments db !! j = Some x ->
              invoices db !! invoice x = Some r ->
              leases db !! lease r = Some l -> lease_unit l ∉ dead ->
              payments (delete_units dead db) !! j = Some x)
        /\ (payments_linked db -> payments_linked (delete_units dead db))).
Proof.
  intros Hauth Hland. split; [|split; [|split]].
  - intros k Hocc. unfold UnitDeleteView.post. rewrite Hauth, Hland.
    cbn [negb]. rewrite bind_get_eq.
    destruct (units db !! k); [|split; [reflexivity|discriminate]].
    destruct (decide (owned_by _ _)); [|split; [reflexivity|discriminate]].
    destruct (decide (UnitMethods.is_occupied db k)); [|contradiction].
    split; [reflexivity|discriminate].
  - intros k unit Hk Hown Hvac. unfold UnitDeleteView.post.
    rewrite Hauth, Hland. cbn [negb]. rewrite bind_get_eq, Hk.
    destruct (decide (owned_by _ _)); [|contradiction].
    destruct (decide (UnitMethods.is_occupied db k)); [contradiction|].
    reflexivity.
  - intros p property_obj Hp Hown. eexists. split.
    { unfold PropertyDeleteView.post. rewrite Hauth, Hland. cbn [negb].
      rewrite bind_get_eq, Hp.
      destruct (decide (owned_by _ _)); [|contradiction]. reflexivity. }
    cbn [properties units leases invoices payments with_properties].
    repeat (split; [reflexivity|]).
    assert (Hdead : forall u unit, units db !! u = Some unit ->
                      unit_property unit = p -> u ∈ units_of db p).
    { intros u unit Hu Hup. unfold units_of. apply elem_of_dom.
      exists unit. apply map_lookup_filter_Some. now split. }
    split.
    + intros u unit Hu Hup. cbn [units delete_units].
      apply map_lookup_filter_None. right. intros x _ Hnot.
      cbn [fst] in Hnot. apply Hnot. exact (Hdead u unit Hu Hup).
    + intros j l unit Hj Hu Hup. cbn [leases delete_units].
      apply map_lookup_filter_None. right. intros x Hx Hkept.
      rewrite Hj in Hx. injection Hx as <-. cbn [snd] in Hkept.
      apply Hkept. exact (Hdead _ unit Hu Hup).
  - intros dead. split; [|split; [|split; [|split; [|split; [|split; [|split]]]]]].
    + intros u Hu. cbn [units delete_units].
      apply map_lookup_filter_None. right. intros x _ Hnot.
      cbn [fst] in Hnot. contradiction.
    + intros j l Hj Hd. cbn [leases delete_units].
      apply map_lookup_filter_None. right. intros x Hx Hkept.
      rewrite Hj in Hx. injection Hx as <-. cbn [snd] in Hkept.
      contradiction.
    + intros i r l Hi Hl Hd. cbn [invoices delete_units].
      apply map_lookup_filter_None. right. intros x Hx Hkept.
      rewrite Hi in Hx. injection Hx as <-. cbn [snd] in Hkept.
      unfold invoice_kept in Hkept. rewrite Hl in Hkept. contradiction.
    + intros j x r l Hj Hr Hl Hd. cbn [payments delete_units].
      apply map_lookup_filter_None. right. intros y Hy Hkept.
      rewrite Hj in Hy. injection Hy as <-. cbn [snd] in Hkept.
      unfold payment_kept, invoice_kept in Hkept.
      rewrite Hr, Hl in Hkept. contradiction.
    + intros j l Hj Hd. cbn [leases delete_units].
      apply map_lookup_filter_Some. now split.
    + intros i r l Hi Hl Hd. cbn [invoices delete_units].
      apply map_lookup_filter_Some. split; [exact Hi|].
      cbn [snd]. unfold invoice_kept. now rewrite Hl.
    + intros j x r l Hj Hr Hl Hd. cbn [payments delete_units].
      apply map_lookup_filter_Some. split; [exact Hj|].
      cbn [snd]. unfold payment_kept, invoice_kept. now rewrite Hr, Hl.
    + apply delete_units_linked.
Qed.

Lemma deletion_cascades_witness :
  UnitMethods.is_occupied confirmed_db 100
  /\ exists db',
       PropertyDeleteView.post landlord_a 10 confirmed_db
       = (Return DeletionDone, db')
       /\ units db' !! 100 = None
       /\ leases db' !! 1000 = None.
Proof.
  split; [apply (bool_decide_unpack _); vm_compute; exact I|].
  destruct (deletion_cascades landlord_a confirmed_db eq_refl eq_refl)
    as (_ & _ & H & _).
  destruct (H 10 {| prop_landlord := 1 |} eq_refl)
    as (db' & E & _ & _ & _ & _ & _ & Hu & Hl).
  - apply (bool_decide_unpack _). vm_compute. exact I.
  - exists db'. split; [exact E|]. split.
    + apply (Hu 100 unit_a); reflexivity.
    + apply (Hl 1000 (lease_of 100 5 15000) unit_a); reflexivity.
Defined.

(** ** The list of payments ([payments/views.py]) *)

Definition payment_state_name (s : payment_state) : string :=
  match s with
  | awaiting => "pending"
  | confirmed => "confirmed"
  | failed => "failed"
  end.

Module PaymentListView.

Record Stats := {
  total_confirmed : option Decimal;
  count_mpesa : nat;
  count_cash : nat;
  count_bank : nat;
  count_cheque : nat
}.

Record Page := {
  page_payments : list (Z * PaymentRow);
  page_status_filter : string;
  page_method_filter : string;
  page_stats : Stats;
  page_pending_amount : Decimal
}.

Inductive answer := Login | Denied | Listed (page : Page).

(** [order_by('-payment_date')]: the payment date is set when the row is
    inserted, as [created_at] is. *)
Definition more_recent (a b : Z * PaymentRow) : Prop :=
  created_at (snd b) <= created_at (snd a).

Global Instance more_recent_dec a b : Decision (more_recent a b).
Proof. unfold more_recent. apply _. Defined.

Definition has_status (s : string) (kp : Z * PaymentRow) : Prop :=
  payment_state_name (payment_status (snd kp)) = s.

Definition has_method (m : string) (kp : Z * PaymentRow) : Prop :=
  payment_method (snd kp) = m.

Global Instance has_status_dec s kp : Decision (has_status s kp).
Proof. unfold has_status. apply _. Defined.

Global Instance has_method_dec m kp : Decision (has_method m kp).
Proof. unfold has_method. apply _. Defined.

Definition Sum (rows : list (Z * PaymentRow)) : option Decimal :=
  match rows with
  | [] => None
  | _ => Some (foldr (fun kp acc => amount (snd kp) + acc)%Q 0%Q rows)
  end.

Definition Count (m : string) (rows : list (Z * PaymentRow)) : nat :=
  length (filter (has_method m) rows).

(** [status] and [method] are the two parameters of the query string,
    [None] when absent. *)
Definition queryset (req : Request) (db : DB) (status_filter method_filter : string)
  : list (Z * PaymentRow) :=
  let payments :=
    merge_sort more_recent
      (filter (fun kp => owned_by req (invoice_landlord db (invoice (snd kp))))
         (map_to_list (payments db))) in
  let payments :=
    if negb (String.eqb status_filter "all")
    then filter (has_status status_filter) payments else payments in
  if negb (String.eqb method_filter "all")
  then filter (has_method method_filter) payments else payments.

Definition get (req : Request) (status method : option string) : M answer :=
  if negb (is_authenticated req) then ret Login
  else if negb (is_landlord req) then ret Denied
  else
    let status_filter := default "all"%string status in
    let method_filter := default "all"%string method in
    db <- get_db ;;
    let payments := queryset req db status_filter method_filter in
    let confirmed_rows := filter (has_status "confirmed") payments in
    let stats :=
      {| total_confirmed := Sum confirmed_rows;
         count_mpesa := Count "mpesa" confirmed_rows;
         count_cash := Count "cash" confirmed_rows;
         count_bank := Count "bank" confirmed_rows;
         count_cheque := Count "cheque" confirmed_rows |} in
    let pending_amount :=
      match Sum (filter (has_status "pending") payments) with
      | Some total => total
      | None => 0%Q
      end in
    ret (Listed {| page_payments := take 100 payments;
                   page_status_filter := status_filter;
                   page_method_filter := method_filter;
                   page_stats := stats;
                   page_pending_amount := pending_amount |}).

End PaymentListView.

Lemma payment_queryset_spec (req : Request) (db : DB) (sf mf : string)
    (k : Z) (p : PaymentRow) :
  (k, p) ∈ PaymentListView.queryset req db sf mf
  <-> payments db !! k = Some p
      /\ owned_by req (invoice_landlord db (invoice p))
      /\ (sf <> "all"%string -> payment_state_name (payment_status p) = sf)
      /\ (mf <> "all"%string -> payment_method p = mf).
Proof.
  unfold PaymentListView.queryset.
  assert (Hbase : forall x : Z * PaymentRow,
            x ∈ merge_sort PaymentListView.more_recent
                  (filter (fun kp : Z * PaymentRow =>
                             owned_by req
                               (invoice_landlord db (invoice (snd kp))))
                     (map_to_list (payments db)))
            <-> payments db !! fst x = Some (snd x)
                /\ owned_by req (invoice_landlord db (invoice (snd x)))).
  { intros [k0 p0]. rewrite merge_sort_Permutation, list_elem_of_filter,
      elem_of_map_to_list. cbn [fst snd]. tauto. }
  destruct (String.eqb_spec sf "all") as [Es|Es];
    destruct (String.eqb_spec mf "all") as [Em|Em];
    cbn [negb]; rewrite ?list_elem_of_filter, (Hbase (k, p));
    unfold PaymentListView.has_status, PaymentListView.has_method;
    cbn [fst snd]; tauto.
Qed.

Lemma counts_bounded (rows : list (Z * PaymentRow)) :
  (PaymentListView.Count "mpesa" rows + PaymentListView.Count "cash" rows
   + PaymentListView.Count "bank" rows + PaymentListView.Count "cheque" rows
   <= length rows)%nat.
Proof.
  unfold PaymentListView.Count.
  induction rows as [|x rest IH]; [reflexivity|].
  rewrite !filter_cons.
  repeat destruct (decide _); cbn [length];
    unfold PaymentListView.has_method in *; try congruence; lia.
Qed.

(** X27.  The list of payments shows a landlord at most a hundred
    payments, each on an invoice of theirs and each of the status and the
    method asked for, and reads without writing.  The totals are taken
    over the payments the filters keep: with a status filter other than
    'confirmed' there is no confirmed total and the four counts are zero,
    and with one other than 'pending' the pending amount is zero; an empty
    status lists nothing.  The four counts never exceed the number of
    confirmed payments kept. *)
Theorem payment_list_page (req : Request) (db : DB)
    (status method : option string) :
  is_authenticated req = true -> is_landlord req = true ->
  exists page,
    PaymentListView.get req status method db
    = (Return (PaymentListView.Listed page), db)
    /\ (length (PaymentListView.page_payments page) <= 100)%nat
    /\ (forall k p, (k, p) ∈ PaymentListView.page_payments page ->
          payments db !! k = Some p
          /\ owned_by req (invoice_landlord db (invoice p))
          /\ (forall s, status = Some s -> s <> "all"%string ->
                payment_state_name (payment_status p) = s)
          /\ (forall m, method = Some m -> m <> "all"%string ->
                payment_method p = m))
    /\ (status = Some ""%string -> PaymentListView.page_payments page = [])
    /\ (forall s, status = Some s -> s <> "all"%string ->
          s <> "confirmed"%string ->
          PaymentListView.page_stats page
          = {| PaymentListView.total_confirmed := None;
               PaymentListView.count_mpesa := 0;
               PaymentListView.count_cash := 0;
               PaymentListView.count_bank := 0;
               PaymentListView.count_cheque := 0 |})
    /\ (forall s, status = Some s -> s <> "all"%string ->
          s <> "pending"%string ->
          PaymentListView.page_pending_amount page = 0%Q)
    /\ (PaymentListView.count_mpesa (PaymentListView.page_stats page)
        + PaymentListView.count_cash (PaymentListView.page_stats page)
        + PaymentListView.count_bank (PaymentListView.page_stats page)
        + PaymentListView.count_cheque (PaymentListView.page_stats page)
        <= length (filter (PaymentListView.has_status "confirmed")
                     (PaymentListView.queryset req db
                        (default "all"%string status)
                        (default "all"%string method))))%nat.
Proof.
  intros Hauth Hland. unfold PaymentListView.get. rewrite Hauth, Hland.
  cbn [negb]. rewrite bind_get_eq. unfold ret. eexists.
  split; [reflexivity|].
  cbn [PaymentListView.page_payments PaymentListView.page_stats
       PaymentListView.page_pending_amount].
  set (qs := PaymentListView.queryset req db (default "all"%string status)
               (default "all"%string method)).
  assert (Hnone : forall s t, status = Some s -> s <> "all"%string -> s <> t ->
            filter (PaymentListView.has_status t) qs = []).
  { intros s t -> Hs Hst. apply filter_none. intros [k p] Hin Ht.
    apply payment_queryset_spec in Hin as (_ & _ & Hsf & _).
    unfold PaymentListView.has_status in Ht. cbn [snd default] in *.
    specialize (Hsf Hs). unfold id in Hsf. congruence. }
  split; [rewrite length_take; lia|]. split.
  { intros k p Hin. apply subseteq_take in Hin.
    apply payment_queryset_spec in Hin as (Hk & Ho & Hs & Hm).
    split; [exact Hk|]. split; [exact Ho|]. split.
    - intros s ->. exact Hs.
    - intros m ->. exact Hm. }
  split.
  { intros ->. assert (E : qs = []); [|now rewrite E].
    apply elem_of_nil_inv. intros [k p] Hin.
    apply payment_queryset_spec in Hin as (_ & _ & Hs & _).
    cbn [default] in Hs. specialize (Hs ltac:(discriminate)).
    unfold id in Hs. destruct (payment_status p); discriminate. }
  split.
  { intros s Hs Hall Hc. now rewrite (Hnone s "confirmed"%string Hs Hall Hc). }
  split.
  { intros s Hs Hall Hp. now rewrite (Hnone s "pending"%string Hs Hall Hp). }
  cbn [PaymentListView.count_mpesa PaymentListView.count_cash
       PaymentListView.count_bank PaymentListView.count_cheque].
  apply counts_bounded.
Qed.

Lemma payment_list_page_witness :
  exists page,
    PaymentListView.get landlord_b (Some "pending"%string) None two_pending_db
    = (Return (PaymentListView.Listed page), two_pending_db)
    /\ PaymentListView.page_stats page
       = {| PaymentListView.total_confirmed := None;
            PaymentListView.count_mpesa := 0;
            PaymentListView.count_cash := 0;
            PaymentListView.count_bank := 0;
            PaymentListView.count_cheque := 0 |}.
Proof.
  destruct (payment_list_page landlord_b two_pending_db
              (Some "pending"%string) None eq_refl eq_refl)
    as (page & E & _ & _ & _ & H & _).
  exists page. split; [exact E|].
  apply (H "pending"%string eq_refl); discriminate.
Defined.

(** ** The occupancy of a property ([properties/models.py]) *)

Module PropertyMethods.

Definition in_property (p : Z) (ku : Z * UnitRow) : Prop :=
  unit_property (snd ku) = p.

(** [self.units.filter(lease__status='active').distinct()]. *)
Definition occupied_in (db : DB) (p : Z) (ku : Z * UnitRow) : Prop :=
  unit_property (snd ku) = p /\ UnitMethods.is_occupied db (fst ku).

Definition vacant_in (db : DB) (p : Z) (ku : Z * UnitRow) : Prop :=
  unit_property (snd ku) = p /\ ~ UnitMethods.is_occupied db (fst ku).

Global Instance in_property_dec p ku : Decision (in_property p ku).
Proof. unfold in_property. apply _. Defined.

Global Instance occupied_in_dec db p ku : Decision (occupied_in db p ku).
Proof. unfold occupied_in. apply _. Defined.

Global Instance vacant_in_dec db p ku : Decision (vacant_in db p ku).
Proof. unfold vacant_in. apply _. Defined.

Definition get_total_units (db : DB) (p : Z) : nat :=
  size (filter (in_property p) (units db)).

Definition get_occupied_units (db : DB) (p : Z) : nat :=
  size (filter (occupied_in db p) (units db)).

Definition get_vacant_units (db : DB) (p : Z) : Z :=
  Z.of_nat (get_total_units db p) - Z.of_nat (get_occupied_units db p).

End PropertyMethods.

Lemma occupancy_partition (db : DB) (p : Z) :
  (PropertyMethods.get_occupied_units db p
   + size (filter (PropertyMethods.vacant_in db p) (units db))
   = PropertyMethods.get_total_units db p)%nat.
Proof.
  unfold PropertyMethods.get_occupied_units, PropertyMethods.get_total_units.
  set (m := filter (PropertyMethods.in_property p) (units db)).
  assert (E1 : filter (PropertyMethods.occupied_in db p) (units db)
               = filter (fun ku => UnitMethods.is_occupied db (fst ku)) m).
  { unfold m. rewrite map_filter_filter. apply map_filter_ext.
    intros i x _. unfold PropertyMethods.occupied_in,
      PropertyMethods.in_property. tauto. }
  assert (E2 : filter (PropertyMethods.vacant_in db p) (units db)
               = filter (fun ku => ~ UnitMethods.is_occupied db (fst ku)) m).
  { unfold m. rewrite map_filter_filter. apply map_filter_ext.
    intros i x _. unfold PropertyMethods.vacant_in,
      PropertyMethods.in_property. tauto. }
  rewrite E1, E2, <- map_size_disj_union
    by apply map_disjoint_filter_complement.
  now rewrite map_filter_union_complement.
Qed.

Lemma occupied_step (db db' : DB) (p u : Z) (unit : UnitRow) :
  units db' = units db -> units db !! u = Some unit ->
  unit_property unit = p -> ~ UnitMethods.is_occupied db u ->
  (forall x, UnitMethods.is_occupied db' x
             <-> UnitMethods.is_occupied db x \/ x = u) ->
  PropertyMethods.get_occupied_units db' p
  = S (PropertyMethods.get_occupied_units db p).
Proof.
  intros Hunits Hu Hp Hvac Hocc.
  unfold PropertyMethods.get_occupied_units. rewrite Hunits.
  assert (E : filter (PropertyMethods.occupied_in db' p) (units db)
              = <[u := unit]>
                  (filter (PropertyMethods.occupied_in db p) (units db))).
  { apply map_eq. intros i. destruct (decide (i = u)) as [->|Hne].
    - rewrite lookup_insert_eq. apply map_lookup_filter_Some.
      split; [exact Hu|]. split; [exact Hp|]. apply Hocc. now right.
    - rewrite lookup_insert_ne by congruence. apply option_eq. intros x.
      rewrite !map_lookup_filter_Some.
      unfold PropertyMethods.occupied_in. cbn [fst snd]. rewrite Hocc.
      tauto. }
  rewrite E. apply map_size_insert_None.
  apply map_lookup_filter_None. right. intros x _ [_ H]. contradiction.
Qed.

(** X28.  In a property the occupied units are never more than the units,
    and the vacant units, never negative, are the units without an active
    lease.  A lease created active on a vacant unit of the property makes
    one unit more occupied; an active lease that stops being active, on a
    unit with no other active lease, makes one unit less occupied.  The
    number of units stays. *)
Theorem occupancy_follows_leases (db : DB) (p : Z) :
  (PropertyMethods.get_occupied_units db p
   <= PropertyMethods.get_total_units db p)%nat
  /\ PropertyMethods.get_vacant_units db p
     = Z.of_nat (size (filter (PropertyMethods.vacant_in db p) (units db)))
  /\ (forall k row unit,
        leases db !! k = None -> lease_status row = active ->
        units db !! lease_unit row = Some unit -> unit_property unit = p ->
        ~ UnitMethods.is_occupied db (lease_unit row) ->
        PropertyMethods.get_occupied_units
          (with_leases (<[k := row]> (leases db)) db) p
        = S (PropertyMethods.get_occupied_units db p)
        /\ PropertyMethods.get_total_units
             (with_leases (<[k := row]> (leases db)) db) p
           = PropertyMethods.get_total_units db p)
  /\ (forall k l l' unit,
        leases db !! k = Some l -> lease_status l = active ->
        lease_status l' <> active -> lease_unit l' = lease_unit l ->
        units db !! lease_unit l = Some unit -> unit_property unit = p ->
        one_active_per_unit db ->
        S (PropertyMethods.get_occupied_units
             (with_leases (<[k := l']> (leases db)) db) p)
        = PropertyMethods.get_occupied_units db p).
Proof.
  pose proof (occupancy_partition db p) as Hpart.
  split; [lia|]. split; [unfold PropertyMethods.get_vacant_units; lia|].
  split.
  - intros k row unit Hk Hact Hu Hp Hvac. split; [|reflexivity].
    apply (occupied_step db _ p (lease_unit row) unit); auto.
    intros x. unfold UnitMethods.is_occupied. cbn [leases with_leases].
    rewrite map_Exists_insert by exact Hk. split.
    + intros [[<- _]|H]; [now right|now left].
    + intros [H| ->]; [now right|left; now split].
  - intros k l l' unit Hk Hact Hina Hun Hu Hp Hinv. symmetry.
    set (db' := with_leases (<[k := l']> (leases db)) db).
    assert (Hvac' : ~ UnitMethods.is_occupied db' (lease_unit l)).
    { intros Hocc. apply map_Exists_lookup in Hocc as (j & x & Hj & Hxu & Hxa).
      cbn [db' leases with_leases] in Hj.
      destruct (decide (j = k)) as [->|Hne].
      - rewrite lookup_insert_eq in Hj. injection Hj as <-. contradiction.
      - rewrite lookup_insert_ne in Hj by congruence.
        apply Hne. exact (Hinv j k x l Hj Hk Hxa Hact Hxu). }
    apply (occupied_step db' db p (lease_unit l) unit); auto.
    intros x. split.
    + intros Hocc. apply map_Exists_lookup in Hocc as (j & y & Hj & Hyu & Hya).
      destruct (decide (j = k)) as [->|Hne].
      * rewrite Hk in Hj. injection Hj as <-. now right.
      * left. apply map_Exists_lookup. exists j, y.
        cbn [db' leases with_leases].
        rewrite lookup_insert_ne by congruence. now split.
    + intros [Hocc| ->].
      * apply map_Exists_lookup in Hocc as (j & y & Hj & Hyu & Hya).
        cbn [db' leases with_leases] in Hj.
        destruct (decide (j = k)) as [->|Hne].
        -- rewrite lookup_insert_eq in Hj. injection Hj as <-. contradiction.
        -- rewrite lookup_insert_ne in Hj by congruence.
           apply map_Exists_lookup. exists j, y. now split.
      * apply map_Exists_lookup. exists k, l. now split.
Qed.

Lemma occupancy_follows_leases_witness :
  PropertyMethods.get_occupied_units
    (with_leases
       (<[3000 := lease_of 100 25 15000]> (leases vacant_db)) vacant_db) 10
  = S (PropertyMethods.get_occupied_units vacant_db 10).
Proof.
  destruct (occupancy_follows_leases vacant_db 10) as (_ & _ & H & _).
  apply (H 3000 (lease_of 100 25 15000) unit_a); try reflexivity.
  apply (bool_decide_unpack _). vm_compute. exact I.
Defined.

(** ** The bulk confirmation of payments ([payments/admin.py]) *)

Lemma confirm_payment_returns (env : Env) (db : DB) (k : Z) (r : PaymentRow)
    (ir : InvoiceRow) :
  invoice_table_ok (invoices db) -> payments db !! k = Some r ->
  payment_status r <> confirmed -> invoices db !! invoice r = Some ir ->
  exists p, fst (Payment.confirm_payment env (Payment.fetched k r) db)
            = Return p.
Proof.
  intros Hok Hk Hs Hir. unfold Payment.confirm_payment.
  cbn [pay_fields Payment.fetched].
  destruct (decide (payment_status r <> confirmed)); [|contradiction].
  rewrite (payment_save_confirming env _ db k r ir);
    [|reflexivity|exact Hk|reflexivity|exact Hs|reflexivity|exact Hir].
  rewrite invoice_save_eq. cbn [pk fields saved_key invoices with_payments].
  destruct (decide _) as [_|N]; [eexists; reflexivity|].
  exfalso. apply N. now apply repaid_row_unique.
Qed.

Lemma confirm_payments_loop_spec (env : Env) (queryset : list Z) (db : DB) :
  invoice_table_ok (invoices db) -> payments_linked db -> NoDup queryset ->
  exists db',
    PaymentAdmin.confirm_payments_loop env queryset db = (Return tt, db')
    /\ invoice_table_ok (invoices db') /\ payments_linked db'
    /\ (forall j, j ∉ queryset -> payments db' !! j = payments db !! j)
    /\ (forall j, payments db !! j = None -> payments db' !! j = None)
    /\ (forall j, j ∈ queryset -> is_Some (payments db !! j) ->
          status_of db' j = Some confirmed).
Proof.
  intros Hok Hlinked Hnd. revert db Hok Hlinked.
  induction Hnd as [|k rest Hk Hnd IH]; intros db Hok Hlinked;
    cbn [PaymentAdmin.confirm_payments_loop].
  { exists db. repeat (split; [easy|]). intros j Hj.
    now apply elem_of_nil in Hj. }
  rewrite bind_get_eq. destruct (payments db !! k) as [r|] eqn:Er.
  - destruct (decide (payment_status r <> confirmed)) as [Hs|Hs].
    + destruct (Hlinked k r Er) as [ir Hir].
      destruct (confirm_payment_returns env db k r ir Hok Er Hs Hir)
        as [p Hp].
      pose proof (preserves_confirm_payment invoice_table_ok table_ok_save
                    env (Payment.fetched k r) db Hok) as Hok1.
      pose proof (links_at_confirm_payment env (Payment.fetched k r) db
                    (fun _ => ex_intro _ ir Hir) Hlinked) as Hl1.
      assert (Hp1 : payments
                      (snd (Payment.confirm_payment env (Payment.fetched k r)
                              db))
                    = <[k := Payment.set_confirmed_at (Some (now env))
                                (Payment.set_status confirmed r)]>
                        (payments db)).
      { unfold Payment.confirm_payment. cbn [pay_fields Payment.fetched].
        destruct (decide (payment_status r <> confirmed)); [|contradiction].
        now rewrite (payment_save_payments env _ db k r). }
      unfold bind at 1 2.
      destruct (Payment.confirm_payment env (Payment.fetched k r) db)
        as [[p0|e] db1]; cbn [fst snd] in *; [|discriminate].
      unfold ret at 1. cbn iota beta.
      destruct (IH db1 Hok1 Hl1) as (db' & E & Hok' & Hl' & Hout & Hnone & Hin).
      exists db'. split; [exact E|]. split; [exact Hok'|].
      split; [exact Hl'|]. split; [|split].
      * intros j Hj. rewrite Hout by (intros H; apply Hj; now right).
        rewrite Hp1. apply lookup_insert_ne. intros ->. apply Hj. left.
      * intros j Hj. apply Hnone. rewrite Hp1.
        rewrite lookup_insert_ne; [exact Hj|]. intros ->. congruence.
      * intros j Hj Hsome. apply elem_of_cons in Hj as [->|Hj].
        -- unfold status_of. rewrite (Hout k Hk), Hp1, lookup_insert_eq.
           reflexivity.
        -- apply Hin; [exact Hj|]. rewrite Hp1.
           rewrite lookup_insert_ne; [exact Hsome|]. now intros ->.
    + apply dec_stable in Hs. unfold bind at 1. unfold ret at 1.
      cbn iota beta.
      destruct (IH db Hok Hlinked) as (db' & E & Hok' & Hl' & Hout & Hnone & Hin).
      exists db'. split; [exact E|]. split; [exact Hok'|].
      split; [exact Hl'|]. split; [|split].
      * intros j Hj. apply Hout. intros H. apply Hj. now right.
      * exact Hnone.
      * intros j Hj Hsome. apply elem_of_cons in Hj as [->|Hj].
        -- unfold status_of. rewrite (Hout k Hk), Er. cbn. now rewrite Hs.
        -- now apply Hin.
  - destruct (IH db Hok Hlinked) as (db' & E & Hok' & Hl' & Hout & Hnone & Hin).
    exists db'. split; [exact E|]. split; [exact Hok'|].
    split; [exact Hl'|]. split; [|split].
    + intros j Hj. apply Hout. intros H. apply Hj. now right.
    + exact Hnone.
    + intros j Hj Hsome. apply elem_of_cons in Hj as [->|Hj].
      * rewrite Er in Hsome. now destruct Hsome.
      * now apply Hin.
Qed.

Lemma confirm_payments_loop_idle (env : Env) (queryset : list Z) (db : DB) :
  (forall j r, j ∈ queryset -> payments db !! j = Some r ->
               payment_status r = confirmed) ->
  PaymentAdmin.confirm_payments_loop env queryset db = (Return tt, db).
Proof.
  induction queryset as [|k rest IH]; intros Hall;
    cbn [PaymentAdmin.confirm_payments_loop]; [reflexivity|].
  rewrite bind_get_eq.
  assert (Hrest : PaymentAdmin.confirm_payments_loop env rest db
                  = (Return tt, db)).
  { apply IH. intros j r Hj. apply Hall. now right. }
  destruct (payments db !! k) as [r|] eqn:Er; [|exact Hrest].
  destruct (decide (payment_status r <> confirmed)) as [Hs|_].
  - exfalso. apply Hs. apply (Hall k r); [left|exact Er].
  - unfold bind at 1. unfold ret at 1. cbn iota beta. exact Hrest.
Qed.

(** X29.  On a table that keeps its constraints and whose payments refer
    to stored invoices, the bulk confirmation never fails: every selected
    payment is confirmed afterwards, no payment appears or disappears, and
    the payments not selected are as they were.  Running it again on the
    same selection, at any later instant, confirms nothing and changes
    nothing: no amount is applied a second time. *)
Theorem bulk_confirmation_once (env env' : Env) (queryset : list Z) (db : DB) :
  invoice_table_ok (invoices db) -> payments_linked db -> NoDup queryset ->
  exists db',
    PaymentAdmin.confirm_payments env queryset db = (Return ActionDone, db')
    /\ (forall j, j ∈ queryset -> is_Some (payments db !! j) ->
          status_of db' j = Some confirmed)
    /\ (forall j, j ∉ queryset -> payments db' !! j = payments db !! j)
    /\ (forall j, payments db !! j = None -> payments db' !! j = None)
    /\ PaymentAdmin.confirm_payments env' queryset db'
       = (Return ActionDone, db').
Proof.
  intros Hok Hlinked Hnd.
  destruct (confirm_payments_loop_spec env queryset db Hok Hlinked Hnd)
    as (db' & E & _ & _ & Hout & Hnone & Hin).
  exists db'. split.
  { unfold PaymentAdmin.confirm_payments, except, bind. now rewrite E. }
  split; [exact Hin|]. split; [exact Hout|]. split; [exact Hnone|].
  unfold PaymentAdmin.confirm_payments, except, bind.
  rewrite confirm_payments_loop_idle; [reflexivity|].
  intros j r Hj Hr.
  destruct (payments db !! j) as [r0|] eqn:E0.
  - specialize (Hin j Hj ltac:(eauto)). unfold status_of in Hin.
    rewrite Hr in Hin. now injection Hin.
  - rewrite (Hnone j E0) in Hr. discriminate.
Qed.

Lemma bulk_confirmation_once_witness :
  exists db',
    PaymentAdmin.confirm_payments env_later [0; 1] two_pending_db
    = (Return ActionDone, db')
    /\ PaymentAdmin.confirm_payments env_later [0; 1] db'
       = (Return ActionDone, db').
Proof.
  destruct (bulk_confirmation_once env_later env_later [0; 1] two_pending_db)
    as (db' & E & _ & _ & _ & E').
  - apply (bool_decide_unpack _). vm_compute. exact I.
  - apply (bool_decide_unpack _). vm_compute. exact I.
  - apply (bool_decide_unpack _). vm_compute. exact I.
  - exists db'. split; [exact E|exact E'].
Defined.
